(** * core-port-stat: per-core execution-port utilisation from the PMCs

    A shallow embedding of [msr-tools/core-port-stat.cpp].

    - 64-bit unsigned integers are [Z] with the wrap-around written out;
    - the bit-field struct [pmc_config_t] is a record together with the
      packing of its declared fields (x86-64 System V: fields are laid out
      in declaration order starting at the least significant bit);
    - [cpuid], [rdtsc], [open], [pwrite] and [pread] are the operations of
      a [Machine];
    - [main] runs in a small trace-and-outcome monad: the trace records every
      interaction with the machine, the outcome says how the run stopped. *)

From Stdlib Require Import ZArith Lia PrimFloat SpecFloat FloatOps.
From coqutil Require Import Z.bitblast Word.LittleEndianList Byte.
From stdpp Require Import gmap strings list pretty.

Local Open Scope Z_scope.

(** ** Machine integers and bit slices *)

(** [u_int64_t] arithmetic is arithmetic modulo [2^64]. *)
Definition wrap64 (z : Z) : Z := z mod 2 ^ 64.

(** [a - b] on [u_int64_t]. *)
Definition sub64 (a b : Z) : Z := wrap64 (a - b).

(** The range of [int]. *)
Definition INT_MIN : Z := - 2 ^ 31.
Definition INT_MAX : Z := 2 ^ 31 - 1.

(** Bits [hi:lo] of [x], as an unsigned number (the notation of the
    processor manuals). *)
Definition bit_slice (x hi lo : Z) : Z := (x / 2 ^ lo) mod 2 ^ (hi - lo + 1).

(** ** Static tables *)

Record pmc_event_type_t := mk_pmc_event_type {
  event : Z;
  umask : Z
}.

Definition UOPS_DISPATCHED_PORT : list pmc_event_type_t :=
  [ mk_pmc_event_type 0xa1 0x01;
    mk_pmc_event_type 0xa1 0x02;
    mk_pmc_event_type 0xa1 0x0c;
    mk_pmc_event_type 0xa1 0x30;
    mk_pmc_event_type 0xa1 0x40;
    mk_pmc_event_type 0xa1 0x80 ].

Definition msr_addr_t := Z.

Definition IA32_PMC : list msr_addr_t :=
  [0xc1; 0xc2; 0xc3; 0xc4; 0xc5; 0xc6; 0xc7; 0xc8].

Definition IA32_PERFEVTSEL : list msr_addr_t :=
  [0x186; 0x187; 0x188; 0x189; 0x18a; 0x18b; 0x18c; 0x18d].

(** ** [pmc_config_t] *)

Record pmc_config_t := mk_pmc_config {
  event_select : Z;
  unit_mask : Z;
  user_mode : bool;
  operating_system_mode : bool;
  edge_detect : bool;
  pin_control : bool;
  interrupt_enable : bool;
  any_thread : bool;
  enable_counters : bool;
  invert_counter_mask : bool;
  counter_mask : Z;
  __reserved : Z
}.

(** The declared bit-fields, in declaration order: width and content. *)
Definition pmc_config_fields (c : pmc_config_t) : list (Z * Z) :=
  [ (8, event_select c);
    (8, unit_mask c);
    (1, Z.b2z (user_mode c));
    (1, Z.b2z (operating_system_mode c));
    (1, Z.b2z (edge_detect c));
    (1, Z.b2z (pin_control c));
    (1, Z.b2z (interrupt_enable c));
    (1, Z.b2z (any_thread c));
    (1, Z.b2z (enable_counters c));
    (1, Z.b2z (invert_counter_mask c));
    (8, counter_mask c);
    (32, __reserved c) ].

(** Packed bit-fields: the first field sits in the lowest bits, each next
    one directly above it; a field of width [w] stores [w] bits. *)
Fixpoint pack_fields (fs : list (Z * Z)) : Z :=
  match fs with
  | [] => 0
  | (w, v) :: rest => Z.lor (Z.land v (Z.ones w)) (Z.shiftl (pack_fields rest) w)
  end.

(** [sizeof(pmc_config_t)] in bits. *)
Definition pmc_config_bits : Z :=
  foldr (fun f acc => fst f + acc) 0 (pmc_config_fields (mk_pmc_config 0 0 false false false false false false false false 0 0)).

(** [*(u_int64_t* )&conf] *)
Definition pmc_config_to_u64 (c : pmc_config_t) : Z :=
  pack_fields (pmc_config_fields c).

(** [memset(&conf, 0, sizeof(pmc_config_t))] *)
Definition pmc_config_zero : pmc_config_t :=
  mk_pmc_config 0 0 false false false false false false false false 0 0.

(** The register image built in the body of the configure loop for one
    port: cleared, then the six assignments.  Storing an [int] into an
    8-bit field keeps its low 8 bits. *)
Definition port_config (port : pmc_event_type_t) : pmc_config_t :=
  let conf := pmc_config_zero in
  {| event_select := Z.land (event port) 0xff;
     unit_mask := Z.land (umask port) 0xff;
     user_mode := true;
     operating_system_mode := true;
     edge_detect := edge_detect conf;
     pin_control := pin_control conf;
     interrupt_enable := interrupt_enable conf;
     any_thread := true;
     enable_counters := true;
     invert_counter_mask := invert_counter_mask conf;
     counter_mask := counter_mask conf;
     __reserved := __reserved conf |}.

(** ** Capability probing: the decoders of the [cpuid] output *)

Record pmc_info_t := mk_pmc_info {
  version_id : Z;
  num_pmc_per_thread : Z;
  pmc_bitwidth : Z
}.

(** [pmcinfo()], as a function of [rax] after [cpuid] with leaf [0x0a]. *)
Definition pmcinfo (rax : Z) : pmc_info_t :=
  {| version_id := Z.land rax 0xff;
     num_pmc_per_thread := Z.land (Z.shiftr rax 8) 0xff;
     pmc_bitwidth := Z.land (Z.shiftr rax 16) 0xff |}.

(** [cpu_family()], as a function of [rax] after [cpuid] with leaf [0x01]. *)
Definition cpu_family (rax : Z) : Z :=
  let family_id := Z.land (Z.shiftr rax 8) 0x0f in
  let extended_family_id := Z.land (Z.shiftr rax 20) 0xff in
  if negb (family_id =? 0x0f) then family_id
  else extended_family_id + family_id.

(** [cpu_model()], as a function of [rax] after [cpuid] with leaf [0x01]. *)
Definition cpu_model (rax : Z) : Z :=
  let family_id := Z.land (Z.shiftr rax 8) 0x0f in
  let model_id := Z.land (Z.shiftr rax 4) 0x0f in
  let extended_model_id := Z.land (Z.shiftr rax 16) 0x0f in
  if (family_id =? 0x06) || (family_id =? 0x0f)
  then Z.shiftl extended_model_id 4 + model_id
  else model_id.

(** ** Topology records *)

(** [cpu_t], with the attributes [cpuinfo()] fills in (the other members
    are never assigned and never read). *)
Module cpu_t.
Record t := mk {
  id : Z;
  cpu_family : Z;
  model : Z;
  core_id : Z;
  flags : gset string
}.
End cpu_t.

(** [msr_t]: the owner of one file descriptor. *)
Record msr_t := mk_msr { fd : Z }.

(** ** The machine and the runs of the program *)

(** What the program asks of the processor and of the operating system.
    [K] is the state of the machine.  [sys_pwrite] answers with the return
    value of [pwrite]; [sys_pread] answers [None] for a return value of
    [-1] and otherwise the bytes it stored, their number being the return
    value.  [proc_cpuinfo] is what parsing [/proc/cpuinfo] yields, [None]
    when a line has no colon. *)
Class Machine (K : Type) := {
  cpuid : Z -> Z;
  insn_rdtsc : K -> (Z * Z) * K;
  sys_usleep : Z -> K -> K;
  sys_open : string -> K -> Z * K;
  sys_pwrite : Z -> list byte -> Z -> K -> Z * K;
  sys_pread : Z -> nat -> Z -> K -> option (list byte) * K;
  proc_cpuinfo : option (list cpu_t.t)
}.

Inductive io_event :=
| EvStderr (s : string)
| EvFprintf (fmt : string) (args : list float)
| EvOpen (path : string) (ret : Z)
| EvPwrite (fildes : Z) (buf : list byte) (offset : Z) (ret : Z)
| EvPread (fildes : Z) (nbyte : nat) (offset : Z) (res : option (list byte))
| EvRdtsc (eax edx : Z)
| EvUsleep (usec : Z).

(** How a run stops: it goes on with a value, it calls [exit], it dies of
    an exception nobody catches, or it does something C++ gives no meaning
    to (an index out of range, a division by zero). *)
Inductive outcome (A : Type) :=
| Ret (a : A)
| Exit (status : Z)
| Throw (what : string)
| Undefined.
Arguments Ret {A} a.
Arguments Exit {A} status.
Arguments Throw {A} what.
Arguments Undefined {A}.

Definition M (K A : Type) : Type := K -> list io_event * K * outcome A.

Definition ret {K A} (a : A) : M K A := fun k => ([], k, Ret a).

Definition bind {K A B} (m : M K A) (f : A -> M K B) : M K B :=
  fun k =>
    match m k with
    | (t1, k1, Ret a) => let '(t2, k2, o) := f a k1 in (t1 ++ t2, k2, o)
    | (t1, k1, Exit s) => (t1, k1, Exit s)
    | (t1, k1, Throw w) => (t1, k1, Throw w)
    | (t1, k1, Undefined) => (t1, k1, Undefined)
    end.

Declare Scope prog_scope.
Delimit Scope prog_scope with prog.
Notation "x <- m ;; f" := (bind m (fun x => f))
  (at level 20, m at level 99, f at level 200, only parsing) : prog_scope.
Notation "m ;; f" := (bind m (fun _ => f))
  (at level 100, f at level 200, only parsing, right associativity) : prog_scope.
Local Open Scope prog_scope.

Definition trace {K A} (r : list io_event * K * outcome A) : list io_event := r.1.1.
Definition final {K A} (r : list io_event * K * outcome A) : K := r.1.2.
Definition result {K A} (r : list io_event * K * outcome A) : outcome A := r.2.

Definition emit {K} (e : io_event) : M K unit := fun k => ([e], k, Ret tt).
Definition exit {K A} (status : Z) : M K A := fun k => ([], k, Exit status).
Definition throw {K A} (what : string) : M K A := fun k => ([], k, Throw what).
Definition undefined {K A} : M K A := fun k => ([], k, Undefined).

(** [for (x : l) body] *)
Fixpoint for_each {K A} (l : list A) (body : A -> M K unit) : M K unit :=
  match l with
  | [] => ret tt
  | x :: l' => body x ;; for_each l' body
  end.

(** A loop whose body updates a variable [s] declared outside of it. *)
Fixpoint fold_each {K A S} (l : list A) (s : S) (body : A -> S -> M K S) : M K S :=
  match l with
  | [] => ret s
  | x :: l' => s' <- body x s ;; fold_each l' s' body
  end.

(** [v[i]] on a vector or array: no meaning out of range. *)
Definition index {K A} (v : list A) (i : Z) : M K A :=
  if i <? 0 then undefined
  else match v !! Z.to_nat i with
       | Some x => ret x
       | None => undefined
       end.

(** [a + b] on [int]: no meaning when the sum leaves the range of [int]. *)
Definition int_add {K} (a b : Z) : M K Z :=
  if (INT_MIN <=? a + b) && (a + b <=? INT_MAX) then ret (a + b) else undefined.

(** [a / b] and [a % b] on [size_t]. *)
Definition udiv {K} (a b : Z) : M K Z := if b =? 0 then undefined else ret (a / b).
Definition umod {K} (a b : Z) : M K Z := if b =? 0 then undefined else ret (a mod b).

Definition EXIT_FAILURE : Z := 1.
Definition endl : string := String (Ascii.ascii_of_nat 10) "".

(** One statement [std::cerr << ... ;]. *)
Definition cerr {K} (s : string) : M K unit := emit (EvStderr s).
Definition fprintf_stderr {K} (fmt : string) (args : list float) : M K unit :=
  emit (EvFprintf fmt args).

(** Return value of [pread] for an answer of the machine. *)
Definition pread_ret (res : option (list byte)) : Z :=
  match res with
  | None => -1
  | Some bs => Z.of_nat (length bs)
  end.

(** Conversion of an integer to [double]: round to nearest, ties to
    even. *)
Definition to_double (z : Z) : float :=
  SF2Prim (binary_normalize 53 1024 z 0 false).

(** [(value - value0) / (double) hz * 100] *)
Definition utilization (value value0 hz : Z) : float :=
  PrimFloat.mul
    (PrimFloat.div (to_double (sub64 value value0)) (to_double hz))
    (to_double 100).

(** ** The program *)

Section Program.
Context {K : Type} `{Machine K}.

(** [msr_t::msr_t(const std::string &path)]: the descriptor is stored as
    [open] returns it, [-1] included. *)
Definition msr_open (path : string) : M K msr_t :=
  fun k =>
    let '(r, k') := sys_open path k in
    ([EvOpen path r], k', Ret (mk_msr r)).

(** [msr_t::wrmsr]: the 8 bytes of [val] (little-endian on x86) go to
    offset [reg]. *)
Definition wrmsr (m : msr_t) (reg val : Z) : M K unit :=
  fun k =>
    let buf := le_split 8 val in
    let '(r, k') := sys_pwrite (fd m) buf reg k in
    ([EvPwrite (fd m) buf reg r], k',
     if negb (r =? 8) then Throw "failed write" else Ret tt).

(** [msr_t::rdmsr] *)
Definition rdmsr (m : msr_t) (reg : Z) : M K Z :=
  fun k =>
    let '(res, k') := sys_pread (fd m) 8 reg k in
    ([EvPread (fd m) 8 reg res], k',
     if negb (pread_ret res =? 8) then Throw "failed read"
     else Ret (le_combine (default [] res))).

(** [cpu_t::open_msr] *)
Definition open_msr (cpu : cpu_t.t) : M K msr_t :=
  msr_open ("/dev/cpu/" +:+ pretty (cpu_t.id cpu) +:+ "/msr").

(** [cpuinfo()]: the parsing of the attribute table is outside of this
    development, only its two results are. *)
Definition cpuinfo : M K (list cpu_t.t) :=
  match proc_cpuinfo with
  | Some processors => ret processors
  | None => throw "can't parse /proc/cpuinfo"
  end.

(** [usleep(usec)]: time passes on the machine. *)
Definition usleep (usec : Z) : M K unit :=
  fun k => ([EvUsleep usec], sys_usleep usec k, Ret tt).

(** [rdtsc()] *)
Definition rdtsc : M K Z :=
  fun k =>
    let '((eax, edx), k') := insn_rdtsc k in
    ([EvRdtsc eax edx], k', Ret (Z.lor (wrap64 (Z.shiftl edx 32)) eax)).

(** [main], lines 281-289: the report of what was probed. *)
Definition main_probe : M K pmc_info_t :=
  cerr ("CPU Family: " +:+ pretty (cpu_family (cpuid 0x01)) +:+ endl) ;;
  cerr ("CPU Model: " +:+ pretty (cpu_model (cpuid 0x01)) +:+ endl) ;;
  cerr endl ;;
  let info := pmcinfo (cpuid 0x0a) in
  cerr ("Version ID of architectural performance monitoring (CPUID.0AH:EAX[7:0]): "
          +:+ pretty (version_id info) +:+ endl) ;;
  cerr ("Number of general-purpose performance monitoring counter per logical processor (CPUID.0AH:EAX[15:8]): "
          +:+ pretty (num_pmc_per_thread info) +:+ endl) ;;
  cerr ("Bit width of general-purpose performance monitoring counter: "
          +:+ pretty (pmc_bitwidth info) +:+ endl) ;;
  cerr endl ;;
  ret info.

Definition unsupported_message : string :=
  "Sorry your CPU is not supported yet: family = "
    +:+ pretty (cpu_family (cpuid 0x01)) +:+ ", " +:+ "model = "
    +:+ pretty (cpu_model (cpuid 0x01)) +:+ endl.

(** [main], lines 291-294. *)
Definition main_gate (info : pmc_info_t) : M K unit :=
  if (version_id info <? 3)
     || negb (cpu_family (cpuid 0x01) =? 6)
     || negb (cpu_model (cpuid 0x01) =? 42)
  then cerr unsupported_message ;; exit EXIT_FAILURE
  else ret tt.

Definition no_constant_tsc_message : string :=
  "Cannot calculate core utilization because constant_tsc is not available on your CPU."
    +:+ endl.

(** [main], lines 296-300. *)
Definition main_topology : M K (list cpu_t.t) :=
  cpus <- cpuinfo ;;
  cpu0 <- index cpus 0 ;;
  if decide ("constant_tsc" ∈ cpu_t.flags cpu0)
  then ret cpus
  else cerr no_constant_tsc_message ;; exit EXIT_FAILURE.

(** [main], line 302, the [std::accumulate] of [std::max] from [0]: the
    largest core id, and 0 when there is none above it. *)
Definition max_core_id (cpus : list cpu_t.t) : Z :=
  fold_left (fun a b => Z.max a (cpu_t.core_id b)) cpus 0.

(** [main], line 302: [num_cores] is that number plus one, on [int].  With
    a largest core id of [INT_MAX] the sum overflows (compilers let it wrap
    to a negative number, and the constructor of the vector then
    throws). *)
Definition num_cores (cpus : list cpu_t.t) : M K Z :=
  int_add (max_core_id cpus) 1.

(** [main], lines 303-305: a vector of [num_cores] empty vectors (memory
    is taken to suffice), filled by core id. *)
Definition main_open (n_cores : Z) (cpus : list cpu_t.t)
    : M K (list (list msr_t)) :=
  fold_each cpus (replicate (Z.to_nat n_cores) [])
    (fun cpu core_msrs =>
       _ <- index core_msrs (cpu_t.core_id cpu) ;;
       m <- open_msr cpu ;;
       ret (alter (fun v => v ++ [m]) (Z.to_nat (cpu_t.core_id cpu)) core_msrs)).

Definition port_count : Z := Z.of_nat (length UOPS_DISPATCHED_PORT).

(** [main], lines 308-326: the body for one [core_id] and one [i]. *)
Definition configure_port (info : pmc_info_t) (core_msrs : list (list msr_t))
    (core_id i : Z) : M K unit :=
  cpu_idx <- udiv i (num_pmc_per_thread info) ;;
  pmc_idx <- umod i (num_pmc_per_thread info) ;;
  port <- index UOPS_DISPATCHED_PORT i ;;
  let conf := port_config port in
  msrs <- index core_msrs core_id ;;
  msr <- index msrs cpu_idx ;;
  reg <- index IA32_PERFEVTSEL pmc_idx ;;
  wrmsr msr reg (pmc_config_to_u64 conf).

Definition main_configure (info : pmc_info_t) (n_cores : Z)
    (core_msrs : list (list msr_t)) : M K unit :=
  for_each (seqZ 0 n_cores) (fun core_id =>
    for_each (seqZ 0 port_count) (fun i =>
      configure_port info core_msrs core_id i)).

(** [main], lines 329-339: the body for one [core_id] and one [i]. *)
Definition reset_port (info : pmc_info_t) (core_msrs : list (list msr_t))
    (core_id i : Z) : M K unit :=
  cpu_idx <- udiv i (num_pmc_per_thread info) ;;
  pmc_idx <- umod i (num_pmc_per_thread info) ;;
  msrs <- index core_msrs core_id ;;
  msr <- index msrs cpu_idx ;;
  reg <- index IA32_PMC pmc_idx ;;
  wrmsr msr reg 0.

Definition main_reset (info : pmc_info_t) (n_cores : Z)
    (core_msrs : list (list msr_t)) : M K (list (list Z)) :=
  fold_each (seqZ 0 n_cores) (replicate (Z.to_nat n_cores) [])
    (fun core_id values =>
       for_each (seqZ 0 port_count) (fun i =>
         reset_port info core_msrs core_id i) ;;
       _ <- index values core_id ;;
       ret (<[Z.to_nat core_id := replicate (Z.to_nat port_count) 0]> values)).

(** [main], lines 351-360: the body for one [core_id] and one [i];
    [values] is the vector of vectors of previous counter values. *)
Definition tick_port (info : pmc_info_t) (core_msrs : list (list msr_t))
    (hz core_id i : Z) (values : list (list Z)) : M K (list (list Z)) :=
  cpu_idx <- udiv i (num_pmc_per_thread info) ;;
  pmc_idx <- umod i (num_pmc_per_thread info) ;;
  msrs <- index core_msrs core_id ;;
  msr <- index msrs cpu_idx ;;
  reg <- index IA32_PMC pmc_idx ;;
  value <- rdmsr msr reg ;;
  row <- index values core_id ;;
  value0 <- index row i ;;
  fprintf_stderr "%6.2f%%" [utilization value value0 hz] ;;
  ret (<[Z.to_nat core_id := <[Z.to_nat i := value]> row]> values).

(** [main], lines 343-363: one turn of the endless loop. *)
Definition main_tick (info : pmc_info_t) (n_cores : Z)
    (core_msrs : list (list msr_t)) (st : Z * list (list Z))
    : M K (Z * list (list Z)) :=
  usleep (1000 * 1000) ;;
  tsc <- rdtsc ;;
  let hz := sub64 tsc st.1 in
  values <- fold_each (seqZ 0 n_cores) st.2 (fun core_id values =>
    fprintf_stderr "[" [] ;;
    values' <- fold_each (seqZ 0 port_count) values (fun i values =>
      tick_port info core_msrs hz core_id i values) ;;
    fprintf_stderr "] " [] ;;
    ret values') ;;
  fprintf_stderr endl [] ;;
  ret (tsc, values).

(** [n] turns of [while (true)]. *)
Fixpoint main_loop (n : nat) (info : pmc_info_t) (n_cores : Z)
    (core_msrs : list (list msr_t)) (st : Z * list (list Z))
    : M K (Z * list (list Z)) :=
  match n with
  | O => ret st
  | S n' =>
      st' <- main_tick info n_cores core_msrs st ;;
      main_loop n' info n_cores core_msrs st'
  end.

(** [main], everything before the loop. *)
Definition main_startup
    : M K (pmc_info_t * Z * list (list msr_t) * (Z * list (list Z))) :=
  info <- main_probe ;;
  main_gate info ;;
  cpus <- main_topology ;;
  n_cores <- num_cores cpus ;;
  core_msrs <- main_open n_cores cpus ;;
  main_configure info n_cores core_msrs ;;
  values <- main_reset info n_cores core_msrs ;;
  tsc0 <- rdtsc ;;
  ret (info, n_cores, core_msrs, (tsc0, values)).

(** [main], cut after [n] turns of its loop: the loop has no exit, so
    [Ret] here means that the program is still running. *)
Definition main (n : nat) : M K (Z * list (list Z)) :=
  started <- main_startup ;;
  let '(info, n_cores, core_msrs, st) := started in
  main_loop n info n_cores core_msrs st.
End Program.

(** ** A scripted machine

    A substitute for the hardware, for running the program on concrete
    inputs.  Descriptors are handed out from 3 upwards; every descriptor
    sees its own registers; sleeping advances the time-stamp counter and
    every general-purpose counter. *)

Record sim_state := mk_sim {
  sim_next_fd : Z;
  sim_tsc : Z;
  sim_regs : list (Z * Z * Z)
}.

Record sim_config := mk_sim_config {
  sim_eax01 : Z;
  sim_eax0a : Z;
  sim_cpuinfo : option (list cpu_t.t);
  sim_openable : string -> bool;
  sim_accepts : Z -> Z -> Z;
  sim_delivers : Z -> Z -> nat;
  sim_cycles_per_sleep : Z;
  sim_counts_per_sleep : Z
}.

Definition sim_boot : sim_state := mk_sim 3 0 [].

Fixpoint sim_load (regs : list (Z * Z * Z)) (fildes reg : Z) : Z :=
  match regs with
  | [] => 0
  | (f, r, v) :: regs' =>
      if (f =? fildes) && (r =? reg) then v else sim_load regs' fildes reg
  end.

Definition sim_store (regs : list (Z * Z * Z)) (fildes reg v : Z) : list (Z * Z * Z) :=
  (fildes, reg, v) :: filter (fun e => negb ((e.1.1 =? fildes) && (e.1.2 =? reg))) regs.

Definition sim_count (c : sim_config) (e : Z * Z * Z) : Z * Z * Z :=
  if bool_decide (e.1.2 ∈ IA32_PMC)
  then (e.1, wrap64 (e.2 + sim_counts_per_sleep c))
  else e.

Definition sim_machine (c : sim_config) : Machine sim_state := {|
  cpuid leaf :=
    if leaf =? 0x01 then sim_eax01 c
    else if leaf =? 0x0a then sim_eax0a c
    else 0;
  insn_rdtsc k :=
    ((Z.land (sim_tsc k) (Z.ones 32), Z.land (Z.shiftr (sim_tsc k) 32) (Z.ones 32)), k);
  sys_usleep usec k :=
    mk_sim (sim_next_fd k) (wrap64 (sim_tsc k + sim_cycles_per_sleep c))
           (map (sim_count c) (sim_regs k));
  sys_open path k :=
    if sim_openable c path
    then (sim_next_fd k, mk_sim (sim_next_fd k + 1) (sim_tsc k) (sim_regs k))
    else (-1, k);
  sys_pwrite fildes buf offset k :=
    if fildes <? 0 then (-1, k)
    else if sim_accepts c fildes offset =? 8
         then (8, mk_sim (sim_next_fd k) (sim_tsc k)
                         (sim_store (sim_regs k) fildes offset (le_combine buf)))
         else (sim_accepts c fildes offset, k);
  sys_pread fildes nbyte offset k :=
    if fildes <? 0 then (None, k)
    else (Some (take (sim_delivers c fildes offset)
                     (le_split nbyte (sim_load (sim_regs k) fildes offset))), k);
  proc_cpuinfo := sim_cpuinfo c
|}.

(** Identification values of a supported part: family 6, model 42;
    version 3, 4 counters per logical processor, 48 bits wide. *)
Definition sandy_bridge_eax01 : Z := 0x000206a7.
Definition four_counters_eax0a : Z := 0x07300403.

Definition sim_cpu (id core_id : Z) : cpu_t.t :=
  cpu_t.mk id 6 42 core_id {[ "fpu"; "constant_tsc" ]}.

(** A well-behaved machine with the given logical processors. *)
Definition sim_plain (cpus : list cpu_t.t) : sim_config :=
  mk_sim_config sandy_bridge_eax01 four_counters_eax0a (Some cpus)
    (fun _ => true) (fun _ _ => 8) (fun _ _ => 8%nat) 1000000 10000.

(** One core with one logical processor. *)
Definition sim_one_thread : sim_config := sim_plain [sim_cpu 0 0].

(** One core with two logical processors. *)
Definition sim_two_threads : sim_config := sim_plain [sim_cpu 0 0; sim_cpu 1 0].

(** Two logical processors whose core ids are 0 and 2. *)
Definition sim_sparse_cores : sim_config := sim_plain [sim_cpu 0 0; sim_cpu 1 2].

(** A machine of an unsupported generation: family 6, model 58. *)
Definition sim_unsupported : sim_config :=
  mk_sim_config 0x000306a9 four_counters_eax0a (Some [sim_cpu 0 0])
    (fun _ => true) (fun _ _ => 8) (fun _ _ => 8%nat) 1000000 10000.

(** A machine whose register files take 4 bytes of a write and deliver 3
    bytes to a read. *)
Definition sim_short : sim_config :=
  mk_sim_config sandy_bridge_eax01 four_counters_eax0a (Some [sim_cpu 0 0])
    (fun _ => true) (fun _ _ => 4) (fun _ _ => 3%nat) 1000000 10000.

(** ** Vocabulary of the statements *)

(** [E | (U << 8) | (1 << 16) | (1 << 17) | (1 << 21) | (1 << 22)]: event
    code, unit mask, and the user-mode, kernel-mode, any-thread and enable
    bits. *)
Definition evtsel_value (E U : Z) : Z :=
  Z.lor E
    (Z.lor (Z.shiftl U 8)
       (Z.lor (Z.shiftl 1 16)
          (Z.lor (Z.shiftl 1 17) (Z.lor (Z.shiftl 1 21) (Z.shiftl 1 22))))).

(** The write to the event-select register that event index [i] asks for
    on core [c]: slot [i mod n] of the logical processor at offset [i / n],
    [n] being the number of counters per logical processor. *)
Definition evtsel_write (info : pmc_info_t) (core_msrs : list (list msr_t))
    (c i : Z) : io_event :=
  let n := num_pmc_per_thread info in
  let port := nth (Z.to_nat i) UOPS_DISPATCHED_PORT (mk_pmc_event_type 0 0) in
  EvPwrite
    (fd (nth (Z.to_nat (i / n)) (nth (Z.to_nat c) core_msrs []) (mk_msr (-1))))
    (le_split 8 (evtsel_value (event port) (umask port)))
    (0x186 + i mod n)
    8.

(** The [open] of the register file of one logical processor. *)
Definition open_event (cpu : cpu_t.t) (ret : Z) : io_event :=
  EvOpen ("/dev/cpu/" +:+ pretty (cpu_t.id cpu) +:+ "/msr") ret.

(** The core ids that occur in a topology. *)
Definition core_ids (cpus : list cpu_t.t) : gset Z :=
  list_to_set (cpu_t.core_id <$> cpus).

(** The logical processors of core [c]. *)
Definition members (cpus : list cpu_t.t) (c : Z) : list cpu_t.t :=
  filter (fun cpu => cpu_t.core_id cpu = c) cpus.

(** The descriptors that [open] returns for the register files of [cpus],
    opened one after the other from the state [k], and the state they
    leave. *)
Fixpoint opened `{Machine K} (cpus : list cpu_t.t) (k : K) : list Z * K :=
  match cpus with
  | [] => ([], k)
  | cpu :: cpus' =>
      let r := sys_open ("/dev/cpu/" +:+ pretty (cpu_t.id cpu) +:+ "/msr") k in
      let rest := opened cpus' r.2 in
      (r.1 :: rest.1, rest.2)
  end.

(** The register files of the logical processors of core [c], in the order
    of the topology; [fds] are the descriptors of all logical processors. *)
Definition core_channels (cpus : list cpu_t.t) (fds : list Z) (c : Z)
    : list msr_t :=
  (fun p => mk_msr p.2)
    <$> filter (fun p : cpu_t.t * Z => cpu_t.core_id p.1 = c) (zip cpus fds).

(** The hardware passes the compatibility gate. *)
Definition supported `{Machine K} : Prop :=
  3 <= version_id (pmcinfo (cpuid 0x0a))
  /\ cpu_family (cpuid 0x01) = 6
  /\ cpu_model (cpuid 0x01) = 42.

Definition is_open (e : io_event) : bool :=
  match e with EvOpen _ _ => true | _ => false end.

Definition is_pwrite (e : io_event) : bool :=
  match e with EvPwrite _ _ _ _ => true | _ => false end.

Definition is_stderr (e : io_event) : bool :=
  match e with EvStderr _ => true | _ => false end.

Definition is_exit {A} (o : outcome A) : bool :=
  match o with Exit _ => true | _ => false end.

(** What [main] does once the register files are open: configure, reset,
    take the first time stamp, and loop. *)
Definition after_open `{Machine K} (n : nat) (info : pmc_info_t)
    (n_cores : Z) (core_msrs : list (list msr_t))
    : M K (Z * list (list Z)) :=
  started <-
    (main_configure info n_cores core_msrs ;;
     values <- main_reset info n_cores core_msrs ;;
     tsc0 <- rdtsc ;;
     ret (info, n_cores, core_msrs, (tsc0, values))) ;;
  let '(info, n_cores, core_msrs, st) := started in
  main_loop n info n_cores core_msrs st.

(** The claim of a planning failure: the run ends in an exit, and has
    neither opened a register file nor written to a register. *)
Definition fails_at_planning {K A} (r : list io_event * K * outcome A) : Prop :=
  is_exit (result r) = true
  /\ existsb is_open (trace r) = false
  /\ existsb is_pwrite (trace r) = false.

(** The claim of a dense renumbering: as many entries as there are distinct
    core ids, and none of them empty. *)
Definition densely_renumbered (cpus : list cpu_t.t)
    (core_msrs : list (list msr_t)) : Prop :=
  length core_msrs = size (core_ids cpus)
  /\ Forall (fun msrs => msrs <> []) core_msrs.

(** Programs without a call of [exit]. *)
Definition no_exit {K A} (m : M K A) : Prop :=
  forall k, is_exit (result (m k)) = false.

(** ** Text: a [std::string] as the list of its characters *)

(** [c == ' ' || c == '\t'] *)
Definition is_blank (c : Ascii.ascii) : bool :=
  Ascii.eqb c (Ascii.ascii_of_nat 32) || Ascii.eqb c (Ascii.ascii_of_nat 9).

(** Conversion of a [size_t] to [int], and of an [int] to [size_t]. *)
Definition int_of_size_t (z : Z) : Z := (z + 2 ^ 31) mod 2 ^ 32 - 2 ^ 31.
Definition size_t_of_int (z : Z) : Z := wrap64 z.

(** [std::string::npos] *)
Definition npos : Z := 2 ^ 64 - 1.

(** [s.substr(pos, n)]: throws when [pos] is beyond the end, and stops at
    the end of [s]. *)
Definition substr (s : list Ascii.ascii) (pos n : Z) : outcome (list Ascii.ascii) :=
  if Z.of_nat (length s) <? pos then Throw "basic_string::substr"
  else Ret (take (Z.to_nat (Z.min n (Z.of_nat (length s) - pos)))
                 (drop (Z.to_nat pos) s)).

(** [s[i] == ' ' || s[i] == '\t'] *)
Definition blank_at (s : list Ascii.ascii) (i : Z) : bool :=
  match s !! Z.to_nat i with
  | Some c => is_blank c
  | None => false
  end.

(** [trim], first loop: [start] moves right over blanks.  It runs at most
    [s.length()] times. *)
Fixpoint trim_front (s : list Ascii.ascii) (fuel : nat) (start : Z) : Z :=
  match fuel with
  | O => start
  | S fuel' =>
      if (start <? Z.of_nat (length s)) && blank_at s start
      then trim_front s fuel' (start + 1)
      else start
  end.

(** [trim], second loop: [end] moves left over blanks. *)
Fixpoint trim_back (s : list Ascii.ascii) (fuel : nat) (end_ : Z) : Z :=
  match fuel with
  | O => end_
  | S fuel' =>
      if (0 <=? end_) && blank_at s end_
      then trim_back s fuel' (end_ - 1)
      else end_
  end.

(** [trim]: [end] is an [int], [start] a [size_t]; the length handed to
    [substr] is computed on [size_t]. *)
Definition trim (s : list Ascii.ascii) : outcome (list Ascii.ascii) :=
  let start := trim_front s (length s) 0 in
  let end_ := trim_back s (length s)
                (int_of_size_t (wrap64 (Z.of_nat (length s) - 1))) in
  substr s start (wrap64 (size_t_of_int end_ - start + 1)).

(** [std::getline(in, token, delim)] on the characters not yet read:
    the characters before the first [delim], and what is left after it. *)
Fixpoint getline_from (delim : Ascii.ascii) (rest : list Ascii.ascii)
    : list Ascii.ascii * list Ascii.ascii :=
  match rest with
  | [] => ([], [])
  | c :: rest' =>
      if Ascii.eqb c delim then ([], rest')
      else let '(token, remaining) := getline_from delim rest' in (c :: token, remaining)
  end.

(** [getline] fails when there is nothing left to read. *)
Definition getline (delim : Ascii.ascii) (rest : list Ascii.ascii)
    : option (list Ascii.ascii * list Ascii.ascii) :=
  match rest with
  | [] => None
  | _ => Some (getline_from delim rest)
  end.

(** [split], the loop: every turn reads at least one character. *)
Fixpoint split_loop (delim : Ascii.ascii) (fuel : nat) (rest : list Ascii.ascii)
    (tokens : list (list Ascii.ascii)) : list (list Ascii.ascii) :=
  match fuel with
  | O => tokens
  | S fuel' =>
      match getline delim rest with
      | None => tokens
      | Some (token, rest') => split_loop delim fuel' rest' (tokens ++ [token])
      end
  end.

(** [split] *)
Definition split (s : list Ascii.ascii) (delim : Ascii.ascii) : list (list Ascii.ascii) :=
  split_loop delim (S (length s)) s [].

(** The number of blanks a text starts with. *)
Fixpoint blank_prefix (s : list Ascii.ascii) : nat :=
  match s with
  | c :: s' => if is_blank c then S (blank_prefix s') else O
  | [] => O
  end.

(** A text without the blanks at its two ends. *)
Definition trimmed (s : list Ascii.ascii) : list Ascii.ascii :=
  take (length s - blank_prefix s - blank_prefix (reverse s))
       (drop (blank_prefix s) s).

(** ** The parser of [/proc/cpuinfo] *)

(** A string literal as a [std::string]. *)
Definition text (s : string) : list Ascii.ascii := String.list_ascii_of_string s.

Definition colon : Ascii.ascii := Ascii.ascii_of_nat 58.
Definition newline : Ascii.ascii := Ascii.ascii_of_nat 10.
Definition space : Ascii.ascii := Ascii.ascii_of_nat 32.

(** [s.find(c)] from position [i] on: the position of the first [c],
    [npos] when there is none. *)
Fixpoint find_from (c : Ascii.ascii) (s : list Ascii.ascii) (i : Z) : Z :=
  match s with
  | [] => npos
  | x :: s' => if Ascii.eqb x c then i else find_from c s' (i + 1)
  end.

Definition find (s : list Ascii.ascii) (c : Ascii.ascii) : Z := find_from c s 0.

(** Sequencing of code that may throw and has no other effect. *)
Definition and_then {A B} (o : outcome A) (f : A -> outcome B) : outcome B :=
  match o with
  | Ret a => f a
  | Exit status => Exit status
  | Throw what => Throw what
  | Undefined => Undefined
  end.

(** [cpu_t()]: every member zero or empty. *)
Definition cpu_t_zero : cpu_t.t := cpu_t.mk 0 0 0 0 ∅.

Section Cpuinfo.
(** [std::stoi] is the library's; the parser is modelled for any. *)
Variable stoi : list Ascii.ascii -> outcome Z.

(** [cpuinfo], the body of the loop for one line: the vector and the
    record being filled, after the line. *)
Definition cpuinfo_line (line : list Ascii.ascii) (processors : list cpu_t.t)
    (processor : cpu_t.t) : outcome (list cpu_t.t * cpu_t.t) :=
  if decide (line = []) then Ret (processors ++ [processor], cpu_t_zero)
  else
    let idx := find line colon in
    if idx =? npos then Throw "can't parse /proc/cpuinfo"
    else
      and_then (and_then (substr line 0 idx) trim) (fun key =>
      and_then (and_then (substr line (idx + 1) npos) trim) (fun value =>
        if decide (key = text "core id") then
          and_then (stoi value) (fun v =>
            Ret (processors,
                 cpu_t.mk (cpu_t.id processor) (cpu_t.cpu_family processor)
                          (cpu_t.model processor) v (cpu_t.flags processor)))
        else if decide (key = text "processor") then
          and_then (stoi value) (fun v =>
            Ret (processors,
                 cpu_t.mk v (cpu_t.cpu_family processor)
                          (cpu_t.model processor) (cpu_t.core_id processor)
                          (cpu_t.flags processor)))
        else if decide (key = text "cpu family") then
          and_then (stoi value) (fun v =>
            Ret (processors,
                 cpu_t.mk (cpu_t.id processor) v
                          (cpu_t.model processor) (cpu_t.core_id processor)
                          (cpu_t.flags processor)))
        else if decide (key = text "model") then
          and_then (stoi value) (fun v =>
            Ret (processors,
                 cpu_t.mk (cpu_t.id processor) (cpu_t.cpu_family processor)
                          v (cpu_t.core_id processor) (cpu_t.flags processor)))
        else if decide (key = text "flags") then
          Ret (processors,
               cpu_t.mk (cpu_t.id processor) (cpu_t.cpu_family processor)
                        (cpu_t.model processor) (cpu_t.core_id processor)
                        (fold_left
                           (fun flags flag =>
                              flags ∪ {[ String.string_of_list_ascii flag ]})
                           (split value space) (cpu_t.flags processor)))
        else Ret (processors, processor))).

(** [cpuinfo], the loop: every turn reads a line. *)
Fixpoint cpuinfo_loop (fuel : nat) (rest : list Ascii.ascii)
    (processors : list cpu_t.t) (processor : cpu_t.t)
    : outcome (list cpu_t.t) :=
  match fuel with
  | O => Ret processors
  | S fuel' =>
      match getline newline rest with
      | None => Ret processors
      | Some (line, rest') =>
          and_then (cpuinfo_line line processors processor)
                   (fun st => cpuinfo_loop fuel' rest' st.1 st.2)
      end
  end.

(** [cpuinfo()] on the content of the file, empty when the file cannot be
    opened.  [processor] is declared without an initialiser: its set of
    flags is empty, its integers hold whatever they hold. *)
Definition cpuinfo_parse (content : list Ascii.ascii)
    (id0 family0 model0 core_id0 : Z) : outcome (list cpu_t.t) :=
  cpuinfo_loop (S (length content)) content []
    (cpu_t.mk id0 family0 model0 core_id0 ∅).

(** The lines of a file fed to the body of the loop one after the other. *)
Fixpoint cpuinfo_lines (lines : list (list Ascii.ascii))
    (processors : list cpu_t.t) (processor : cpu_t.t)
    : outcome (list cpu_t.t * cpu_t.t) :=
  match lines with
  | [] => Ret (processors, processor)
  | line :: lines' =>
      and_then (cpuinfo_line line processors processor)
               (fun st => cpuinfo_lines lines' st.1 st.2)
  end.
End Cpuinfo.

(** A [stoi] for running the parser: decimal digits only. *)
Definition digit_value (c : Ascii.ascii) : option Z :=
  let n := Z.of_nat (Ascii.nat_of_ascii c) in
  if (48 <=? n) && (n <=? 57) then Some (n - 48) else None.

Definition stoi_digits (s : list Ascii.ascii) : outcome Z :=
  match s with
  | [] => Throw "stoi"
  | _ =>
      match fold_left (fun acc c =>
                         match acc, digit_value c with
                         | Some a, Some d => Some (10 * a + d)
                         | _, _ => None
                         end) s (Some 0) with
      | Some v => if v <? 2 ^ 31 then Ret v else Throw "stoi"
      | None => Throw "stoi"
      end
  end.

(** ** More vocabulary *)

(** The write that zeroes the counter of event index [i] on core [c]. *)
Definition pmc_zero_write (info : pmc_info_t) (core_msrs : list (list msr_t))
    (c i : Z) : io_event :=
  let n := num_pmc_per_thread info in
  EvPwrite
    (fd (nth (Z.to_nat (i / n)) (nth (Z.to_nat c) core_msrs []) (mk_msr (-1))))
    (le_split 8 0)
    (0xc1 + i mod n)
    8.

Definition is_usleep (e : io_event) : bool :=
  match e with EvUsleep _ => true | _ => false end.

(** The vector of previous counter values has a row of [port_count] values
    for every core. *)
Definition values_shape (n_cores : Z) (values : list (list Z)) : Prop :=
  Z.of_nat (length values) = n_cores
  /\ Forall (fun row => Z.of_nat (length row) = port_count) values.

(** What one turn of the loop does for event index [i] on core [c] when
    the read delivers [current], the value kept from the turn before is
    [previous] and [hz] cycles have passed: the read, and the figure
    printed. *)
Definition tick_events (info : pmc_info_t) (core_msrs : list (list msr_t))
    (hz c i current previous : Z) : list io_event :=
  let n := num_pmc_per_thread info in
  [EvPread
     (fd (nth (Z.to_nat (i / n)) (nth (Z.to_nat c) core_msrs []) (mk_msr (-1))))
     8 (0xc1 + i mod n) (Some (le_split 8 current));
   EvFprintf "%6.2f%%"
     [PrimFloat.mul
        (PrimFloat.div (to_double ((current - previous) mod 2 ^ 64))
                       (to_double hz))
        (to_double 100)]].

(** The same for all event indices of core [c], between the brackets. *)
Definition tick_core_events (info : pmc_info_t) (core_msrs : list (list msr_t))
    (hz : Z) (current : Z -> Z -> Z) (previous : list (list Z)) (c : Z)
    : list io_event :=
  EvFprintf "[" []
    :: concat (map (fun i =>
                      tick_events info core_msrs hz c i (current c i)
                        (nth (Z.to_nat i) (nth (Z.to_nat c) previous []) 0))
                   (seqZ 0 port_count))
    ++ [EvFprintf "] " []].

(** ** More scripted machines and inputs *)

(** A machine without a state: every [open] gives the same descriptor,
    every write and read the same answer, and time stands still. *)
Definition const_machine (eax01 eax0a : Z) (cpus : option (list cpu_t.t))
    (descriptor written : Z) (delivered : option (list byte)) : Machine unit := {|
  cpuid leaf :=
    if leaf =? 0x01 then eax01
    else if leaf =? 0x0a then eax0a
    else 0;
  insn_rdtsc k := ((0, 0), k);
  sys_usleep usec k := k;
  sys_open path k := (descriptor, k);
  sys_pwrite fildes buf offset k := (written, k);
  sys_pread fildes nbyte offset k := (delivered, k);
  proc_cpuinfo := cpus
|}.

(** A supported part with two logical processors on one core, where
    everything succeeds. *)
Definition const_two_threads : Machine unit :=
  const_machine sandy_bridge_eax01 four_counters_eax0a
    (Some [sim_cpu 0 0; sim_cpu 1 0]) 3 8 (Some (le_split 8 0)).

(** A machine that lets nobody open a register file. *)
Definition sim_locked : sim_config :=
  mk_sim_config sandy_bridge_eax01 four_counters_eax0a
    (Some [sim_cpu 0 0; sim_cpu 1 0])
    (fun _ => false) (fun _ _ => 8) (fun _ _ => 8%nat) 1000000 10000.

(** A part of version 3 that reports no general-purpose counter. *)
Definition sim_zero_counters : sim_config :=
  mk_sim_config sandy_bridge_eax01 0x07300003 (Some [sim_cpu 0 0])
    (fun _ => true) (fun _ _ => 8) (fun _ _ => 8%nat) 1000000 10000.

(** A machine whose first logical processor has no [constant_tsc]. *)
Definition sim_no_constant_tsc : sim_config :=
  mk_sim_config sandy_bridge_eax01 four_counters_eax0a
    (Some [cpu_t.mk 0 6 42 0 {[ "fpu" ]}; sim_cpu 1 0])
    (fun _ => true) (fun _ _ => 8) (fun _ _ => 8%nat) 1000000 10000.

(** A machine whose [/proc/cpuinfo] is empty. *)
Definition sim_empty_topology : sim_config :=
  mk_sim_config sandy_bridge_eax01 four_counters_eax0a (Some [])
    (fun _ => true) (fun _ _ => 8) (fun _ _ => 8%nat) 1000000 10000.

(** A topology whose only core id is the largest [int]. *)
Definition sim_last_core_id : sim_config := sim_plain [sim_cpu 0 INT_MAX].

Definition tab : Ascii.ascii := Ascii.ascii_of_nat 9.

(** A line of [/proc/cpuinfo]: the key, a tab, a colon, a space, the
    value. *)
Definition attribute_line (key value : string) : list Ascii.ascii :=
  text key ++ [tab; colon; space] ++ text value.

(** Two logical processors of one core, as [/proc/cpuinfo] shows them. *)
Definition sample_cpuinfo : list Ascii.ascii :=
  concat (map (fun line => line ++ [newline])
    [ attribute_line "processor" "0";
      attribute_line "model name" "Intel(R) Core(TM) i7-2600 CPU @ 3.40GHz";
      attribute_line "core id" "0";
      attribute_line "flags" "fpu constant_tsc";
      [];
      attribute_line "processor" "1";
      attribute_line "core id" "0";
      attribute_line "flags" "fpu constant_tsc";
      [] ]).

(** The same file cut off before its last empty line, and with a line that
    has no colon. *)
Definition broken_cpuinfo : list Ascii.ascii :=
  concat (map (fun line => line ++ [newline])
    [ attribute_line "processor" "0"; text "garbage"; [] ]).

(** * Bit slices *)

Lemma land_shiftr_ones (x lo w : Z) :
  0 <= lo -> 0 <= w ->
  Z.land (Z.shiftr x lo) (Z.ones w) = bit_slice x (lo + w - 1) lo.
Proof.
  intros Hlo Hw. unfold bit_slice.
  rewrite Z.land_ones, Z.shiftr_div_pow2 by lia.
  do 2 f_equal. lia.
Qed.

Lemma bit_slice_range (x hi lo : Z) :
  lo <= hi + 1 -> 0 <= bit_slice x hi lo < 2 ^ (hi - lo + 1).
Proof. intros. unfold bit_slice. apply Z.mod_pos_bound, Z.pow_pos_nonneg; lia. Qed.

Lemma mask8_slice (x lo hi : Z) :
  0 <= lo -> hi = lo + 7 -> Z.land (Z.shiftr x lo) 0xff = bit_slice x hi lo.
Proof.
  intros ? ->. change 0xff with (Z.ones 8).
  rewrite land_shiftr_ones by lia. f_equal. lia.
Qed.

Lemma mask4_slice (x lo hi : Z) :
  0 <= lo -> hi = lo + 3 -> Z.land (Z.shiftr x lo) 0x0f = bit_slice x hi lo.
Proof.
  intros ? ->. change 0x0f with (Z.ones 4).
  rewrite land_shiftr_ones by lia. f_equal. lia.
Qed.

(** * Capability probing *)

(** C4: [pmcinfo] takes the version from bits [7:0], the number of counters
    per logical processor from bits [15:8] and the counter width from bits
    [23:16] of the leaf's output; on [0xa10305] that is 5, 3 and [0xa1]. *)
Theorem pmcinfo_slices (rax : Z) :
  pmcinfo rax
  = {| version_id := bit_slice rax 7 0;
       num_pmc_per_thread := bit_slice rax 15 8;
       pmc_bitwidth := bit_slice rax 23 16 |}
  /\ pmcinfo 0xa10305
     = {| version_id := 5; num_pmc_per_thread := 3; pmc_bitwidth := 0xa1 |}.
Proof.
  split; [|reflexivity].
  unfold pmcinfo.
  rewrite <- (Z.shiftr_0_r rax) at 1.
  rewrite (mask8_slice rax 0 7), (mask8_slice rax 8 15), (mask8_slice rax 16 23) by lia.
  reflexivity.
Qed.

(** C3: the reported family is the base family field, bits [11:8], unless
    that field is [0x0F]; then, and only then, the extended family field,
    bits [27:20], is added to it.  [cpu_family] is a function of the
    instruction's output alone. *)
Theorem cpu_family_rule (rax : Z) :
  cpu_family rax
  = if bit_slice rax 11 8 =? 0x0f
    then bit_slice rax 11 8 + bit_slice rax 27 20
    else bit_slice rax 11 8.
Proof.
  unfold cpu_family.
  rewrite (mask4_slice rax 8 11), (mask8_slice rax 20 27) by lia.
  destruct (bit_slice rax 11 8 =? 15); simpl; lia.
Qed.

(** C9: the reported model is [(extended_model_id << 4) + model_id], with
    [model_id] in bits [7:4] and [extended_model_id] in bits [19:16], when
    the base family field is [0x06] or [0x0F], and [model_id] alone
    otherwise; it is an 8-bit value, and a family-6 part with extended model
    2 and model 10 reports the 42 the gate asks for. *)
Theorem cpu_model_rule (rax : Z) :
  cpu_model rax
  = (if (bit_slice rax 11 8 =? 0x06) || (bit_slice rax 11 8 =? 0x0f)
     then bit_slice rax 19 16 * 2 ^ 4 + bit_slice rax 7 4
     else bit_slice rax 7 4)
  /\ 0 <= cpu_model rax < 2 ^ 8
  /\ cpu_family 0x000206a7 = 6
  /\ cpu_model 0x000206a7 = 42.
Proof.
  assert (Heq : cpu_model rax
    = (if (bit_slice rax 11 8 =? 0x06) || (bit_slice rax 11 8 =? 0x0f)
       then bit_slice rax 19 16 * 2 ^ 4 + bit_slice rax 7 4
       else bit_slice rax 7 4)).
  { unfold cpu_model.
    rewrite (mask4_slice rax 8 11), (mask4_slice rax 4 7), (mask4_slice rax 16 19) by lia.
    rewrite Z.shiftl_mul_pow2 by lia. reflexivity. }
  split; [exact Heq|]. split; [|split; reflexivity].
  rewrite Heq.
  pose proof (bit_slice_range rax 19 16 ltac:(lia)).
  pose proof (bit_slice_range rax 7 4 ltac:(lia)).
  change (2 ^ (19 - 16 + 1)) with 16 in *. change (2 ^ (7 - 4 + 1)) with 16 in *.
  change (2 ^ 4) with 16. change (2 ^ 8) with 256.
  destruct (_ || _); lia.
Qed.

(** * The layout of [pmc_config_t] *)

Lemma pack_fields_cons (w v : Z) (rest : list (Z * Z)) :
  pack_fields ((w, v) :: rest)
  = Z.lor (Z.land v (Z.ones w)) (Z.shiftl (pack_fields rest) w).
Proof. reflexivity. Qed.

Lemma pack_fields_first (w v : Z) (rest : list (Z * Z)) (hi : Z) :
  0 <= w -> hi = w - 1 ->
  bit_slice (pack_fields ((w, v) :: rest)) hi 0 = v mod 2 ^ w.
Proof.
  intros Hw ->. rewrite pack_fields_cons. unfold bit_slice.
  rewrite Z.pow_0_r, Z.div_1_r.
  replace (w - 1 - 0 + 1) with w by lia.
  apply Z.bits_inj'; intros i Hi.
  rewrite !Z.testbit_mod_pow2, Z.lor_spec, Z.land_spec, Z.testbit_ones_nonneg by lia.
  destruct (Z.ltb_spec i w) as [Hlt|Hge]; simpl; [|reflexivity].
  rewrite Z.shiftl_spec_low by lia.
  rewrite andb_true_r, orb_false_r. reflexivity.
Qed.

Lemma pack_fields_high (w v : Z) (rest : list (Z * Z)) (hi lo : Z) :
  0 <= w <= lo -> lo <= hi + 1 ->
  bit_slice (pack_fields ((w, v) :: rest)) hi lo
  = bit_slice (pack_fields rest) (hi - w) (lo - w).
Proof.
  intros Hw Hlo. rewrite pack_fields_cons. unfold bit_slice.
  replace (hi - w - (lo - w) + 1) with (hi - lo + 1) by lia.
  apply Z.bits_inj'; intros i Hi.
  rewrite !Z.testbit_mod_pow2, !Z.div_pow2_bits by lia.
  rewrite Z.lor_spec, Z.land_spec, Z.ones_spec_high, Z.shiftl_spec by lia.
  rewrite andb_false_r. simpl. do 2 f_equal. lia.
Qed.

Lemma pack_fields_nonneg (fs : list (Z * Z)) :
  Forall (fun f => 0 <= f.1) fs -> 0 <= pack_fields fs.
Proof.
  induction 1 as [|[w v] rest Hw _ IH]; [simpl; lia|].
  rewrite pack_fields_cons. apply Z.lor_nonneg. split.
  - apply Z.land_nonneg. right. rewrite Z.ones_equiv.
    pose proof (Z.pow_pos_nonneg 2 w). simpl in Hw. lia.
  - apply Z.shiftl_nonneg. exact IH.
Qed.

Lemma pack_fields_bound (fs : list (Z * Z)) :
  Forall (fun f => 0 <= f.1) fs ->
  pack_fields fs < 2 ^ foldr (fun f acc => f.1 + acc) 0 fs.
Proof.
  induction 1 as [|[w v] rest Hw Hrest IH]; [simpl; lia|].
  rewrite pack_fields_cons. cbn [foldr fst]. simpl in Hw.
  assert (Hs : 0 <= foldr (fun f acc => f.1 + acc) 0 rest).
  { clear IH. induction Hrest; simpl; lia. }
  pose proof (pack_fields_nonneg rest Hrest) as Hp.
  rewrite Z.or_to_plus.
  - rewrite Z.land_ones, Z.shiftl_mul_pow2 by lia.
    pose proof (Z.mod_pos_bound v (2 ^ w) ltac:(apply Z.pow_pos_nonneg; lia)).
    rewrite Z.pow_add_r by lia. nia.
  - apply Z.bits_inj'; intros i Hi.
    rewrite !Z.land_spec, Z.testbit_ones_nonneg, Z.testbit_0_l by lia.
    destruct (Z.ltb_spec i w) as [Hlt|Hge].
    + rewrite Z.shiftl_spec_low by lia. apply andb_false_r.
    + rewrite andb_false_r. reflexivity.
Qed.

Lemma b2z_mod_2 (b : bool) : Z.b2z b mod 2 ^ 1 = Z.b2z b.
Proof. destruct b; reflexivity. Qed.

Ltac field_slice :=
  unfold pmc_config_to_u64, pmc_config_fields;
  repeat (rewrite pack_fields_high by lia; simpl (_ - _));
  rewrite pack_fields_first by lia;
  rewrite ?b2z_mod_2; reflexivity.

Lemma port_config_value (port : pmc_event_type_t) :
  pmc_config_to_u64 (port_config port)
  = evtsel_value (Z.land (event port) 0xff) (Z.land (umask port) 0xff).
Proof.
  unfold pmc_config_to_u64, pmc_config_fields, port_config, evtsel_value.
  cbn [event_select unit_mask user_mode operating_system_mode edge_detect
       pin_control interrupt_enable any_thread enable_counters
       invert_counter_mask counter_mask __reserved pmc_config_zero].
  rewrite (pack_fields_cons 8), (pack_fields_cons 8).
  match goal with
  | |- context [pack_fields ?l] =>
      let v := eval vm_compute in (pack_fields l) in
      change (pack_fields l) with v
  end.
  rewrite Z.shiftl_lor, Z.shiftl_shiftl by lia.
  rewrite <- !Z.land_assoc.
  reflexivity.
Qed.

(** C10: [pmc_config_t] is 8 bytes: event select in bits [7:0], unit mask
    in [15:8], user mode in bit 16, kernel mode in 17, edge detect in 18,
    pin control in 19, interrupt enable in 20, any thread in 21, enable in
    22, invert in 23, counter mask in [31:24], the upper 32 bits reserved.
    The image written for an event with code E and unit mask U is
    [E | (U << 8) | (1 << 16) | (1 << 17) | (1 << 21) | (1 << 22)]. *)
Theorem pmc_config_layout (c : pmc_config_t) (port : pmc_event_type_t) :
  pmc_config_bits = 8 * 8
  /\ 0 <= pmc_config_to_u64 c < 2 ^ 64
  /\ bit_slice (pmc_config_to_u64 c) 7 0 = event_select c mod 2 ^ 8
  /\ bit_slice (pmc_config_to_u64 c) 15 8 = unit_mask c mod 2 ^ 8
  /\ bit_slice (pmc_config_to_u64 c) 16 16 = Z.b2z (user_mode c)
  /\ bit_slice (pmc_config_to_u64 c) 17 17 = Z.b2z (operating_system_mode c)
  /\ bit_slice (pmc_config_to_u64 c) 18 18 = Z.b2z (edge_detect c)
  /\ bit_slice (pmc_config_to_u64 c) 19 19 = Z.b2z (pin_control c)
  /\ bit_slice (pmc_config_to_u64 c) 20 20 = Z.b2z (interrupt_enable c)
  /\ bit_slice (pmc_config_to_u64 c) 21 21 = Z.b2z (any_thread c)
  /\ bit_slice (pmc_config_to_u64 c) 22 22 = Z.b2z (enable_counters c)
  /\ bit_slice (pmc_config_to_u64 c) 23 23 = Z.b2z (invert_counter_mask c)
  /\ bit_slice (pmc_config_to_u64 c) 31 24 = counter_mask c mod 2 ^ 8
  /\ bit_slice (pmc_config_to_u64 c) 63 32 = __reserved c mod 2 ^ 32
  /\ pmc_config_to_u64 (port_config port)
     = evtsel_value (event port mod 2 ^ 8) (umask port mod 2 ^ 8)
  /\ Forall (fun p => pmc_config_to_u64 (port_config p)
                      = evtsel_value (event p) (umask p))
       UOPS_DISPATCHED_PORT.
Proof.
  split; [reflexivity|].
  split.
  { assert (Hw : Forall (fun f : Z * Z => 0 <= f.1) (pmc_config_fields c)).
    { unfold pmc_config_fields. repeat constructor; simpl; lia. }
    split; [apply pack_fields_nonneg, Hw|].
    apply (pack_fields_bound _ Hw). }
  do 12 (split; [field_slice|]).
  split.
  - rewrite port_config_value.
    change 0xff with (Z.ones 8). rewrite !Z.land_ones by lia. reflexivity.
  - repeat constructor.
Qed.

(** * Runs *)

Section Runs.
Context {K : Type}.

Lemma bind_Ret {A B} (m : M K A) (f : A -> M K B) k t k1 a :
  m k = (t, k1, Ret a) ->
  bind m f k = (t ++ trace (f a k1), final (f a k1), result (f a k1)).
Proof.
  intros Hm. unfold bind. rewrite Hm.
  destruct (f a k1) as [[t2 k2] o]. reflexivity.
Qed.

Lemma bind_Exit {A B} (m : M K A) (f : A -> M K B) k t k1 s :
  m k = (t, k1, Exit s) -> bind m f k = (t, k1, Exit s).
Proof. intros Hm. unfold bind. rewrite Hm. reflexivity. Qed.

Lemma bind_Undefined {A B} (m : M K A) (f : A -> M K B) k t k1 :
  m k = (t, k1, Undefined) -> bind m f k = (t, k1, Undefined).
Proof. intros Hm. unfold bind. rewrite Hm. reflexivity. Qed.

Lemma run_eta {A} (r : list io_event * K * outcome A) :
  r = (trace r, final r, result r).
Proof. destruct r as [[t k] o]. reflexivity. Qed.

(** The trace of a sequence starts with the trace of its first part. *)
Lemma trace_bind {A B} (m : M K A) (f : A -> M K B) k :
  trace (bind m f k)
  = trace (m k)
    ++ match result (m k) with
       | Ret a => trace (f a (final (m k)))
       | _ => []
       end.
Proof.
  unfold bind, trace, final, result.
  destruct (m k) as [[t k1] [a|s|w|]]; simpl;
    rewrite ?app_nil_r; try reflexivity.
  destruct (f a k1) as [[t2 k2] o]. reflexivity.
Qed.

(** A sequence exits if its first part does, or if that part returns and
    what follows exits. *)
Lemma is_exit_bind {A B} (m : M K A) (f : A -> M K B) k :
  is_exit (result (bind m f k))
  = match result (m k) with
    | Ret a => is_exit (result (f a (final (m k))))
    | o => is_exit o
    end.
Proof.
  unfold bind, final, result.
  destruct (m k) as [[t k1] [a|s|w|]]; simpl; try reflexivity.
  destruct (f a k1) as [[t2 k2] o]. reflexivity.
Qed.

Lemma no_exit_bind {A B} (m : M K A) (f : A -> M K B) :
  no_exit m -> (forall a, no_exit (f a)) -> no_exit (bind m f).
Proof.
  intros Hm Hf k. rewrite is_exit_bind.
  specialize (Hm k). destruct (result (m k)); auto. apply Hf.
Qed.

Lemma no_exit_ret {A} (a : A) : no_exit (ret (K:=K) a).
Proof. intros k. reflexivity. Qed.

Lemma no_exit_undefined {A} : no_exit (undefined (K:=K) (A:=A)).
Proof. intros k. reflexivity. Qed.

Lemma no_exit_emit e : no_exit (emit (K:=K) e).
Proof. intros k. reflexivity. Qed.

Lemma no_exit_index {A} (v : list A) i : no_exit (index (K:=K) v i).
Proof.
  intros k. unfold index.
  destruct (i <? 0); [reflexivity|]. destruct (v !! Z.to_nat i); reflexivity.
Qed.

Lemma no_exit_udiv a b : no_exit (udiv (K:=K) a b).
Proof. intros k. unfold udiv. destruct (b =? 0); reflexivity. Qed.

Lemma no_exit_umod a b : no_exit (umod (K:=K) a b).
Proof. intros k. unfold umod. destruct (b =? 0); reflexivity. Qed.

Lemma no_exit_for_each {A} (l : list A) (body : A -> M K unit) :
  (forall x, no_exit (body x)) -> no_exit (for_each l body).
Proof.
  intros Hb. induction l as [|x l IH]; simpl.
  - apply no_exit_ret.
  - apply no_exit_bind; auto.
Qed.

Lemma no_exit_fold_each {A S} (l : list A) (body : A -> S -> M K S) s :
  (forall x s', no_exit (body x s')) -> no_exit (fold_each l s body).
Proof.
  intros Hb. revert s. induction l as [|x l IH]; intros s; simpl.
  - apply no_exit_ret.
  - apply no_exit_bind; auto.
Qed.

(** A loop whose every turn emits its own events and returns. *)
Lemma for_each_run {A} (l : list A) (body : A -> M K unit)
    (out : A -> list io_event) :
  (forall x, x ∈ l -> forall k, exists k', body x k = (out x, k', Ret tt)) ->
  forall k, exists k', for_each l body k = (concat (map out l), k', Ret tt).
Proof.
  induction l as [|x l IH]; intros Hb k; simpl.
  - exists k. reflexivity.
  - destruct (Hb x ltac:(left) k) as [k1 Hx].
    destruct (IH (fun y Hy => Hb y ltac:(right; exact Hy)) k1) as [k2 Hl].
    exists k2. rewrite (bind_Ret _ _ _ _ _ _ Hx), Hl. reflexivity.
Qed.
End Runs.

(** * The MSR channel *)

Section Channel.
Context {K : Type} `{Machine K}.

Lemma wrmsr_run (m : msr_t) (reg val : Z) (k : K) :
  wrmsr m reg val k
  = ([EvPwrite (fd m) (le_split 8 val) reg (sys_pwrite (fd m) (le_split 8 val) reg k).1],
     (sys_pwrite (fd m) (le_split 8 val) reg k).2,
     if (sys_pwrite (fd m) (le_split 8 val) reg k).1 =? 8
     then Ret tt else Throw "failed write").
Proof.
  unfold wrmsr. destruct (sys_pwrite _ _ _ _) as [r k']. simpl.
  destruct (r =? 8); reflexivity.
Qed.

Lemma rdmsr_run (m : msr_t) (reg : Z) (k : K) :
  rdmsr m reg k
  = ([EvPread (fd m) 8 reg (sys_pread (fd m) 8 reg k).1],
     (sys_pread (fd m) 8 reg k).2,
     if pread_ret (sys_pread (fd m) 8 reg k).1 =? 8
     then Ret (le_combine (default [] (sys_pread (fd m) 8 reg k).1))
     else Throw "failed read").
Proof.
  unfold rdmsr. destruct (sys_pread _ _ _ _) as [r k']. simpl.
  destruct (pread_ret r =? 8); reflexivity.
Qed.

Lemma le_combine_range (bs : list byte) :
  0 <= le_combine bs < 2 ^ (8 * Z.of_nat (length bs)).
Proof.
  rewrite <- (split_le_combine bs) at 1 2.
  rewrite le_combine_split.
  replace (Z.of_nat (length bs) * 8) with (8 * Z.of_nat (length bs)) by lia.
  apply Z.mod_pos_bound, Z.pow_pos_nonneg; lia.
Qed.

(** C8: [wrmsr] fails exactly when [pwrite] takes fewer than the 8 bytes,
    and [rdmsr] exactly when [pread] delivers fewer than 8; a [wrmsr] that
    succeeds has handed over the 8 bytes of the value at the register's
    offset, a [rdmsr] that succeeds returns the value of the 8 bytes
    delivered. *)
Theorem msr_transfer (m : msr_t) (reg val : Z) (k : K) :
  let w := sys_pwrite (fd m) (le_split 8 val) reg k in
  let r := sys_pread (fd m) 8 reg k in
  w.1 <= 8 -> pread_ret r.1 <= 8 ->
  (result (wrmsr m reg val k) = Throw "failed write" <-> w.1 < 8)
  /\ (result (wrmsr m reg val k) = Ret tt <-> w.1 = 8)
  /\ (exists buf,
        trace (wrmsr m reg val k) = [EvPwrite (fd m) buf reg w.1]
        /\ length buf = 8%nat /\ le_combine buf = val mod 2 ^ 64)
  /\ (result (rdmsr m reg k) = Throw "failed read" <-> pread_ret r.1 < 8)
  /\ ((exists v, result (rdmsr m reg k) = Ret v) <-> pread_ret r.1 = 8)
  /\ (forall v, result (rdmsr m reg k) = Ret v ->
        exists bs, r.1 = Some bs /\ length bs = 8%nat
                   /\ v = le_combine bs /\ 0 <= v < 2 ^ 64)
  /\ trace (rdmsr m reg k) = [EvPread (fd m) 8 reg r.1].
Proof.
  intros w r Hw Hr.
  rewrite wrmsr_run, rdmsr_run. fold w r. unfold result, trace. simpl.
  repeat split.
  - destruct (Z.eqb_spec w.1 8); [discriminate|lia].
  - destruct (Z.eqb_spec w.1 8); [lia|reflexivity].
  - destruct (Z.eqb_spec w.1 8); [auto|discriminate].
  - intros ->. reflexivity.
  - exists (le_split 8 val). split; [reflexivity|]. split.
    + apply length_le_split.
    + apply le_combine_split.
  - destruct (Z.eqb_spec (pread_ret r.1) 8); [discriminate|lia].
  - destruct (Z.eqb_spec (pread_ret r.1) 8); [lia|reflexivity].
  - intros [v Hv]. destruct (Z.eqb_spec (pread_ret r.1) 8); [auto|discriminate].
  - intros ->. eexists. reflexivity.
  - intros v Hv. destruct (Z.eqb_spec (pread_ret r.1) 8) as [E|E]; [|discriminate].
    injection Hv as <-.
    destruct r.1 as [bs|]; simpl in E; [|lia].
    exists bs. assert (Hl : length bs = 8%nat) by lia.
    repeat split; auto.
    + apply le_combine_range.
    + pose proof (le_combine_range bs) as Hb. rewrite Hl in Hb. apply Hb.
Qed.
End Channel.

(** * The compatibility gate *)

Section Gate.
Context {K : Type} `{Machine K}.

Lemma main_probe_run (k : K) :
  main_probe k = (trace (main_probe k), k, Ret (pmcinfo (cpuid 0x0a))).
Proof. reflexivity. Qed.

Lemma main_probe_stderr (k : K) :
  forallb is_stderr (trace (main_probe k)) = true.
Proof. reflexivity. Qed.

Lemma supported_dec :
  supported
  <-> (version_id (pmcinfo (cpuid 0x0a)) <? 3)
      || negb (cpu_family (cpuid 0x01) =? 6)
      || negb (cpu_model (cpuid 0x01) =? 42) = false.
Proof.
  unfold supported.
  rewrite !orb_false_iff, !negb_false_iff, Z.ltb_ge, !Z.eqb_eq. tauto.
Qed.

Lemma main_gate_pass (k : K) :
  supported -> main_gate (pmcinfo (cpuid 0x0a)) k = ([], k, Ret tt).
Proof.
  intros Hs. apply supported_dec in Hs. unfold main_gate. rewrite Hs. reflexivity.
Qed.

Lemma main_gate_fail (k : K) :
  ~ supported ->
  main_gate (pmcinfo (cpuid 0x0a)) k
  = ([EvStderr unsupported_message], k, Exit EXIT_FAILURE).
Proof.
  intros Hs. rewrite supported_dec in Hs. unfold main_gate.
  destruct (_ || _ || _); [reflexivity|]. congruence.
Qed.

(** C5: the program gets past the gate exactly when the PMC version is at
    least 3 and the part is family 6, model 42; otherwise it prints a
    message with the family and the model it found and exits with a
    non-zero status, having done nothing but print. *)
Theorem compatibility_gate (n : nat) (k : K) :
  (result (main_gate (pmcinfo (cpuid 0x0a)) k) = Ret tt <-> supported)
  /\ (~ supported ->
      main n k
      = (trace (main_probe k)
           ++ [EvStderr ("Sorry your CPU is not supported yet: family = "
                           +:+ pretty (cpu_family (cpuid 0x01))
                           +:+ ", model = "
                           +:+ pretty (cpu_model (cpuid 0x01)) +:+ endl)],
         k, Exit EXIT_FAILURE)
      /\ forallb is_stderr (trace (main n k)) = true)
  /\ EXIT_FAILURE <> 0.
Proof.
  split; [|split; [|discriminate]].
  - split.
    + intros Hr. apply supported_dec. revert Hr. unfold main_gate.
      destruct (_ || _ || _); [discriminate|reflexivity].
    + intros Hs. rewrite (main_gate_pass k Hs). reflexivity.
  - intros Hs.
    assert (Hrun : main n k
      = (trace (main_probe k) ++ [EvStderr unsupported_message], k, Exit EXIT_FAILURE)).
    { unfold main, main_startup.
      apply bind_Exit.
      rewrite (bind_Ret _ _ _ _ _ _ (main_probe_run k)).
      rewrite (bind_Exit _ _ _ _ _ _ (main_gate_fail k Hs)). reflexivity. }
    split; [exact Hrun|].
    rewrite Hrun.
    change (forallb is_stderr
              (trace (main_probe k) ++ [EvStderr unsupported_message]) = true).
    rewrite forallb_app, main_probe_stderr. reflexivity.
Qed.
End Gate.

(** One step of a sequence whose first part returns. *)
Lemma bind_step {K A B} (m : M K A) (f : A -> M K B) k t k1 a t2 k2 o T :
  m k = (t, k1, Ret a) -> T = t ++ t2 -> f a k1 = (t2, k2, o) ->
  bind m f k = (T, k2, o).
Proof.
  intros Hm -> Hf. rewrite (bind_Ret _ _ _ _ _ _ Hm), Hf. reflexivity.
Qed.

Ltac run_step tac := eapply bind_step; [tac | reflexivity | cbv beta].

(** * Loop bodies *)

Section Bodies.
Context {K : Type} `{Machine K}.

Lemma index_run {A} (v : list A) (i : Z) (x : A) (k : K) :
  0 <= i -> v !! Z.to_nat i = Some x -> index v i k = ([], k, Ret x).
Proof.
  intros Hi Hx. unfold index.
  destruct (Z.ltb_spec i 0); [lia|]. rewrite Hx. reflexivity.
Qed.

Lemma index_out_of_range {A} (v : list A) (i : Z) (k : K) :
  Z.of_nat (length v) <= i -> index v i k = ([], k, Undefined).
Proof.
  intros Hi. unfold index.
  destruct (Z.ltb_spec i 0); [reflexivity|].
  rewrite lookup_ge_None_2 by lia. reflexivity.
Qed.

Lemma udiv_run (a b : Z) (k : K) : b <> 0 -> udiv a b k = ([], k, Ret (a / b)).
Proof. intros Hb. unfold udiv. destruct (Z.eqb_spec b 0); [lia|reflexivity]. Qed.

Lemma umod_run (a b : Z) (k : K) : b <> 0 -> umod a b k = ([], k, Ret (a mod b)).
Proof. intros Hb. unfold umod. destruct (Z.eqb_spec b 0); [lia|reflexivity]. Qed.

Lemma wrmsr_accepted (m : msr_t) (reg val : Z) (k : K) :
  (sys_pwrite (fd m) (le_split 8 val) reg k).1 = 8 ->
  wrmsr m reg val k
  = ([EvPwrite (fd m) (le_split 8 val) reg 8],
     (sys_pwrite (fd m) (le_split 8 val) reg k).2, Ret tt).
Proof. intros Hw. rewrite wrmsr_run, Hw. reflexivity. Qed.

Lemma rdmsr_delivered (m : msr_t) (reg v : Z) (k k' : K) :
  0 <= v < 2 ^ 64 ->
  sys_pread (fd m) 8 reg k = (Some (le_split 8 v), k') ->
  rdmsr m reg k = ([EvPread (fd m) 8 reg (Some (le_split 8 v))], k', Ret v).
Proof.
  intros Hv Hr. rewrite rdmsr_run, Hr. cbn [fst snd pread_ret default].
  rewrite length_le_split. change (Z.of_nat 8 =? 8) with true. cbv iota.
  unfold id. rewrite le_combine_split, Z.mod_small by (simpl; lia).
  reflexivity.
Qed.


(** The body of the inner loop of a turn, on a machine whose read delivers
    [current]. *)
Lemma tick_port_run (info : pmc_info_t) (core_msrs : list (list msr_t))
    (hz core_id i : Z) (values : list (list Z)) (k k' : K)
    (msrs : list msr_t) (msr : msr_t) (reg : Z) (row : list Z)
    (previous current : Z) :
  0 < num_pmc_per_thread info -> 0 <= core_id -> 0 <= i ->
  core_msrs !! Z.to_nat core_id = Some msrs ->
  msrs !! Z.to_nat (i / num_pmc_per_thread info) = Some msr ->
  IA32_PMC !! Z.to_nat (i mod num_pmc_per_thread info) = Some reg ->
  values !! Z.to_nat core_id = Some row ->
  row !! Z.to_nat i = Some previous ->
  0 <= current < 2 ^ 64 ->
  sys_pread (fd msr) 8 reg k = (Some (le_split 8 current), k') ->
  tick_port info core_msrs hz core_id i values k
  = ([EvPread (fd msr) 8 reg (Some (le_split 8 current));
      EvFprintf "%6.2f%%"
        [PrimFloat.mul
           (PrimFloat.div (to_double ((current - previous) mod 2 ^ 64))
                          (to_double hz))
           (to_double 100)]],
     k',
     Ret (<[Z.to_nat core_id := <[Z.to_nat i := current]> row]> values)).
Proof.
  intros Hn Hc Hi Hmsrs Hmsr Hreg Hrow Hprev Hcur Hread.
  assert (Hdiv : 0 <= i / num_pmc_per_thread info) by (apply Z.div_pos; lia).
  assert (Hmod : 0 <= i mod num_pmc_per_thread info) by (apply Z.mod_pos_bound; lia).
  unfold tick_port.
  run_step ltac:(apply udiv_run; lia).
  run_step ltac:(apply umod_run; lia).
  run_step ltac:(apply index_run; eassumption).
  run_step ltac:(apply index_run; eassumption).
  run_step ltac:(apply index_run; eassumption).
  run_step ltac:(apply rdmsr_delivered; eassumption).
  run_step ltac:(apply index_run; eassumption).
  run_step ltac:(apply index_run; eassumption).
  reflexivity.
Qed.

(** Unsigned subtraction: the difference of two 64-bit values is a count,
    and the right one also when the second has gone once round [2^64]. *)
Lemma delta_range (current previous : Z) :
  0 <= (current - previous) mod 2 ^ 64 < 2 ^ 64.
Proof. apply Z.mod_pos_bound. lia. Qed.

Lemma delta_wrapped (current previous : Z) :
  0 <= previous < 2 ^ 64 -> 0 <= current < 2 ^ 64 -> current < previous ->
  (current - previous) mod 2 ^ 64 = current + 2 ^ 64 - previous.
Proof.
  intros Hp Hc Hlt.
  replace (current - previous) with ((current + 2 ^ 64 - previous) + (-1) * 2 ^ 64) by lia.
  rewrite Z.mod_add by lia. apply Z.mod_small. lia.
Qed.

Lemma delta_count (current previous count : Z) :
  0 <= count < 2 ^ 64 -> current = (previous + count) mod 2 ^ 64 ->
  (current - previous) mod 2 ^ 64 = count.
Proof.
  intros Hcount ->. rewrite Zminus_mod_idemp_l.
  replace (previous + count - previous) with count by lia.
  apply Z.mod_small. lia.
Qed.

Lemma lookup_nth {A} (l : list A) (i : nat) (d : A) :
  (i < length l)%nat -> l !! i = Some (nth i l d).
Proof.
  intros Hi. destruct (lookup_lt_is_Some_2 l i Hi) as [x Hx].
  rewrite Hx. f_equal. symmetry. apply nth_lookup_Some, Hx.
Qed.

Lemma concat_map_singleton {A B} (f : A -> B) (l : list A) :
  concat (map (fun x => [f x]) l) = map f l.
Proof. induction l as [|x l IH]; simpl; [|rewrite IH]; reflexivity. Qed.

Lemma length_concat_uniform {A B} (g : A -> list B) (l : list A) (n : nat) :
  (forall x, length (g x) = n) ->
  length (concat (map g l)) = (length l * n)%nat.
Proof.
  intros Hg. induction l as [|x l IH]; simpl; [reflexivity|].
  rewrite length_app, Hg, IH. reflexivity.
Qed.

Lemma perfevtsel_slot (j : Z) :
  0 <= j < 8 -> IA32_PERFEVTSEL !! Z.to_nat j = Some (0x186 + j).
Proof.
  intros Hj.
  assert (Hc : j = 0 \/ j = 1 \/ j = 2 \/ j = 3 \/ j = 4 \/ j = 5 \/ j = 6 \/ j = 7) by lia.
  repeat (destruct Hc as [->|Hc]; [reflexivity|]). subst j. reflexivity.
Qed.

Lemma table_port_value (i : Z) :
  0 <= i < port_count ->
  let port := nth (Z.to_nat i) UOPS_DISPATCHED_PORT (mk_pmc_event_type 0 0) in
  pmc_config_to_u64 (port_config port) = evtsel_value (event port) (umask port).
Proof.
  intros Hi.
  assert (Hc : i = 0 \/ i = 1 \/ i = 2 \/ i = 3 \/ i = 4 \/ i = 5)
    by (unfold port_count in Hi; simpl in Hi; lia).
  repeat (destruct Hc as [->|Hc]; [reflexivity|]). subst i. reflexivity.
Qed.

Lemma configure_port_run (info : pmc_info_t) (core_msrs : list (list msr_t))
    (c i : Z) (k : K) :
  0 < num_pmc_per_thread info ->
  0 <= c < Z.of_nat (length core_msrs) ->
  0 <= i < port_count ->
  i / num_pmc_per_thread info
    < Z.of_nat (length (nth (Z.to_nat c) core_msrs [])) ->
  Forall (Forall (fun m => forall buf offset k0,
                  (sys_pwrite (fd m) buf offset k0).1 = 8)) core_msrs ->
exists k',
    configure_port info core_msrs c i k
    = ([evtsel_write info core_msrs c i], k', Ret tt).
Proof.
  intros Hn Hc Hi Hfit Hacc.
  set (n := num_pmc_per_thread info) in *.
  assert (Hdiv : 0 <= i / n) by (apply Z.div_pos; lia).
  assert (Hmod : 0 <= i mod n < n) by (apply Z.mod_pos_bound; lia).
  assert (Hmodi : i mod n <= i) by (apply Z.mod_le; lia).
  assert (Hpc : port_count = 6) by reflexivity.
  eexists. unfold configure_port. fold n.
  run_step ltac:(apply udiv_run; lia).
  run_step ltac:(apply umod_run; lia).
  run_step ltac:(apply index_run; [lia|apply (lookup_nth _ _ (mk_pmc_event_type 0 0));
                                      change (length UOPS_DISPATCHED_PORT) with 6%nat; lia]).
  run_step ltac:(apply index_run; [lia|apply (lookup_nth _ _ []); lia]).
  run_step ltac:(apply index_run; [lia|apply (lookup_nth _ _ (mk_msr (-1))); lia]).
  run_step ltac:(apply index_run; [lia|apply perfevtsel_slot; lia]).
  rewrite wrmsr_accepted.
2:{ rewrite (Forall_nth _ []) in Hacc.
    specialize (Hacc (Z.to_nat c) ltac:(lia)).
    rewrite (Forall_nth _ (mk_msr (-1))) in Hacc.
    apply (Hacc (Z.to_nat (i / n))). lia. }
  rewrite table_port_value by lia.
  reflexivity.
Qed.

(** C6: configure writes, for every core and every event index i, once to
    the event-select register of slot [i mod n] on the logical processor
    at offset [i / n], the image that has the event code and unit mask of
    the i-th definition, the user-mode, kernel-mode, any-thread and enable
    bits, and nothing else. *)
Theorem configure_writes (info : pmc_info_t) (n_cores : Z)
    (core_msrs : list (list msr_t)) (k : K) :
  0 < num_pmc_per_thread info ->
  n_cores = Z.of_nat (length core_msrs) ->
  Forall (fun msrs => (port_count - 1) / num_pmc_per_thread info
                      < Z.of_nat (length msrs)) core_msrs ->
  Forall (Forall (fun m => forall buf offset k0,
                  (sys_pwrite (fd m) buf offset k0).1 = 8)) core_msrs ->
let writes :=
    concat (map (fun c => map (evtsel_write info core_msrs c) (seqZ 0 port_count))
                (seqZ 0 n_cores)) in
  trace (main_configure info n_cores core_msrs k) = writes
/\ result (main_configure info n_cores core_msrs k) = Ret tt
/\ Z.of_nat (length writes) = n_cores * port_count
/\ Forall (fun port =>
     let v := evtsel_value (event port) (umask port) in
     bit_slice v 7 0 = event port /\ bit_slice v 15 8 = umask port
     /\ bit_slice v 16 16 = 1 /\ bit_slice v 17 17 = 1
     /\ bit_slice v 18 18 = 0 /\ bit_slice v 19 19 = 0
     /\ bit_slice v 20 20 = 0 /\ bit_slice v 21 21 = 1
     /\ bit_slice v 22 22 = 1 /\ bit_slice v 23 23 = 0
     /\ bit_slice v 31 24 = 0 /\ bit_slice v 63 32 = 0)
     UOPS_DISPATCHED_PORT.
Proof.
intros Hn Hcores Hfit Hacc writes.
assert (Himage : Forall (fun port =>
     let v := evtsel_value (event port) (umask port) in
     bit_slice v 7 0 = event port /\ bit_slice v 15 8 = umask port
     /\ bit_slice v 16 16 = 1 /\ bit_slice v 17 17 = 1
     /\ bit_slice v 18 18 = 0 /\ bit_slice v 19 19 = 0
     /\ bit_slice v 20 20 = 0 /\ bit_slice v 21 21 = 1
     /\ bit_slice v 22 22 = 1 /\ bit_slice v 23 23 = 0
     /\ bit_slice v 31 24 = 0 /\ bit_slice v 63 32 = 0)
     UOPS_DISPATCHED_PORT)
  by (repeat constructor).
  assert (Hrun : exists k', main_configure info n_cores core_msrs k = (writes, k', Ret tt)).
  { unfold main_configure, writes.
    apply for_each_run. intros c Hc k0.
    apply elem_of_seqZ in Hc.
    rewrite <- concat_map_singleton.
    apply for_each_run. intros i Hi k1.
    apply elem_of_seqZ in Hi.
    apply configure_port_run; auto; try lia.
    assert (Hlen : (Z.to_nat c < length core_msrs)%nat) by lia.
    rewrite Forall_forall in Hfit.
    specialize (Hfit (nth (Z.to_nat c) core_msrs [])
                  ltac:(apply list_elem_of_In, nth_In, Hlen)).
    simpl in Hfit.
    assert (i / num_pmc_per_thread info <= (port_count - 1) / num_pmc_per_thread info)
      by (apply Z.div_le_mono; lia).
    lia. }
  destruct Hrun as [k' Hrun]. rewrite Hrun.
  split; [reflexivity|]. split; [reflexivity|]. split; [|exact Himage].
unfold writes.
rewrite (length_concat_uniform _ _ (Z.to_nat port_count)).
  - rewrite length_seqZ. unfold port_count. lia.
  - intros c. rewrite length_map, length_seqZ. reflexivity.
Qed.
End Bodies.

(** * The table of cores *)

Section Cores.
Context {K : Type} `{Machine K}.

Lemma fold_max_ge (cpus : list cpu_t.t) (a : Z) :
  a <= fold_left (fun a b => Z.max a (cpu_t.core_id b)) cpus a.
Proof.
  revert a. induction cpus as [|cpu cpus IH]; intros a; simpl; [lia|].
  specialize (IH (Z.max a (cpu_t.core_id cpu))). lia.
Qed.

Lemma fold_max_bound (cpus : list cpu_t.t) (a : Z) (cpu : cpu_t.t) :
  cpu ∈ cpus ->
  cpu_t.core_id cpu <= fold_left (fun a b => Z.max a (cpu_t.core_id b)) cpus a.
Proof.
  revert a. induction cpus as [|x cpus IH]; intros a Hin; simpl.
  - inversion Hin.
  - apply elem_of_cons in Hin as [->|Hin].
    + pose proof (fold_max_ge cpus (Z.max a (cpu_t.core_id x))). lia.
    + apply IH, Hin.
Qed.

Lemma fold_max_attained (cpus : list cpu_t.t) (a : Z) :
  fold_left (fun a b => Z.max a (cpu_t.core_id b)) cpus a = a
  \/ exists cpu, cpu ∈ cpus
       /\ fold_left (fun a b => Z.max a (cpu_t.core_id b)) cpus a = cpu_t.core_id cpu.
Proof.
  revert a. induction cpus as [|x cpus IH]; intros a; simpl; [left; reflexivity|].
  destruct (IH (Z.max a (cpu_t.core_id x))) as [E|[cpu [Hin E]]].
  - rewrite E. destruct (Z.max_spec a (cpu_t.core_id x)) as [[_ ->]|[_ ->]].
    + right. exists x. split; [left|reflexivity].
    + left. reflexivity.
  - right. exists cpu. split; [right; exact Hin|exact E].
Qed.

Lemma max_core_id_bound (cpus : list cpu_t.t) (cpu : cpu_t.t) :
  cpu ∈ cpus -> cpu_t.core_id cpu < max_core_id cpus + 1.
Proof. intros Hin. unfold max_core_id. pose proof (fold_max_bound cpus 0 cpu Hin). lia. Qed.

Lemma max_core_id_pos (cpus : list cpu_t.t) : 1 <= max_core_id cpus + 1.
Proof. unfold max_core_id. pose proof (fold_max_ge cpus 0). lia. Qed.

Lemma msr_open_run (path : string) (k : K) :
  msr_open path k = ([EvOpen path (sys_open path k).1], (sys_open path k).2,
                     Ret (mk_msr (sys_open path k).1)).
Proof. unfold msr_open. destruct (sys_open path k). reflexivity. Qed.

Lemma members_cons (cpu : cpu_t.t) (cpus : list cpu_t.t) (c : Z) :
  length (members (cpu :: cpus) c)
  = ((if decide (cpu_t.core_id cpu = c) then 1 else 0) + length (members cpus c))%nat.
Proof.
  unfold members. rewrite filter_cons.
  destruct (decide (cpu_t.core_id cpu = c)); reflexivity.
Qed.

(** The loop that opens the register files, from any table large enough. *)
Lemma open_loop_run (cpus : list cpu_t.t) :
  forall (acc : list (list msr_t)) (k : K),
  Forall (fun cpu => 0 <= cpu_t.core_id cpu < Z.of_nat (length acc)) cpus ->
  exists fds k1 acc',
    length fds = length cpus
    /\ fold_each cpus acc
         (fun cpu core_msrs =>
            _ <- index core_msrs (cpu_t.core_id cpu) ;;
            m <- open_msr cpu ;;
            ret (alter (fun v => v ++ [m]) (Z.to_nat (cpu_t.core_id cpu)) core_msrs))
         k
       = (zip_with open_event cpus fds, k1, Ret acc')
    /\ length acc' = length acc
    /\ forall c, 0 <= c ->
         length (nth (Z.to_nat c) acc' [])
         = (length (nth (Z.to_nat c) acc []) + length (members cpus c))%nat.
Proof.
  induction cpus as [|cpu cpus IH]; intros acc k Hall.
  - exists [], k, acc. repeat split; auto.
  - apply Forall_cons in Hall as [Hcpu Hall].
    set (path := "/dev/cpu/" +:+ pretty (cpu_t.id cpu) +:+ "/msr").
    set (r := sys_open path k).
    set (acc1 := alter (fun v => v ++ [mk_msr r.1]) (Z.to_nat (cpu_t.core_id cpu)) acc).
    assert (Hlen1 : length acc1 = length acc) by apply length_alter.
    destruct (IH acc1 r.2 ltac:(rewrite Hlen1; exact Hall))
      as (fds & k1 & acc' & Hfds & Hrun & Hlen & Hcount).
    exists (r.1 :: fds), k1, acc'. split; [simpl; lia|]. split; [|split].
    + cbn [fold_each].
      match goal with
      | |- bind ?m _ k = _ =>
          assert (Hbody : m k = ([open_event cpu r.1], r.2, Ret acc1))
      end.
      { run_step ltac:(apply index_run; [lia|apply (lookup_nth _ _ []); lia]).
        run_step ltac:(apply msr_open_run).
        reflexivity. }
      rewrite (bind_Ret _ _ _ _ _ _ Hbody), Hrun. reflexivity.
    + lia.
    + intros c Hc. rewrite (Hcount c Hc), members_cons.
      unfold acc1. rewrite !nth_lookup.
      destruct (decide (cpu_t.core_id cpu = c)) as [E|Hne].
      * rewrite E, list_lookup_alter. case_decide; [|congruence].
        destruct (lookup_lt_is_Some_2 acc (Z.to_nat c)) as [v Hv]; [lia|].
        rewrite Hv. simpl. rewrite length_app. simpl. lia.
      * rewrite list_lookup_alter_ne by lia. lia.
Qed.

Lemma elem_of_core_ids (cpus : list cpu_t.t) (c : Z) :
  c ∈ core_ids cpus <-> exists cpu, cpu ∈ cpus /\ cpu_t.core_id cpu = c.
Proof.
  unfold core_ids. rewrite elem_of_list_to_set, list_elem_of_fmap.
  split; intros [cpu [H1 H2]]; exists cpu; auto.
Qed.

Lemma members_nonempty (cpus : list cpu_t.t) (c : Z) :
  members cpus c <> [] <-> c ∈ core_ids cpus.
Proof.
  rewrite elem_of_core_ids. unfold members. split.
  - intros Hne. destruct (filter _ cpus) as [|cpu l] eqn:E; [congruence|].
    assert (Hin : cpu ∈ filter (fun cpu => cpu_t.core_id cpu = c) cpus)
      by (rewrite E; left).
    apply list_elem_of_filter in Hin as [Hc Hin]. exists cpu. auto.
  - intros [cpu [Hin Hc]] E.
    assert (Hf : cpu ∈ filter (fun cpu => cpu_t.core_id cpu = c) cpus)
      by (apply list_elem_of_filter; auto).
    rewrite E in Hf. inversion Hf.
Qed.

Lemma core_ids_size (cpus : list cpu_t.t) (N : Z) :
  0 <= N ->
  (forall cpu, cpu ∈ cpus -> 0 <= cpu_t.core_id cpu < N) ->
  Z.of_nat (size (core_ids cpus)) <= N
  /\ (Z.of_nat (size (core_ids cpus)) = N
      <-> forall c, 0 <= c < N -> c ∈ core_ids cpus).
Proof.
  intros HN Hb.
  set (full := list_to_set (seqZ 0 N) : gset Z).
  assert (Hfull : Z.of_nat (size full) = N).
  { unfold full. rewrite size_list_to_set by apply NoDup_seqZ.
    rewrite length_seqZ. lia. }
  assert (Hsub : core_ids cpus ⊆ full).
  { intros c Hc. apply elem_of_core_ids in Hc as [cpu [Hin <-]].
    unfold full. rewrite elem_of_list_to_set, elem_of_seqZ.
    specialize (Hb cpu Hin). lia. }
  pose proof (subseteq_size _ _ Hsub) as Hle.
  split; [lia|]. split.
  - intros Hsz c Hc.
    rewrite (set_subseteq_size_eq _ _ Hsub ltac:(lia)).
    unfold full. rewrite elem_of_list_to_set, elem_of_seqZ. lia.
  - intros Hall.
    assert (Hsup : full ⊆ core_ids cpus).
    { intros c Hc. unfold full in Hc.
      rewrite elem_of_list_to_set, elem_of_seqZ in Hc. apply Hall. lia. }
    pose proof (subseteq_size _ _ Hsup). lia.
Qed.

Lemma num_cores_run (cpus : list cpu_t.t) (k : K) :
  Forall (fun cpu => cpu_t.core_id cpu < INT_MAX) cpus ->
  num_cores cpus k = ([], k, Ret (max_core_id cpus + 1)).
Proof.
  intros Hb. unfold num_cores, int_add, max_core_id.
  set (m := fold_left _ cpus 0).
  assert (Hm : 0 <= m < INT_MAX).
  { split; [apply fold_max_ge|]. unfold m.
    destruct (fold_max_attained cpus 0) as [->|[cpu [Hin ->]]];
      [unfold INT_MAX; lia|].
    rewrite Forall_forall in Hb. apply Hb, Hin. }
  unfold INT_MIN, INT_MAX in *.
  destruct (Z.leb_spec (- 2 ^ 31) (m + 1)); [|lia].
  destruct (Z.leb_spec (m + 1) (2 ^ 31 - 1)); [reflexivity|lia].
Qed.

Lemma num_cores_overflow (cpus : list cpu_t.t) (k : K) :
  Exists (fun cpu => INT_MAX <= cpu_t.core_id cpu) cpus ->
  num_cores cpus k = ([], k, Undefined).
Proof.
  intros Hb. apply Exists_exists in Hb as [cpu [Hin Hcpu]].
  unfold num_cores, int_add, max_core_id.
  pose proof (fold_max_bound cpus 0 cpu Hin) as Hm.
  set (m := fold_left _ cpus 0) in *. unfold INT_MAX in *.
  destruct (Z.leb_spec (m + 1) (2 ^ 31 - 1)); [lia|].
  rewrite andb_false_r. reflexivity.
Qed.

Lemma length_opened (cpus : list cpu_t.t) (k : K) :
  length (opened cpus k).1 = length cpus.
Proof.
  revert k. induction cpus as [|cpu cpus IH]; intros k; [reflexivity|].
  cbn [opened fst length]. rewrite IH. reflexivity.
Qed.

Lemma core_channels_cons (cpu : cpu_t.t) (cpus : list cpu_t.t) (r : Z)
    (fds : list Z) (c : Z) :
  core_channels (cpu :: cpus) (r :: fds) c
  = (if decide (cpu_t.core_id cpu = c) then [mk_msr r] else [])
      ++ core_channels cpus fds c.
Proof.
  unfold core_channels. cbn [zip_with]. rewrite filter_cons. cbn [fst].
  destruct (decide (cpu_t.core_id cpu = c)); reflexivity.
Qed.

Lemma length_core_channels (cpus : list cpu_t.t) (fds : list Z) (c : Z) :
  length fds = length cpus ->
  length (core_channels cpus fds c) = length (members cpus c).
Proof.
  revert fds. induction cpus as [|cpu cpus IH]; intros [|r fds] Hlen;
    try discriminate; [reflexivity|].
  rewrite core_channels_cons, length_app, members_cons, IH
    by (simpl in Hlen; lia).
  destruct (decide (cpu_t.core_id cpu = c)); reflexivity.
Qed.

(** A channel is in the list of core [c] exactly when it is the descriptor
    of a logical processor of that core. *)
Lemma elem_of_core_channels (cpus : list cpu_t.t) (fds : list Z) (c : Z)
    (m : msr_t) :
  m ∈ core_channels cpus fds c
  <-> exists i cpu, cpus !! i = Some cpu /\ cpu_t.core_id cpu = c
                    /\ fds !! i = Some (fd m).
Proof.
  unfold core_channels. rewrite list_elem_of_fmap. split.
  - intros [[cpu r] [-> Hin]]. apply list_elem_of_filter in Hin as [Hc Hin].
    apply list_elem_of_lookup in Hin as [i Hi].
    apply lookup_zip_with_Some in Hi as (cpu' & r' & E & Hcpu & Hr).
    injection E as <- <-. exists i, cpu. auto.
  - intros (i & cpu & Hcpu & Hc & Hr). exists (cpu, fd m). split.
    + destruct m. reflexivity.
    + apply list_elem_of_filter. split; [exact Hc|].
      apply list_elem_of_lookup. exists i.
      apply lookup_zip_with_Some. exists cpu, (fd m). auto.
Qed.

(** The loop that opens the register files, with the table it leaves: every
    entry has grown by the register files of its core. *)
Lemma open_loop_table (cpus : list cpu_t.t) :
  forall (acc : list (list msr_t)) (k : K),
  Forall (fun cpu => 0 <= cpu_t.core_id cpu < Z.of_nat (length acc)) cpus ->
  exists acc',
    fold_each cpus acc
      (fun cpu core_msrs =>
         _ <- index core_msrs (cpu_t.core_id cpu) ;;
         m <- open_msr cpu ;;
         ret (alter (fun v => v ++ [m]) (Z.to_nat (cpu_t.core_id cpu)) core_msrs))
      k
    = (zip_with open_event cpus (opened cpus k).1, (opened cpus k).2, Ret acc')
    /\ length acc' = length acc
    /\ forall (c : nat) (v : list msr_t), acc !! c = Some v ->
         acc' !! c
         = Some (v ++ core_channels cpus (opened cpus k).1 (Z.of_nat c)).
Proof.
  induction cpus as [|cpu cpus IH]; intros acc k Hall.
  - exists acc. split; [reflexivity|]. split; [reflexivity|].
    intros c v Hv. rewrite Hv. unfold core_channels. simpl.
    rewrite app_nil_r. reflexivity.
  - apply Forall_cons in Hall as [Hcpu Hall].
    set (path := "/dev/cpu/" +:+ pretty (cpu_t.id cpu) +:+ "/msr").
    set (r := sys_open path k).
    set (acc1 := alter (fun v => v ++ [mk_msr r.1]) (Z.to_nat (cpu_t.core_id cpu)) acc).
    assert (Hlen1 : length acc1 = length acc) by apply length_alter.
    destruct (IH acc1 r.2 ltac:(rewrite Hlen1; exact Hall))
      as (acc' & Hrun & Hlen & Hrows).
    assert (Hopened : opened (cpu :: cpus) k
                      = (r.1 :: (opened cpus r.2).1, (opened cpus r.2).2))
      by reflexivity.
    exists acc'. rewrite Hopened. cbn [fst snd]. split; [|split].
    + cbn [fold_each].
      match goal with
      | |- bind ?m _ k = _ =>
          assert (Hbody : m k = ([open_event cpu r.1], r.2, Ret acc1))
      end.
      { run_step ltac:(apply index_run; [lia|apply (lookup_nth _ _ []); lia]).
        run_step ltac:(apply msr_open_run).
        reflexivity. }
      rewrite (bind_Ret _ _ _ _ _ _ Hbody), Hrun. reflexivity.
    + lia.
    + intros c v Hv. rewrite core_channels_cons.
      destruct (decide (cpu_t.core_id cpu = Z.of_nat c)) as [E|Hne].
      * rewrite (Hrows c (v ++ [mk_msr r.1])), <- app_assoc; [reflexivity|].
        unfold acc1. rewrite E, Nat2Z.id, list_lookup_alter, Hv.
        case_decide; [reflexivity|congruence].
      * rewrite (Hrows c v); [reflexivity|].
        unfold acc1. rewrite list_lookup_alter_ne by lia. exact Hv.
Qed.

(** A vector is known from its length and its entries. *)
Lemma table_ext {A} (l : list A) (f : Z -> A) (n : Z) :
  Z.of_nat (length l) = n ->
  (forall c : nat, Z.of_nat c < n -> l !! c = Some (f (Z.of_nat c))) ->
  l = map f (seqZ 0 n).
Proof.
  intros Hlen Hl. apply list_eq. intros i.
  change (map f (seqZ 0 n)) with (f <$> seqZ 0 n). rewrite list_lookup_fmap.
  destruct (decide (Z.of_nat i < n)) as [Hi|Hi].
  - rewrite Hl, lookup_seqZ_lt by lia. reflexivity.
  - rewrite lookup_ge_None_2 by lia. rewrite lookup_seqZ_ge by lia. reflexivity.
Qed.

(** [main_open] from the number of cores that line 302 computes. *)
Lemma main_open_table (cpus : list cpu_t.t) (k : K) :
  Forall (fun cpu => 0 <= cpu_t.core_id cpu) cpus ->
  main_open (max_core_id cpus + 1) cpus k
  = (zip_with open_event cpus (opened cpus k).1, (opened cpus k).2,
     Ret (map (core_channels cpus (opened cpus k).1) (seqZ 0 (max_core_id cpus + 1)))).
Proof.
  intros Hnn.
  pose proof (max_core_id_pos cpus) as Hpos.
  destruct (open_loop_table cpus (replicate (Z.to_nat (max_core_id cpus + 1)) []) k)
    as (core_msrs & Hrun & Hlen & Hrows).
  { rewrite length_replicate. apply Forall_forall. intros cpu Hin.
    rewrite Forall_forall in Hnn. specialize (Hnn cpu Hin).
    pose proof (max_core_id_bound cpus cpu Hin). lia. }
  rewrite length_replicate in Hlen.
  unfold main_open. rewrite Hrun. do 2 f_equal.
  apply table_ext; [lia|]. intros c Hc.
  apply (Hrows c []). apply lookup_replicate. split; [reflexivity|lia].
Qed.

(** C7, as the code has it: the cores are not renumbered.  The table has one
    entry for every number from 0 to the largest core id, and entry [c]
    holds the register files of the logical processors whose core id is
    [c]: what [open] returned for each of them, in the order of the
    topology.  The number of entries is the number of distinct core ids, and
    every entry is populated, exactly when the core ids are contiguous from
    0. *)
Theorem core_table_by_raw_id (cpus : list cpu_t.t) (k : K) :
  Forall (fun cpu => 0 <= cpu_t.core_id cpu < INT_MAX) cpus ->
  let fds := (opened cpus k).1 in
  let core_msrs := map (core_channels cpus fds) (seqZ 0 (max_core_id cpus + 1)) in
  num_cores cpus k = ([], k, Ret (max_core_id cpus + 1))
  /\ main_open (max_core_id cpus + 1) cpus k
     = (zip_with open_event cpus fds, (opened cpus k).2, Ret core_msrs)
  /\ length fds = length cpus
  /\ Z.of_nat (length core_msrs) = max_core_id cpus + 1
  /\ (forall cpu, cpu ∈ cpus -> cpu_t.core_id cpu <= max_core_id cpus)
  /\ (cpus <> [] -> max_core_id cpus ∈ core_ids cpus)
  /\ (forall c m, 0 <= c < max_core_id cpus + 1 ->
        m ∈ nth (Z.to_nat c) core_msrs []
        <-> exists i cpu, cpus !! i = Some cpu /\ cpu_t.core_id cpu = c
                          /\ fds !! i = Some (fd m))
  /\ (forall c, 0 <= c ->
        length (nth (Z.to_nat c) core_msrs []) = length (members cpus c))
  /\ Z.of_nat (size (core_ids cpus)) <= max_core_id cpus + 1
  /\ (Z.of_nat (size (core_ids cpus)) = max_core_id cpus + 1
      <-> forall c, 0 <= c < max_core_id cpus + 1 -> c ∈ core_ids cpus)
  /\ (Forall (fun msrs => msrs <> []) core_msrs
      <-> forall c, 0 <= c < max_core_id cpus + 1 -> c ∈ core_ids cpus).
Proof.
  intros Hall fds core_msrs.
  assert (Hnn : Forall (fun cpu => 0 <= cpu_t.core_id cpu) cpus)
    by (eapply Forall_impl; [exact Hall|]; simpl; lia).
  assert (Hmax : Forall (fun cpu => cpu_t.core_id cpu < INT_MAX) cpus)
    by (eapply Forall_impl; [exact Hall|]; simpl; lia).
  pose proof (max_core_id_pos cpus) as Hpos.
  pose proof (length_opened cpus k) as Hfds. fold fds in Hfds.
  assert (Hb : forall cpu, cpu ∈ cpus -> 0 <= cpu_t.core_id cpu < (max_core_id cpus + 1)).
  { intros cpu Hin. split; [|apply max_core_id_bound, Hin].
    rewrite Forall_forall in Hnn. apply Hnn, Hin. }
  assert (Hlen : Z.of_nat (length core_msrs) = (max_core_id cpus + 1)).
  { unfold core_msrs. rewrite length_map, length_seqZ. lia. }
  assert (Hrow : forall c, 0 <= c < (max_core_id cpus + 1) ->
            nth (Z.to_nat c) core_msrs [] = core_channels cpus fds c).
  { intros c Hc. apply nth_lookup_Some with (d := []).
    - unfold core_msrs. change (map ?f ?l) with (f <$> l).
      rewrite list_lookup_fmap, lookup_seqZ_lt by lia.
      simpl. do 2 f_equal. lia. }
  assert (Hentry : forall c, 0 <= c ->
            length (nth (Z.to_nat c) core_msrs []) = length (members cpus c)).
  { intros c Hc. destruct (decide (c < (max_core_id cpus + 1))) as [Hlt|Hge].
    - rewrite Hrow by lia. apply length_core_channels, Hfds.
    - rewrite nth_overflow by lia.
      destruct (members cpus c) as [|cpu l] eqn:E; [reflexivity|].
      assert (Hin : cpu ∈ members cpus c) by (rewrite E; left).
      apply list_elem_of_filter in Hin as [Hcpu Hin].
      specialize (Hb cpu Hin). lia. }
  destruct (core_ids_size cpus (max_core_id cpus + 1) ltac:(lia) Hb) as [Hsz Hiff].
  split; [apply num_cores_run, Hmax|].
  split; [apply main_open_table, Hnn|].
  split; [exact Hfds|]. split; [exact Hlen|].
  split; [intros cpu Hin; specialize (Hb cpu Hin); lia|].
  split.
  { intros Hne. unfold max_core_id.
    destruct (fold_max_attained cpus 0) as [E|[cpu [Hin E]]].
    - destruct cpus as [|cpu cpus']; [congruence|].
      apply elem_of_core_ids.
      pose proof (Hb cpu ltac:(left)) as Hc.
      pose proof (fold_max_bound (cpu :: cpus') 0 cpu ltac:(left)) as Hm.
      exists cpu. split; [left|]. rewrite E in *. lia.
    - apply elem_of_core_ids. exists cpu. split; [exact Hin|]. lia. }
  split; [intros c m Hc; rewrite Hrow by lia; apply elem_of_core_channels|].
  split; [exact Hentry|]. split; [exact Hsz|]. split; [exact Hiff|].
  rewrite (Forall_nth _ []). split.
  - intros Hpop c Hc. apply members_nonempty. intros E.
    specialize (Hpop (Z.to_nat c) ltac:(lia)). apply Hpop.
    apply length_zero_iff_nil. rewrite Hentry, E by lia. reflexivity.
  - intros Hpop i Hi E.
    assert (Hin : Z.of_nat i ∈ core_ids cpus) by (apply Hpop; lia).
    apply members_nonempty in Hin. apply Hin.
    apply length_zero_iff_nil.
    rewrite <- Hentry, Nat2Z.id, E by lia. reflexivity.
Qed.
End Cores.

(** * No planning step *)

Section Planning.
Context {K : Type} `{Machine K}.

Lemma core_table_open (cpus : list cpu_t.t) (k : K) :
  Forall (fun cpu => 0 <= cpu_t.core_id cpu) cpus ->
  exists fds k1 core_msrs,
    length fds = length cpus
    /\ main_open (max_core_id cpus + 1) cpus k
       = (zip_with open_event cpus fds, k1, Ret core_msrs).
Proof.
  intros Hnn.
  destruct (open_loop_run cpus (replicate (Z.to_nat (max_core_id cpus + 1)) []) k)
    as (fds & k1 & core_msrs & Hfds & Hrun & _).
  { rewrite length_replicate. apply Forall_forall. intros cpu Hin.
    rewrite Forall_forall in Hnn. specialize (Hnn cpu Hin).
    pose proof (max_core_id_bound cpus cpu Hin). lia. }
  exists fds, k1, core_msrs. split; [exact Hfds|exact Hrun].
Qed.

Lemma no_exit_wrmsr (m : msr_t) (reg val : Z) : no_exit (wrmsr m reg val).
Proof. intros k. rewrite wrmsr_run. unfold result. simpl. destruct (_ =? 8); reflexivity. Qed.

Lemma no_exit_rdmsr (m : msr_t) (reg : Z) : no_exit (rdmsr m reg).
Proof. intros k. rewrite rdmsr_run. unfold result. simpl. destruct (_ =? 8); reflexivity. Qed.

Lemma no_exit_open_msr (cpu : cpu_t.t) : no_exit (open_msr cpu).
Proof. intros k. unfold open_msr. rewrite msr_open_run. reflexivity. Qed.

Lemma no_exit_rdtsc : no_exit rdtsc.
Proof. intros k. unfold rdtsc. destruct (insn_rdtsc k) as [[eax edx] k']. reflexivity. Qed.

Lemma no_exit_usleep (usec : Z) : no_exit (usleep usec).
Proof. intros k. reflexivity. Qed.

Ltac no_exit_tac :=
  repeat first
    [ apply no_exit_ret | apply no_exit_undefined | apply no_exit_emit
    | apply no_exit_index | apply no_exit_udiv | apply no_exit_umod
    | apply no_exit_wrmsr | apply no_exit_rdmsr | apply no_exit_open_msr
    | apply no_exit_rdtsc | apply no_exit_usleep
    | apply no_exit_for_each; intros
    | apply no_exit_fold_each; intros
    | apply no_exit_bind; [|intros] ].

Lemma no_exit_main_open (n_cores : Z) (cpus : list cpu_t.t) :
  no_exit (main_open n_cores cpus).
Proof. unfold main_open. no_exit_tac. Qed.

Lemma no_exit_main_configure info n_cores core_msrs :
  no_exit (main_configure info n_cores core_msrs).
Proof. unfold main_configure, configure_port. no_exit_tac. Qed.

Lemma no_exit_main_reset info n_cores core_msrs :
  no_exit (main_reset info n_cores core_msrs).
Proof. unfold main_reset, reset_port. no_exit_tac. Qed.

Lemma no_exit_main_tick info n_cores core_msrs st :
  no_exit (main_tick info n_cores core_msrs st).
Proof. unfold main_tick, tick_port, fprintf_stderr. no_exit_tac. Qed.

Lemma no_exit_main_loop n info n_cores core_msrs st :
  no_exit (main_loop n info n_cores core_msrs st).
Proof.
  revert st. induction n as [|n IH]; intros st; simpl.
  - apply no_exit_ret.
  - apply no_exit_bind; [apply no_exit_main_tick|exact IH].
Qed.

Lemma main_topology_pass (cpus : list cpu_t.t) (cpu0 : cpu_t.t) (k : K) :
  proc_cpuinfo = Some cpus -> cpus !! 0%nat = Some cpu0 ->
  "constant_tsc" ∈ cpu_t.flags cpu0 ->
  main_topology k = ([], k, Ret cpus).
Proof.
  intros Hinfo H0 Hflag. unfold main_topology, cpuinfo. rewrite Hinfo.
  run_step ltac:(reflexivity).
  run_step ltac:(apply index_run; [lia|exact H0]).
  destruct (decide _); [reflexivity|contradiction].
Qed.

Lemma bind_assoc {A B C} (m : M K A) (f : A -> M K B) (g : B -> M K C) (k : K) :
  bind (bind m f) g k = bind m (fun a => bind (f a) g) k.
Proof.
  unfold bind. destruct (m k) as [[t1 k1] [a|s|w|]]; try reflexivity.
  destruct (f a k1) as [[t2 k2] [b|s|w|]]; try reflexivity.
  destruct (g b k2) as [[t3 k3] o]. rewrite app_assoc. reflexivity.
Qed.

Lemma bind_ext {A B} (m : M K A) (f g : A -> M K B) (k : K) :
  (forall a k', f a k' = g a k') -> bind m f k = bind m g k.
Proof.
  intros Hfg. unfold bind. destruct (m k) as [[t1 k1] [a|s|w|]]; try reflexivity.
  rewrite Hfg. reflexivity.
Qed.

Lemma main_split (n : nat) (k : K) :
  main n k
  = (info <- main_probe ;;
     main_gate info ;;
     cpus <- main_topology ;;
     n_cores <- num_cores cpus ;;
     core_msrs <- main_open n_cores cpus ;;
     after_open n info n_cores core_msrs) k.
Proof.
  unfold main, main_startup, after_open.
  rewrite bind_assoc. apply bind_ext. intros info k1.
  rewrite bind_assoc. apply bind_ext. intros _ k2.
  rewrite bind_assoc. apply bind_ext. intros cpus k3.
  rewrite bind_assoc. apply bind_ext. intros n_cores k4.
  rewrite bind_assoc. reflexivity.
Qed.

Lemma no_exit_after_open n info n_cores core_msrs :
  no_exit (after_open n info n_cores core_msrs).
Proof.
  unfold after_open.
  apply no_exit_bind.
  - apply no_exit_bind; [apply no_exit_main_configure|intros _].
    apply no_exit_bind; [apply no_exit_main_reset|intros values].
    apply no_exit_bind; [apply no_exit_rdtsc|intros tsc0].
    apply no_exit_ret.
  - intros [[[info' n_cores'] core_msrs'] st]. apply no_exit_main_loop.
Qed.

(** C1, as the code has it: there is no planning step.  Once past the gate
    and the [constant_tsc] check the program opens the register file of
    every logical processor, in the order of the topology, before it looks
    at any event index, and from there on it never calls [exit].  The core
    ids are those of a run that gets as far as the table of cores: not
    negative, and below [INT_MAX], so that line 302 does not overflow. *)
Theorem no_planning_step (n : nat) (k : K) (cpus : list cpu_t.t)
    (cpu0 : cpu_t.t) :
  supported ->
  proc_cpuinfo = Some cpus ->
  cpus !! 0%nat = Some cpu0 ->
  "constant_tsc" ∈ cpu_t.flags cpu0 ->
  Forall (fun cpu => 0 <= cpu_t.core_id cpu < INT_MAX) cpus ->
  exists fds rest,
    length fds = length cpus
    /\ trace (main n k)
       = trace (main_probe k) ++ zip_with open_event cpus fds ++ rest
    /\ is_exit (result (main n k)) = false.
Proof.
  intros Hs Hinfo H0 Hflag Hall.
  assert (Hnn : Forall (fun cpu => 0 <= cpu_t.core_id cpu) cpus)
    by (eapply Forall_impl; [exact Hall|]; simpl; lia).
  assert (Hmax : Forall (fun cpu => cpu_t.core_id cpu < INT_MAX) cpus)
    by (eapply Forall_impl; [exact Hall|]; simpl; lia).
  destruct (core_table_open cpus k Hnn) as (fds & k1 & core_msrs & Hfds & Hopen).
  set (info := pmcinfo (cpuid 0x0a)).
  exists fds, (trace (after_open n info (max_core_id cpus + 1) core_msrs k1)).
  split; [exact Hfds|].
  assert (Hrun : main n k
    = (trace (main_probe k) ++ zip_with open_event cpus fds
         ++ trace (after_open n info (max_core_id cpus + 1) core_msrs k1),
       final (after_open n info (max_core_id cpus + 1) core_msrs k1),
       result (after_open n info (max_core_id cpus + 1) core_msrs k1))).
  { rewrite main_split.
    run_step ltac:(apply main_probe_run).
    run_step ltac:(apply main_gate_pass; exact Hs).
    run_step ltac:(eapply main_topology_pass; eassumption).
    run_step ltac:(apply num_cores_run; exact Hmax).
    run_step ltac:(exact Hopen).
    apply run_eta. }
  rewrite Hrun. split; [reflexivity|].
  apply no_exit_after_open.
Qed.
End Planning.

(** * The program on the scripted machines *)

(** On one core with one logical processor, 4 counters and 6 ports, index 4
    asks for a second logical processor; yet the run is no planning failure:
    it does not end in an exit, the register file has been opened and
    registers have been written. *)
Lemma planning_failure_counterexample :
  num_pmc_per_thread (pmcinfo (@cpuid _ (sim_machine sim_one_thread) 0x0a)) = 4
  /\ length (members [sim_cpu 0 0] 0) = 1%nat
  /\ port_count = 6
  /\ 1 <= 4 / 4
  /\ is_exit (result (@main _ (sim_machine sim_one_thread) 1 sim_boot)) = false
  /\ existsb is_open (trace (@main _ (sim_machine sim_one_thread) 1 sim_boot)) = true
  /\ existsb is_pwrite (trace (@main _ (sim_machine sim_one_thread) 1 sim_boot)) = true
  /\ ~ fails_at_planning (@main _ (sim_machine sim_one_thread) 1 sim_boot).
Proof.
  split; [reflexivity|]. split; [reflexivity|]. split; [reflexivity|].
  split; [vm_compute; discriminate|].
  split; [vm_compute; reflexivity|].
  split; [vm_compute; reflexivity|].
  split; [vm_compute; reflexivity|].
  intros (Hexit & _). vm_compute in Hexit. discriminate.
Qed.

(** With core ids 0 and 2 the table has three entries for two cores, and
    the entry in the middle is empty. *)
Lemma renumbering_counterexample :
  result (num_cores [sim_cpu 0 0; sim_cpu 1 2] sim_boot) = Ret 3
  /\ result (@main_open _ (sim_machine sim_sparse_cores) 3
               [sim_cpu 0 0; sim_cpu 1 2] sim_boot)
     = Ret [[mk_msr 3]; []; [mk_msr 4]]
  /\ ~ densely_renumbered [sim_cpu 0 0; sim_cpu 1 2] [[mk_msr 3]; []; [mk_msr 4]].
Proof.
  split; [vm_compute; reflexivity|].
  split; [vm_compute; reflexivity|].
  intros [Hlen _]. vm_compute in Hlen. discriminate.
Qed.

Lemma no_planning_step_witness :
  exists fds rest,
    length fds = 1%nat
    /\ trace (@main _ (sim_machine sim_one_thread) 1 sim_boot)
       = trace (@main_probe _ (sim_machine sim_one_thread) sim_boot)
           ++ zip_with open_event [sim_cpu 0 0] fds ++ rest
    /\ is_exit (result (@main _ (sim_machine sim_one_thread) 1 sim_boot)) = false.
Proof.
  apply (@no_planning_step _ (sim_machine sim_one_thread) 1%nat sim_boot
           [sim_cpu 0 0] (sim_cpu 0 0)).
  - repeat split; vm_compute; congruence.
  - reflexivity.
  - reflexivity.
  - vm_compute. set_solver.
  - repeat constructor; simpl; unfold INT_MAX; lia.
Defined.

Lemma core_table_by_raw_id_witness :
  @main_open _ (sim_machine sim_two_threads) 2 [sim_cpu 0 0; sim_cpu 1 1] sim_boot
  = ([open_event (sim_cpu 0 0) 3; open_event (sim_cpu 1 1) 4],
     mk_sim 5 0 [], Ret [[mk_msr 3]; [mk_msr 4]])
  /\ Forall (fun msrs => msrs <> []) [[mk_msr 3]; [mk_msr 4]].
Proof.
  destruct (@core_table_by_raw_id _ (sim_machine sim_two_threads)
              [sim_cpu 0 0; sim_cpu 1 1] sim_boot)
    as (_ & Hrun & _ & _ & _ & _ & _ & _ & _ & _ & Hpop).
  - repeat constructor; simpl; unfold INT_MAX; lia.
  - split; [exact Hrun|].
    apply Hpop. intros c Hc. change (max_core_id _ + 1) with 2 in Hc.
    assert (Hc' : c = 0 \/ c = 1) by lia.
    destruct Hc' as [->| ->]; apply elem_of_core_ids;
      [exists (sim_cpu 0 0)|exists (sim_cpu 1 1)]; split; try reflexivity;
      repeat constructor.
Defined.

Lemma compatibility_gate_witness :
  result (@main _ (sim_machine sim_unsupported) 1 sim_boot) = Exit 1
  /\ last (trace (@main _ (sim_machine sim_unsupported) 1 sim_boot))
     = Some (EvStderr ("Sorry your CPU is not supported yet: family = 6, model = 58"
                         +:+ endl)).
Proof.
  destruct (@compatibility_gate _ (sim_machine sim_unsupported) 1%nat sim_boot)
    as (_ & Hfail & _).
  destruct Hfail as [Hrun _].
  - intros (_ & _ & Hmodel). vm_compute in Hmodel. discriminate.
  - rewrite Hrun. split; reflexivity.
Defined.

Lemma msr_transfer_witness :
  result (@wrmsr _ (sim_machine sim_short) (mk_msr 3) 0x186 0x6301a1 sim_boot)
  = Throw "failed write"
  /\ result (@rdmsr _ (sim_machine sim_short) (mk_msr 3) 0xc1 sim_boot)
     = Throw "failed read".
Proof.
  destruct (@msr_transfer _ (sim_machine sim_short) (mk_msr 3) 0x186 0x6301a1 sim_boot)
    as (Hw & _).
  { simpl. lia. }
  { simpl. lia. }
  destruct (@msr_transfer _ (sim_machine sim_short) (mk_msr 3) 0xc1 0 sim_boot)
    as (_ & _ & _ & Hr & _).
  { simpl. lia. }
  { simpl. lia. }
  split; [apply Hw|apply Hr]; simpl; lia.
Defined.

Lemma configure_writes_witness :
  let info := pmcinfo four_counters_eax0a in
  let core_msrs := [[mk_msr 3; mk_msr 4]] in
  let k := mk_sim 5 0 [] in
  trace (@main_configure _ (sim_machine sim_two_threads) info 1 core_msrs k)
  = map (evtsel_write info core_msrs 0) [0; 1; 2; 3; 4; 5]
  /\ result (@main_configure _ (sim_machine sim_two_threads) info 1 core_msrs k)
     = Ret tt.
Proof.
  intros info core_msrs k.
  destruct (@configure_writes _ (sim_machine sim_two_threads) info 1 core_msrs k)
    as (Htrace & Hresult & _).
  - vm_compute. reflexivity.
  - reflexivity.
  - repeat constructor.
  - repeat constructor; intros; reflexivity.
  - split; [exact Htrace|exact Hresult].
Defined.

(** The run of the specification's second scenario: one core with two
    logical processors, one million cycles and ten thousand events per
    second.  Six event-select writes and six zeroing writes, then a first
    row of six times 1.00 percent. *)
Example two_threads_first_tick :
  let run := @main _ (sim_machine sim_two_threads) 1 sim_boot in
  result run = Ret (1000000, [[10000; 10000; 10000; 10000; 10000; 10000]])
  /\ length (List.filter is_pwrite (trace run)) = 12%nat
  /\ List.filter (fun e => match e with EvFprintf _ (_ :: _) => true | _ => false end)
       (trace run)
     = replicate 6 (EvFprintf "%6.2f%%" [1%float]).
Proof. repeat split; vm_compute; reflexivity. Qed.
(** * Text *)

Lemma blank_prefix_le (s : list Ascii.ascii) : (blank_prefix s <= length s)%nat.
Proof. induction s as [|c s IH]; simpl; [lia|]. destruct (is_blank c); simpl; lia. Qed.

Lemma blank_prefix_take (s : list Ascii.ascii) :
  Forall (fun c => is_blank c = true) (take (blank_prefix s) s).
Proof.
  induction s as [|c s IH]; simpl; [constructor|].
  destruct (is_blank c) eqn:E; simpl; [|constructor].
  constructor; [exact E|exact IH].
Qed.

Lemma blank_prefix_stop (s : list Ascii.ascii) :
  (blank_prefix s < length s)%nat ->
  exists c, s !! blank_prefix s = Some c /\ is_blank c = false.
Proof.
  induction s as [|c s IH]; simpl; [lia|].
  destruct (is_blank c) eqn:E; simpl.
  - intros Hlt. apply IH. lia.
  - intros _. exists c. split; [reflexivity|exact E].
Qed.

Lemma blank_prefix_all (s : list Ascii.ascii) :
  Forall (fun c => is_blank c = true) s -> blank_prefix s = length s.
Proof.
  induction 1 as [|c s Hc _ IH]; simpl; [reflexivity|]. rewrite Hc, IH. reflexivity.
Qed.

Lemma trim_front_spec (s : list Ascii.ascii) (fuel : nat) (start : Z) :
  0 <= start <= Z.of_nat (length s) ->
  Z.of_nat (length s) - start <= Z.of_nat fuel ->
  trim_front s fuel start
  = start + Z.of_nat (blank_prefix (drop (Z.to_nat start) s)).
Proof.
  revert start. induction fuel as [|fuel IH]; intros start Hs Hf.
  - simpl. rewrite drop_ge by lia. simpl. lia.
  - cbn [trim_front]. unfold blank_at.
    destruct (Z.ltb_spec start (Z.of_nat (length s))) as [Hlt|Hge].
    + destruct (lookup_lt_is_Some_2 s (Z.to_nat start)) as [c Hc]; [lia|].
      rewrite Hc, (drop_S _ _ _ Hc). simpl.
      destruct (is_blank c); [|lia].
      rewrite IH by lia.
      replace (Z.to_nat (start + 1)) with (S (Z.to_nat start)) by lia. lia.
    + simpl. rewrite drop_ge by lia. simpl. lia.
Qed.

Lemma trim_back_spec (s : list Ascii.ascii) (fuel : nat) (e : Z) :
  -1 <= e < Z.of_nat (length s) ->
  e + 1 <= Z.of_nat fuel ->
  trim_back s fuel e
  = e - Z.of_nat (blank_prefix (reverse (take (Z.to_nat (e + 1)) s))).
Proof.
  revert e. induction fuel as [|fuel IH]; intros e He Hf.
  - simpl. replace (Z.to_nat (e + 1)) with 0%nat by lia. simpl. lia.
  - cbn [trim_back]. unfold blank_at.
    destruct (Z.leb_spec 0 e) as [Hge|Hlt].
    + destruct (lookup_lt_is_Some_2 s (Z.to_nat e)) as [c Hc]; [lia|].
      rewrite Hc.
      replace (Z.to_nat (e + 1)) with (S (Z.to_nat e)) by lia.
      rewrite (take_S_r _ _ _ Hc), reverse_snoc. simpl.
      destruct (is_blank c); [|lia].
      rewrite IH by lia.
      replace (Z.to_nat (e - 1 + 1)) with (Z.to_nat e) by lia. lia.
    + simpl. replace (Z.to_nat (e + 1)) with 0%nat by lia. simpl. lia.
Qed.

Lemma int_of_last_index (len : Z) :
  0 <= len <= 2 ^ 31 -> int_of_size_t (wrap64 (len - 1)) = len - 1.
Proof.
  intros Hlen. unfold int_of_size_t, wrap64.
  destruct (Z.eq_dec len 0) as [->|Hne]; [reflexivity|].
  rewrite (Z.mod_small (len - 1)) by lia.
  rewrite Z.mod_small by lia. lia.
Qed.

Lemma wrap64_idemp_sub (e a : Z) : wrap64 (wrap64 e - a + 1) = wrap64 (e - a + 1).
Proof.
  unfold wrap64.
  rewrite <- Zplus_mod_idemp_l, Zminus_mod_idemp_l, Zplus_mod_idemp_l. reflexivity.
Qed.

Lemma blank_prefix_sum (s : list Ascii.ascii) :
  (blank_prefix s < length s)%nat ->
  (blank_prefix s + blank_prefix (reverse s) < length s)%nat.
Proof.
  intros Ha.
  destruct (blank_prefix_stop s Ha) as (ca & Hca & Hcab).
  destruct (decide (blank_prefix s + blank_prefix (reverse s) < length s)%nat)
    as [H|H]; [exact H|exfalso].
  pose proof (blank_prefix_take (reverse s)) as Ht.
  rewrite Forall_lookup in Ht.
  specialize (Ht (length s - S (blank_prefix s))%nat ca).
  rewrite lookup_take_lt, reverse_lookup in Ht by lia.
  replace (length s - S (length s - S (blank_prefix s)))%nat
    with (blank_prefix s) in Ht by lia.
  specialize (Ht Hca). congruence.
Qed.

Lemma trim_value (s : list Ascii.ascii) :
  Z.of_nat (length s) <= 2 ^ 31 -> trim s = Ret (trimmed s).
Proof.
  intros Hlen.
  set (a := blank_prefix s). set (b := blank_prefix (reverse s)).
  pose proof (blank_prefix_le s) as Ha. fold a in Ha.
  pose proof (blank_prefix_le (reverse s)) as Hb. fold b in Hb.
  rewrite length_reverse in Hb.
  assert (Hstart : trim_front s (length s) 0 = Z.of_nat a).
  { rewrite trim_front_spec by lia. simpl. reflexivity. }
  assert (Hend : trim_back s (length s)
                   (int_of_size_t (wrap64 (Z.of_nat (length s) - 1)))
                 = Z.of_nat (length s) - 1 - Z.of_nat b).
  { rewrite int_of_last_index by lia. rewrite trim_back_spec by lia.
    rewrite take_ge by lia. reflexivity. }
  unfold trim. rewrite Hstart, Hend. unfold size_t_of_int.
  rewrite wrap64_idemp_sub. unfold substr.
  destruct (Z.ltb_spec (Z.of_nat (length s)) (Z.of_nat a)) as [Hbad|_]; [lia|].
  rewrite Nat2Z.id. unfold trimmed. fold a b.
  pose proof (Z.mod_pos_bound (Z.of_nat (length s) - 1 - Z.of_nat b - Z.of_nat a + 1)
                (2 ^ 64) ltac:(lia)) as Hw.
  do 2 f_equal.
  destruct (decide (a = length s)) as [Hall|Hsome].
  - unfold wrap64. lia.
  - pose proof (blank_prefix_sum s ltac:(fold a; lia)) as Hab. fold a b in Hab.
    unfold wrap64. rewrite Z.mod_small by lia. lia.
Qed.

Lemma trimmed_head (s : list Ascii.ascii) (c : Ascii.ascii) :
  head (trimmed s) = Some c -> is_blank c = false.
Proof.
  unfold trimmed. rewrite head_lookup. intros Hc.
  apply lookup_take_Some in Hc as [Hc Hn].
  rewrite lookup_drop, Nat.add_0_r in Hc.
  destruct (blank_prefix_stop s ltac:(lia)) as (c' & Hc' & Hb). congruence.
Qed.

Lemma trimmed_last (s : list Ascii.ascii) (c : Ascii.ascii) :
  last (trimmed s) = Some c -> is_blank c = false.
Proof.
  unfold trimmed. rewrite last_lookup, length_take, length_drop. intros Hc.
  apply lookup_take_Some in Hc as [Hc Hn].
  rewrite lookup_drop in Hc.
  pose proof (blank_prefix_le (reverse s)) as Hb. rewrite length_reverse in Hb.
  assert (Hblt : (blank_prefix (reverse s) < length (reverse s))%nat)
    by (rewrite length_reverse; lia).
  destruct (blank_prefix_stop (reverse s) Hblt) as (c' & Hc' & Hb').
  rewrite reverse_lookup in Hc' by lia.
  replace (blank_prefix s + Init.Nat.pred
             ((length s - blank_prefix s - blank_prefix (reverse s))
                `min` (length s - blank_prefix s)))%nat
    with (length s - S (blank_prefix (reverse s)))%nat in Hc by lia.
  congruence.
Qed.

Lemma blank_prefix_padded (pre t post : list Ascii.ascii) :
  Forall (fun c => is_blank c = true) pre ->
  (forall c, head t = Some c -> is_blank c = false) ->
  t <> [] ->
  blank_prefix (pre ++ t ++ post) = length pre.
Proof.
  intros Hpre Hhead Hne. induction Hpre as [|c pre Hc _ IH]; simpl.
  - destruct t as [|c t]; [congruence|]. simpl.
    rewrite (Hhead c eq_refl). reflexivity.
  - rewrite Hc, IH. reflexivity.
Qed.

(** X1: [trim] takes the blanks off both ends and nothing else: whenever a
    text of at most [2^31] characters is blanks, then [t], then blanks, where
    [t] neither starts nor ends with a blank, [trim] returns [t]. *)
Theorem trim_strips (pre t post : list Ascii.ascii) :
  Z.of_nat (length (pre ++ t ++ post)) <= 2 ^ 31 ->
  Forall (fun c => is_blank c = true) pre ->
  Forall (fun c => is_blank c = true) post ->
  (forall c, head t = Some c -> is_blank c = false) ->
  (forall c, last t = Some c -> is_blank c = false) ->
  trim (pre ++ t ++ post) = Ret t.
Proof.
  intros Hlen Hpre Hpost Hhead Hlast.
  rewrite trim_value by exact Hlen. f_equal. unfold trimmed.
  destruct (decide (t = [])) as [->|Hne].
  - simpl. rewrite blank_prefix_all by (apply Forall_app; auto).
    rewrite Nat.sub_diag. reflexivity.
  - rewrite blank_prefix_padded by auto.
    rewrite !reverse_app, <- app_assoc.
    rewrite blank_prefix_padded.
    + rewrite length_reverse, !length_app.
      rewrite drop_app_length.
      replace (length pre + (length t + length post) - length pre - length post)%nat
        with (length t) by lia.
      apply take_app_length.
    + apply Forall_reverse, Hpost.
    + intros c Hc. apply Hlast. rewrite <- Hc, head_reverse. reflexivity.
    + intros E. apply Hne. apply (f_equal reverse) in E.
      rewrite reverse_involutive in E. exact E.
Qed.

(** X2: [trim] never throws on a text of at most [2^31] characters, and what
    it returns is the text between blanks: the text is blanks, the result,
    and blanks again, and the result neither starts nor ends with a blank. *)
Theorem trim_result (s : list Ascii.ascii) :
  Z.of_nat (length s) <= 2 ^ 31 ->
  exists pre t post,
    trim s = Ret t
    /\ s = pre ++ t ++ post
    /\ Forall (fun c => is_blank c = true) pre
    /\ Forall (fun c => is_blank c = true) post
    /\ (forall c, head t = Some c -> is_blank c = false)
    /\ (forall c, last t = Some c -> is_blank c = false).
Proof.
  intros Hlen.
  pose proof (blank_prefix_le s) as Ha.
  destruct (decide (blank_prefix s = length s)) as [Hall|Hsome].
  - exists s, (trimmed s), [].
    assert (Ht : trimmed s = []).
    { unfold trimmed. rewrite Hall, Nat.sub_diag. reflexivity. }
    split; [apply trim_value, Hlen|]. rewrite Ht.
    split; [rewrite app_nil_r; reflexivity|]. split.
    + pose proof (blank_prefix_take s) as Hb. rewrite Hall, take_ge in Hb by lia.
      exact Hb.
    + split; [constructor|]. split; intros c Hc; discriminate.
  - pose proof (blank_prefix_sum s ltac:(lia)) as Hab.
    exists (take (blank_prefix s) s), (trimmed s),
           (drop (length s - blank_prefix (reverse s)) s).
    split; [apply trim_value, Hlen|]. split.
    { unfold trimmed.
      rewrite <- (take_drop (blank_prefix s) s) at 1. f_equal.
      rewrite <- (take_drop (length s - blank_prefix s - blank_prefix (reverse s))
                    (drop (blank_prefix s) s)) at 1.
      f_equal. rewrite drop_drop. f_equal. lia. }
    split; [apply blank_prefix_take|]. split.
    { pose proof (blank_prefix_take (reverse s)) as Hb.
      rewrite take_reverse, Forall_reverse in Hb. exact Hb. }
    split; [apply trimmed_head|apply trimmed_last].
Qed.

(** X3: [trim] is idempotent: what it returns it returns unchanged. *)
Theorem trim_idempotent (s t : list Ascii.ascii) :
  Z.of_nat (length s) <= 2 ^ 31 ->
  trim s = Ret t -> trim t = Ret t.
Proof.
  intros Hlen Hs. rewrite trim_value in Hs by exact Hlen.
  injection Hs as <-.
  assert (Hshort : (length (trimmed s) <= length s)%nat).
  { unfold trimmed. rewrite length_take, length_drop. lia. }
  rewrite trim_value by lia. f_equal.
  destruct (trimmed s) as [|c t] eqn:E; [reflexivity|].
  pose proof (trimmed_head s c) as Hh. rewrite E in Hh. specialize (Hh eq_refl).
  assert (Hl : forall c', last (c :: t) = Some c' -> is_blank c' = false).
  { intros c' Hc'. apply (trimmed_last s). rewrite E. exact Hc'. }
  unfold trimmed.
  assert (Ha : blank_prefix (c :: t) = 0%nat) by (simpl; rewrite Hh; reflexivity).
  assert (Hb : blank_prefix (reverse (c :: t)) = 0%nat).
  { destruct (reverse (c :: t)) as [|c' r] eqn:Er; [reflexivity|].
    simpl. rewrite (Hl c'); [reflexivity|].
    rewrite <- (reverse_involutive (c :: t)), Er, reverse_cons. apply last_snoc. }
  rewrite Ha, Hb, !Nat.sub_0_r. apply take_ge. simpl. lia.
Qed.

(** X4: [trim] returns the empty text exactly for a text of blanks only, the
    empty text included; the length it hands to [substr], which has wrapped
    round on [size_t], does no harm. *)
Theorem trim_empty_iff (s : list Ascii.ascii) :
  Z.of_nat (length s) <= 2 ^ 31 ->
  trim s = Ret [] <-> Forall (fun c => is_blank c = true) s.
Proof.
  intros Hlen. rewrite trim_value by exact Hlen.
  pose proof (blank_prefix_le s) as Ha. split.
  - intros Ht. injection Ht as Ht.
    destruct (decide (blank_prefix s = length s)) as [Hall|Hsome].
    + pose proof (blank_prefix_take s) as Hb. rewrite Hall, take_ge in Hb by lia.
      exact Hb.
    + pose proof (blank_prefix_sum s ltac:(lia)) as Hab.
      apply (f_equal length) in Ht. unfold trimmed in Ht.
      rewrite length_take, length_drop in Ht. simpl in Ht. lia.
  - intros Hall. f_equal. unfold trimmed.
    rewrite (blank_prefix_all s Hall), Nat.sub_diag. reflexivity.
Qed.

Lemma getline_from_shorter (d : Ascii.ascii) (rest : list Ascii.ascii) :
  (length (getline_from d rest).2 <= length rest)%nat.
Proof.
  induction rest as [|c rest IH]; simpl; [lia|].
  destruct (Ascii.eqb c d); simpl; [lia|].
  destruct (getline_from d rest) as [tok r]. simpl in *. lia.
Qed.

Lemma split_loop_acc (d : Ascii.ascii) (fuel : nat) (rest : list Ascii.ascii)
    (acc : list (list Ascii.ascii)) :
  split_loop d fuel rest acc = acc ++ split_loop d fuel rest [].
Proof.
  revert rest acc. induction fuel as [|fuel IH]; intros rest acc; simpl.
  - rewrite app_nil_r. reflexivity.
  - destruct (getline d rest) as [[tok r]|]; [|rewrite app_nil_r; reflexivity].
    rewrite (IH r (acc ++ [tok])). simpl. rewrite (IH r [tok]), <- app_assoc.
    reflexivity.
Qed.

Lemma split_loop_fuel (d : Ascii.ascii) (fuel1 fuel2 : nat) (rest : list Ascii.ascii) :
  (length rest < fuel1)%nat -> (length rest < fuel2)%nat ->
  split_loop d fuel1 rest [] = split_loop d fuel2 rest [].
Proof.
  revert fuel2 rest. induction fuel1 as [|fuel1 IH]; intros fuel2 rest H1 H2; [lia|].
  destruct fuel2 as [|fuel2]; [lia|]. simpl.
  destruct rest as [|c rest]; [reflexivity|]. cbn [getline].
  pose proof (getline_from_shorter d (c :: rest)) as Hs.
  destruct (getline_from d (c :: rest)) as [tok r] eqn:E.
  assert (Hr : (length r <= length rest)%nat).
  { simpl in E. destruct (Ascii.eqb c d).
    - injection E as _ <-. lia.
    - pose proof (getline_from_shorter d rest) as Hs'.
      destruct (getline_from d rest) as [tok' r']. injection E as _ <-. exact Hs'. }
  simpl in H1, H2.
  rewrite (split_loop_acc d fuel1), (split_loop_acc d fuel2).
  f_equal. apply IH; lia.
Qed.

(** One turn of the loop of [split]. *)
Lemma split_unfold (s : list Ascii.ascii) (d : Ascii.ascii) :
  split s d
  = match getline d s with
    | None => []
    | Some (token, rest) => token :: split rest d
    end.
Proof.
  destruct s as [|c s]; [reflexivity|].
  unfold split at 1. cbn [split_loop getline].
  pose proof (getline_from_shorter d (c :: s)) as Hs.
  destruct (getline_from d (c :: s)) as [tok r] eqn:E.
  assert (Hr : (length r <= length s)%nat).
  { simpl in E. destruct (Ascii.eqb c d).
    - injection E as _ <-. lia.
    - pose proof (getline_from_shorter d s) as Hs'.
      destruct (getline_from d s) as [tok' r']. injection E as _ <-. exact Hs'. }
  rewrite split_loop_acc. cbn [app]. f_equal.
  unfold split. apply split_loop_fuel; cbn [length]; lia.
Qed.

Lemma getline_from_token (d : Ascii.ascii) (t s : list Ascii.ascii) :
  d ∉ t -> getline_from d (t ++ d :: s) = (t, s).
Proof.
  induction t as [|c t IH]; intros Hd; simpl.
  - rewrite Ascii.eqb_refl. reflexivity.
  - apply not_elem_of_cons in Hd as [Hne Hd].
    destruct (Ascii.eqb_spec c d) as [->|_]; [congruence|].
    rewrite (IH Hd). reflexivity.
Qed.

Lemma getline_from_end (d : Ascii.ascii) (t : list Ascii.ascii) :
  d ∉ t -> getline_from d t = (t, []).
Proof.
  induction t as [|c t IH]; intros Hd; simpl; [reflexivity|].
  apply not_elem_of_cons in Hd as [Hne Hd].
  destruct (Ascii.eqb_spec c d) as [->|_]; [congruence|].
  rewrite (IH Hd). reflexivity.
Qed.

(** What [getline] reads: the text up to the first delimiter, which it
    takes away, or all of the text when there is none. *)
Lemma getline_from_spec (d : Ascii.ascii) (rest : list Ascii.ascii) :
  (d ∉ (getline_from d rest).1)
  /\ (rest = (getline_from d rest).1 ++ d :: (getline_from d rest).2
      \/ (rest = (getline_from d rest).1 /\ (getline_from d rest).2 = [])).
Proof.
  induction rest as [|c rest IH]; simpl.
  - split; [apply not_elem_of_nil|]. right. auto.
  - destruct (Ascii.eqb_spec c d) as [->|Hne]; simpl.
    + split; [apply not_elem_of_nil|]. left. reflexivity.
    + destruct (getline_from d rest) as [tok r]. simpl in *.
      destruct IH as [Hd Hcase]. split.
      * apply not_elem_of_cons. auto.
      * destruct Hcase as [->|[-> ->]]; [left|right]; auto.
Qed.

(** X5: the tokens of [split]: a text without the delimiter, followed by the
    delimiter, is the first token, and the rest is split in turn; a text
    without the delimiter is its own single token, and the empty text has no
    token.  So a delimiter at the very end adds no empty token, while two
    delimiters in a row, or one at the start, give an empty one. *)
Theorem split_tokens (t s : list Ascii.ascii) (d : Ascii.ascii) :
  d ∉ t ->
  split (t ++ d :: s) d = t :: split s d
  /\ split t d = (if decide (t = []) then [] else [t])
  /\ split (t ++ [d]) d = [t].
Proof.
  intros Hd.
  assert (H1 : forall s', split (t ++ d :: s') d = t :: split s' d).
  { intros s'. rewrite split_unfold.
    destruct (t ++ d :: s') as [|c r] eqn:E; [destruct t; discriminate|].
    cbn [getline]. rewrite <- E, (getline_from_token d t s' Hd). reflexivity. }
  split; [apply H1|]. split.
  - rewrite split_unfold. destruct t as [|c t]; [reflexivity|].
    cbn [getline]. rewrite (getline_from_end d _ Hd).
    rewrite decide_False by discriminate. reflexivity.
  - rewrite (H1 []). reflexivity.
Qed.

(** X6: no token of [split] contains the delimiter. *)
Theorem split_no_delim (s : list Ascii.ascii) (d : Ascii.ascii) :
  Forall (fun token => d ∉ token) (split s d).
Proof.
  remember (length s) as n eqn:Hn. revert s Hn.
  induction n as [n IH] using lt_wf_ind. intros s Hn.
  rewrite split_unfold. destruct s as [|c s]; [constructor|].
  cbn [getline].
  pose proof (getline_from_spec d (c :: s)) as [Hd _].
  pose proof (getline_from_shorter d (c :: s)) as Hs.
  destruct (getline_from d (c :: s)) as [tok r] eqn:E. simpl in Hd.
  assert (Hr : (length r < length (c :: s))%nat).
  { simpl in E. destruct (Ascii.eqb c d).
    - injection E as _ <-. simpl. lia.
    - pose proof (getline_from_shorter d s) as Hs'.
      destruct (getline_from d s) as [tok' r']. injection E as _ <-. simpl in *. lia. }
  constructor; [exact Hd|].
  apply (IH (length r)); [lia|reflexivity].
Qed.

(** X7: [split] loses nothing but a delimiter at the end: putting the
    delimiter back after every token gives the text again when it is empty
    or ends with the delimiter, and the text with one more delimiter
    otherwise. *)
Theorem split_join (s : list Ascii.ascii) (d : Ascii.ascii) :
  concat (map (fun token => token ++ [d]) (split s d))
  = if bool_decide (s = [] \/ last s = Some d) then s else s ++ [d].
Proof.
  remember (length s) as n eqn:Hn. revert s Hn.
  induction n as [n IH] using lt_wf_ind. intros s Hn.
  rewrite split_unfold. destruct s as [|c s]; [reflexivity|].
  cbn [getline].
  pose proof (getline_from_spec d (c :: s)) as [Hd Hcase].
  destruct (getline_from d (c :: s)) as [tok r] eqn:E. simpl in Hd, Hcase.
  cbn [map concat].
  destruct Hcase as [Hcs|[Hcs ->]].
  - assert (Hr : (length r < n)%nat).
    { rewrite Hn, Hcs, length_app. simpl. lia. }
    rewrite (IH (length r) Hr r eq_refl), Hcs, <- app_assoc. simpl.
    destruct r as [|c' r'].
    + rewrite bool_decide_true by (left; reflexivity).
      rewrite bool_decide_true by (right; apply last_snoc). reflexivity.
    + rewrite last_app_cons, last_cons_cons.
      destruct (bool_decide (c' :: r' = [] \/ last (c' :: r') = Some d)) eqn:B.
      * apply bool_decide_eq_true in B as [B|B]; [discriminate|].
        rewrite bool_decide_true by (right; exact B). reflexivity.
      * apply bool_decide_eq_false in B.
        rewrite bool_decide_false.
        -- rewrite <- app_assoc. reflexivity.
        -- intros [H|H]; [destruct tok; discriminate|]. apply B. right. exact H.
  - rewrite split_unfold. simpl. rewrite app_nil_r, <- Hcs.
    rewrite bool_decide_false; [reflexivity|].
    intros [H|H]; [discriminate|].
    apply last_Some_elem_of in H. rewrite Hcs in H. contradiction.
Qed.

(** * The parser of [/proc/cpuinfo] *)

Lemma find_from_absent (c : Ascii.ascii) (s : list Ascii.ascii) (i : Z) :
  c ∉ s -> find_from c s i = npos.
Proof.
  revert i. induction s as [|x s IH]; intros i Hc; simpl; [reflexivity|].
  apply not_elem_of_cons in Hc as [Hne Hc].
  destruct (Ascii.eqb_spec x c) as [->|_]; [congruence|]. apply IH, Hc.
Qed.

Lemma and_then_Ret {A B} (o : outcome A) (f : A -> outcome B) (b : B) :
  and_then o f = Ret b -> exists a, o = Ret a /\ f a = Ret b.
Proof. destruct o as [a|s|w|]; simpl; intros Hb; try discriminate. eauto. Qed.

Section CpuinfoFacts.
Variable stoi : list Ascii.ascii -> outcome Z.

Lemma cpuinfo_line_empty (processors : list cpu_t.t) (processor : cpu_t.t) :
  cpuinfo_line stoi [] processors processor
  = Ret (processors ++ [processor], cpu_t_zero).
Proof. reflexivity. Qed.

Lemma cpuinfo_line_no_colon (line : list Ascii.ascii) (processors : list cpu_t.t)
    (processor : cpu_t.t) :
  line <> [] -> colon ∉ line ->
  cpuinfo_line stoi line processors processor = Throw "can't parse /proc/cpuinfo".
Proof.
  intros Hne Hc. unfold cpuinfo_line.
  rewrite decide_False by exact Hne.
  unfold find. rewrite (find_from_absent _ _ _ Hc). reflexivity.
Qed.

(** A line that is not empty and is taken without an exception has a colon
    and leaves the vector as it is. *)
Lemma cpuinfo_line_attribute (line : list Ascii.ascii) (processors : list cpu_t.t)
    (processor : cpu_t.t) (st : list cpu_t.t * cpu_t.t) :
  line <> [] ->
  cpuinfo_line stoi line processors processor = Ret st ->
  colon ∈ line /\ st.1 = processors.
Proof.
  intros Hne Hst. unfold cpuinfo_line in Hst.
  rewrite decide_False in Hst by exact Hne.
  destruct (decide (colon ∈ line)) as [Hin|Hout].
  2:{ unfold find in Hst. rewrite (find_from_absent _ _ _ Hout) in Hst.
      discriminate. }
  split; [exact Hin|].
  destruct (find line colon =? npos); [discriminate|].
  apply and_then_Ret in Hst as (key & _ & Hst).
  apply and_then_Ret in Hst as (value & _ & Hst).
  repeat (destruct (decide _) in Hst;
          [try (apply and_then_Ret in Hst as (v & _ & Hst));
           injection Hst as <-; reflexivity|]).
  injection Hst as <-. reflexivity.
Qed.

Lemma cpuinfo_loop_lines (fuel : nat) (rest : list Ascii.ascii)
    (processors : list cpu_t.t) (processor : cpu_t.t) :
  (length rest < fuel)%nat ->
  cpuinfo_loop stoi fuel rest processors processor
  = and_then (cpuinfo_lines stoi (split rest newline) processors processor)
             (fun st => Ret st.1).
Proof.
  revert rest processors processor.
  induction fuel as [|fuel IH]; intros rest processors processor Hf; [lia|].
  rewrite split_unfold. cbn [cpuinfo_loop].
  destruct rest as [|c rest]; [reflexivity|]. cbn [getline].
  pose proof (getline_from_spec newline (c :: rest)) as [_ Hcase].
  destruct (getline_from newline (c :: rest)) as [line r]. simpl in Hcase.
  assert (Hr : (length r < fuel)%nat).
  { simpl in Hf. destruct Hcase as [E|[E ->]].
    - apply (f_equal length) in E. rewrite length_app in E. simpl in E. lia.
    - simpl. lia. }
  cbn [cpuinfo_lines].
  destruct (cpuinfo_line stoi line processors processor) as [[ps p]|s|w|];
    try reflexivity.
  simpl. apply IH, Hr.
Qed.

(** X8: the loop of [cpuinfo] is the body run on the lines of the file in
    order, the lines being what [split] at the line feed gives: a line feed
    at the very end starts no further line, and an empty or unreadable file
    gives an empty vector. *)
Theorem cpuinfo_reads_lines (content : list Ascii.ascii)
    (id0 family0 model0 core_id0 : Z) :
  cpuinfo_parse stoi content id0 family0 model0 core_id0
  = and_then
      (cpuinfo_lines stoi (split content newline) []
         (cpu_t.mk id0 family0 model0 core_id0 ∅))
      (fun st => Ret st.1)
  /\ cpuinfo_parse stoi [] id0 family0 model0 core_id0 = Ret [].
Proof.
  split; [|reflexivity].
  unfold cpuinfo_parse. apply cpuinfo_loop_lines. lia.
Qed.

Lemma cpuinfo_lines_count (lines : list (list Ascii.ascii)) :
  forall processors processor st,
  cpuinfo_lines stoi lines processors processor = Ret st ->
  length st.1 = (length processors + length (filter (fun line => line = []) lines))%nat
  /\ Forall (fun line => line = [] \/ colon ∈ line) lines.
Proof.
  induction lines as [|line lines IH]; intros processors processor st Hst.
  - injection Hst as <-. simpl. split; [lia|constructor].
  - cbn [cpuinfo_lines] in Hst.
    apply and_then_Ret in Hst as ([ps p] & Hline & Hst).
    apply IH in Hst as [Hlen Hall]. simpl in Hlen.
    rewrite filter_cons. destruct (decide (line = [])) as [->|Hne].
    + rewrite cpuinfo_line_empty in Hline. injection Hline as <- <-.
      rewrite length_app in Hlen. simpl in *. split; [lia|].
      constructor; [left; reflexivity|exact Hall].
    + apply cpuinfo_line_attribute in Hline as [Hc Hps]; [|exact Hne].
      simpl in Hps. subst ps. split; [exact Hlen|].
      constructor; [right; exact Hc|exact Hall].
Qed.

(** X9: when [cpuinfo] returns, it returns one record for every empty line
    of the file, so the attributes after the last empty line are dropped;
    and every line that is not empty has a colon. *)
Theorem cpuinfo_records (content : list Ascii.ascii)
    (id0 family0 model0 core_id0 : Z) (cpus : list cpu_t.t) :
  cpuinfo_parse stoi content id0 family0 model0 core_id0 = Ret cpus ->
  length cpus
  = length (filter (fun line => line = []) (split content newline))
  /\ Forall (fun line => line = [] \/ colon ∈ line) (split content newline).
Proof.
  intros Hret. unfold cpuinfo_parse in Hret.
  rewrite cpuinfo_loop_lines in Hret by lia.
  apply and_then_Ret in Hret as (st & Hlines & Hst).
  injection Hst as <-.
  apply cpuinfo_lines_count in Hlines. simpl in Hlines. exact Hlines.
Qed.

(** X10: a line that is not empty and has no colon makes [cpuinfo] throw
    "can't parse /proc/cpuinfo", whatever follows it, provided the lines
    before it were taken. *)
Theorem cpuinfo_missing_colon (content : list Ascii.ascii)
    (id0 family0 model0 core_id0 : Z)
    (good : list (list Ascii.ascii)) (bad : list Ascii.ascii) (rest : list (list Ascii.ascii))
    (st : list cpu_t.t * cpu_t.t) :
  split content newline = good ++ bad :: rest ->
  cpuinfo_lines stoi good [] (cpu_t.mk id0 family0 model0 core_id0 ∅) = Ret st ->
  bad <> [] -> colon ∉ bad ->
  cpuinfo_parse stoi content id0 family0 model0 core_id0
  = Throw "can't parse /proc/cpuinfo".
Proof.
  intros Hsplit Hgood Hne Hc. unfold cpuinfo_parse.
  rewrite cpuinfo_loop_lines by lia. rewrite Hsplit.
  assert (Happ : forall ls ps p st',
            cpuinfo_lines stoi ls ps p = Ret st' ->
            cpuinfo_lines stoi (ls ++ bad :: rest) ps p
            = Throw "can't parse /proc/cpuinfo").
  { induction ls as [|l ls IH]; intros ps p st' Hls.
    - simpl. rewrite (cpuinfo_line_no_colon bad ps p Hne Hc). reflexivity.
    - cbn [cpuinfo_lines app] in *.
      apply and_then_Ret in Hls as ([ps' p'] & Hl & Hls).
      rewrite Hl. simpl. eapply IH, Hls. }
  rewrite (Happ _ _ _ _ Hgood). reflexivity.
Qed.

Lemma find_from_first (c : Ascii.ascii) (k v : list Ascii.ascii) (i : Z) :
  c ∉ k -> find_from c (k ++ c :: v) i = i + Z.of_nat (length k).
Proof.
  revert i. induction k as [|x k IH]; intros i Hc.
  - simpl. rewrite Ascii.eqb_refl. lia.
  - apply not_elem_of_cons in Hc as [Hne Hc]. cbn [app find_from].
    destruct (Ascii.eqb_spec x c) as [->|_]; [congruence|].
    rewrite (IH _ Hc). cbn [length]. lia.
Qed.

(** The two halves of an attribute line. *)
Lemma attribute_halves (k v : list Ascii.ascii) :
  colon ∉ k -> Z.of_nat (length (k ++ colon :: v)) < npos ->
  find (k ++ colon :: v) colon = Z.of_nat (length k)
  /\ substr (k ++ colon :: v) 0 (Z.of_nat (length k)) = Ret k
  /\ substr (k ++ colon :: v) (Z.of_nat (length k) + 1) npos = Ret v.
Proof.
  intros Hc Hlen. rewrite length_app in Hlen. cbn [length] in Hlen.
  split; [unfold find; rewrite (find_from_first _ _ _ _ Hc); lia|].
  unfold substr. rewrite length_app. cbn [length]. split.
  - destruct (Z.ltb_spec (Z.of_nat (length k + S (length v))) 0); [lia|].
    f_equal. simpl drop.
    replace (Z.to_nat (Z.min _ _)) with (length k) by lia.
    apply take_app_length.
  - destruct (Z.ltb_spec (Z.of_nat (length k + S (length v)))
                (Z.of_nat (length k) + 1)); [lia|].
    f_equal.
    replace (Z.to_nat (Z.of_nat (length k) + 1)) with (length (k ++ [colon]))
      by (rewrite length_app; simpl; lia).
    replace (k ++ colon :: v) with ((k ++ [colon]) ++ v)
      by (rewrite <- app_assoc; reflexivity).
    rewrite drop_app_length. apply take_ge. unfold npos in *. lia.
Qed.

Lemma fold_left_insert (tokens : list (list Ascii.ascii)) (flags : gset string) :
  fold_left (fun flags flag => flags ∪ {[ String.string_of_list_ascii flag ]})
    tokens flags
  = flags ∪ list_to_set (String.string_of_list_ascii <$> tokens).
Proof.
  revert flags. induction tokens as [|t tokens IH]; intros flags.
  - simpl. rewrite (right_id_L ∅ (∪)). reflexivity.
  - cbn [fold_left]. rewrite IH, fmap_cons, list_to_set_cons.
    rewrite (assoc_L (∪)). reflexivity.
Qed.

(** X11: a line whose key, the text before the first colon without the blanks
    around it, is [flags] adds to the record the words of its value, the
    text after that colon split at the spaces, and changes nothing else; so
    the record has a flag after the line exactly when it had it before or
    the flag is one of these words. *)
Theorem cpuinfo_line_flags (k v value : list Ascii.ascii)
    (processors : list cpu_t.t) (processor : cpu_t.t) (flag : string) :
  colon ∉ k -> Z.of_nat (length (k ++ colon :: v)) < npos ->
  trim k = Ret (text "flags") -> trim v = Ret value ->
  exists flags,
    cpuinfo_line stoi (k ++ colon :: v) processors processor
    = Ret (processors,
           cpu_t.mk (cpu_t.id processor) (cpu_t.cpu_family processor)
                    (cpu_t.model processor) (cpu_t.core_id processor) flags)
    /\ (flag ∈ flags
        <-> flag ∈ cpu_t.flags processor
            \/ exists word, word ∈ split value space
                            /\ flag = String.string_of_list_ascii word).
Proof.
  intros Hc Hlen Hk Hv.
  destruct (attribute_halves k v Hc Hlen) as (Hfind & Hkey & Hval).
  eexists. split.
  - unfold cpuinfo_line.
    rewrite decide_False by (destruct k; discriminate).
    rewrite Hfind.
    destruct (Z.eqb_spec (Z.of_nat (length k)) npos) as [E|_].
    { rewrite length_app in Hlen. lia. }
    rewrite Hkey, Hval. cbn [and_then]. rewrite Hk, Hv. cbn [and_then].
    rewrite decide_False by discriminate.
    rewrite decide_False by discriminate.
    rewrite decide_False by discriminate.
    rewrite decide_False by discriminate.
    rewrite decide_True by reflexivity.
    rewrite fold_left_insert. reflexivity.
  - rewrite elem_of_union, elem_of_list_to_set, list_elem_of_fmap.
    split; (intros [H|(w & H1 & H2)]; [left; exact H|right; exists w; auto]).
Qed.

(** X12: a line whose key is [core id] stores what [stoi] makes of its value
    as the core id and changes nothing else; when [stoi] throws, so does
    [cpuinfo]. *)
Theorem cpuinfo_line_core_id (k v value : list Ascii.ascii)
    (processors : list cpu_t.t) (processor : cpu_t.t) :
  colon ∉ k -> Z.of_nat (length (k ++ colon :: v)) < npos ->
  trim k = Ret (text "core id") -> trim v = Ret value ->
  cpuinfo_line stoi (k ++ colon :: v) processors processor
  = match stoi value with
    | Ret n =>
        Ret (processors,
             cpu_t.mk (cpu_t.id processor) (cpu_t.cpu_family processor)
                      (cpu_t.model processor) n (cpu_t.flags processor))
    | Exit status => Exit status
    | Throw what => Throw what
    | Undefined => Undefined
    end.
Proof.
  intros Hc Hlen Hk Hv.
  destruct (attribute_halves k v Hc Hlen) as (Hfind & Hkey & Hval).
  unfold cpuinfo_line.
  rewrite decide_False by (destruct k; discriminate).
  rewrite Hfind.
  destruct (Z.eqb_spec (Z.of_nat (length k)) npos) as [E|_].
  { rewrite length_app in Hlen. lia. }
  rewrite Hkey, Hval. cbn [and_then]. rewrite Hk, Hv. cbn [and_then].
  rewrite decide_True by reflexivity.
  destruct (stoi value); reflexivity.
Qed.
End CpuinfoFacts.

(** * Startup *)

Section Startup.
Context {K : Type} `{Machine K}.

(** X13: [rdtsc] puts [edx] above [eax]: for 32-bit register values the
    result is [edx * 2^32 + eax], a 64-bit value whose halves are the two
    registers. *)
Theorem rdtsc_combines (k k' : K) (eax edx : Z) :
  insn_rdtsc k = ((eax, edx), k') ->
  0 <= eax < 2 ^ 32 -> 0 <= edx < 2 ^ 32 ->
  rdtsc k = ([EvRdtsc eax edx], k', Ret (edx * 2 ^ 32 + eax))
  /\ 0 <= edx * 2 ^ 32 + eax < 2 ^ 64
  /\ bit_slice (edx * 2 ^ 32 + eax) 31 0 = eax
  /\ bit_slice (edx * 2 ^ 32 + eax) 63 32 = edx.
Proof.
  intros Hinsn Heax Hedx.
  assert (Hlor : Z.lor (wrap64 (Z.shiftl edx 32)) eax = edx * 2 ^ 32 + eax).
  { unfold wrap64. rewrite Z.shiftl_mul_pow2 by lia.
    rewrite Z.mod_small by lia.
    rewrite <- Z.shiftl_mul_pow2 by lia.
    rewrite Z.or_to_plus; [reflexivity|].
    apply Z.bits_inj'; intros i Hi. rewrite Z.land_spec, Z.testbit_0_l.
    destruct (Z.ltb_spec i 32) as [Hlt|Hge].
    - rewrite Z.shiftl_spec_low by lia. reflexivity.
    - rewrite (Z.bits_above_log2 eax i), andb_false_r; [reflexivity|lia|].
      destruct (Z.eq_dec eax 0) as [->|Hne]; [simpl; lia|].
      apply Z.log2_lt_pow2; [lia|].
      apply Z.lt_le_trans with (2 ^ 32); [lia|apply Z.pow_le_mono_r; lia]. }
  split; [|split; [lia|split]].
  - unfold rdtsc. rewrite Hinsn, Hlor. reflexivity.
  - unfold bit_slice. rewrite Z.pow_0_r, Z.div_1_r.
    change (31 - 0 + 1) with 32.
    rewrite Z.add_comm, Z.mod_add by lia. apply Z.mod_small. lia.
  - unfold bit_slice. change (63 - 32 + 1) with 32.
    rewrite Z.div_add_l by lia. rewrite (Z.div_small eax) by lia.
    rewrite Z.add_0_r. apply Z.mod_small. lia.
Qed.

Lemma pmc_slot (j : Z) :
  0 <= j < 8 -> IA32_PMC !! Z.to_nat j = Some (0xc1 + j).
Proof.
  intros Hj.
  assert (Hc : j = 0 \/ j = 1 \/ j = 2 \/ j = 3 \/ j = 4 \/ j = 5 \/ j = 6 \/ j = 7) by lia.
  repeat (destruct Hc as [->|Hc]; [reflexivity|]). subst j. reflexivity.
Qed.

Lemma reset_port_run (info : pmc_info_t) (core_msrs : list (list msr_t))
    (c i : Z) (k : K) :
  0 < num_pmc_per_thread info ->
  0 <= c < Z.of_nat (length core_msrs) ->
  0 <= i < port_count ->
  i / num_pmc_per_thread info
    < Z.of_nat (length (nth (Z.to_nat c) core_msrs [])) ->
  Forall (Forall (fun m => forall buf offset k0,
                    (sys_pwrite (fd m) buf offset k0).1 = 8)) core_msrs ->
  exists k',
    reset_port info core_msrs c i k
    = ([pmc_zero_write info core_msrs c i], k', Ret tt).
Proof.
  intros Hn Hc Hi Hfit Hacc.
  set (n := num_pmc_per_thread info) in *.
  assert (Hdiv : 0 <= i / n) by (apply Z.div_pos; lia).
  assert (Hmod : 0 <= i mod n < n) by (apply Z.mod_pos_bound; lia).
  assert (Hmodi : i mod n <= i) by (apply Z.mod_le; lia).
  assert (Hpc : port_count = 6) by reflexivity.
  eexists. unfold reset_port. fold n.
  run_step ltac:(apply udiv_run; lia).
  run_step ltac:(apply umod_run; lia).
  run_step ltac:(apply index_run; [lia|apply (lookup_nth _ _ []); lia]).
  run_step ltac:(apply index_run; [lia|apply (lookup_nth _ _ (mk_msr (-1))); lia]).
  run_step ltac:(apply index_run; [lia|apply pmc_slot; lia]).
  rewrite wrmsr_accepted.
  2:{ rewrite (Forall_nth _ []) in Hacc.
      specialize (Hacc (Z.to_nat c) ltac:(lia)).
      rewrite (Forall_nth _ (mk_msr (-1))) in Hacc.
      apply (Hacc (Z.to_nat (i / n))). lia. }
  reflexivity.
Qed.

(** The feasibility of one core, from the feasibility of all. *)
Lemma core_fits (info : pmc_info_t) (core_msrs : list (list msr_t)) (c i : Z) :
  0 < num_pmc_per_thread info ->
  Forall (fun msrs => (port_count - 1) / num_pmc_per_thread info
                      < Z.of_nat (length msrs)) core_msrs ->
  0 <= c < Z.of_nat (length core_msrs) -> 0 <= i < port_count ->
  i / num_pmc_per_thread info
    < Z.of_nat (length (nth (Z.to_nat c) core_msrs [])).
Proof.
  intros Hn Hfit Hc Hi.
  rewrite (Forall_nth _ []) in Hfit.
  specialize (Hfit (Z.to_nat c) ltac:(lia)). simpl in Hfit.
  assert (i / num_pmc_per_thread info <= (port_count - 1) / num_pmc_per_thread info)
    by (apply Z.div_le_mono; lia).
  lia.
Qed.

Lemma main_configure_run (info : pmc_info_t) (core_msrs : list (list msr_t))
    (k : K) :
  0 < num_pmc_per_thread info ->
  Forall (fun msrs => (port_count - 1) / num_pmc_per_thread info
                      < Z.of_nat (length msrs)) core_msrs ->
  Forall (Forall (fun m => forall buf offset k0,
                    (sys_pwrite (fd m) buf offset k0).1 = 8)) core_msrs ->
  exists k',
    main_configure info (Z.of_nat (length core_msrs)) core_msrs k
    = (concat (map (fun c => map (evtsel_write info core_msrs c) (seqZ 0 port_count))
                   (seqZ 0 (Z.of_nat (length core_msrs)))),
       k', Ret tt).
Proof.
  intros Hn Hfit Hacc. unfold main_configure.
  apply for_each_run. intros c Hc k0. apply elem_of_seqZ in Hc.
  rewrite <- concat_map_singleton.
  apply for_each_run. intros i Hi k1. apply elem_of_seqZ in Hi.
  apply configure_port_run; auto; try lia.
  apply core_fits; auto; lia.
Qed.

(** A loop whose body changes a variable by a function of the element. *)
Lemma fold_each_step {A S} (l : list A) (body : A -> S -> M K S)
    (out : A -> list io_event) (step : S -> A -> S) (Inv : S -> Prop) :
  (forall x s k, x ∈ l -> Inv s ->
     exists k', body x s k = (out x, k', Ret (step s x)) /\ Inv (step s x)) ->
  forall s k, Inv s ->
    exists k', fold_each l s body k
               = (concat (map out l), k', Ret (fold_left step l s)).
Proof.
  induction l as [|x l IH]; intros Hb s k Hs; simpl.
  - exists k. reflexivity.
  - destruct (Hb x s k ltac:(left) Hs) as (k1 & Hx & Hs1).
    destruct (IH (fun y s' k' Hy => Hb y s' k' ltac:(right; exact Hy))
                 (step s x) k1 Hs1) as [k2 Hl].
    exists k2. rewrite (bind_Ret _ _ _ _ _ _ Hx), Hl. reflexivity.
Qed.

Lemma fill_rows (row : list Z) (j : nat) (values : list (list Z)) :
  (j <= length values)%nat ->
  fold_left (fun vs c => <[Z.to_nat c := row]> vs) (seqZ 0 (Z.of_nat j)) values
  = replicate j row ++ drop j values.
Proof.
  induction j as [|j IH]; intros Hj.
  - simpl. rewrite drop_0. reflexivity.
  - replace (Z.of_nat (S j)) with (Z.of_nat j + 1) by lia.
    rewrite seqZ_app by lia. rewrite fold_left_app, IH by lia. simpl.
    replace (Z.to_nat (Z.of_nat 0 + (0 + Z.of_nat j))) with j by lia.
    rewrite insert_app_r_alt by (rewrite length_replicate; lia).
    rewrite length_replicate, Nat.sub_diag.
    destruct (lookup_lt_is_Some_2 values j ltac:(lia)) as [v Hv].
    rewrite (drop_S _ _ _ Hv). simpl.
    rewrite app_comm_cons, replicate_cons_app, <- app_assoc. reflexivity.
Qed.

(** The run of reset. *)
Lemma reset_writes_run (info : pmc_info_t) (core_msrs : list (list msr_t))
    (k : K) :
  0 < num_pmc_per_thread info ->
  Forall (fun msrs => (port_count - 1) / num_pmc_per_thread info
                      < Z.of_nat (length msrs)) core_msrs ->
  Forall (Forall (fun m => forall buf offset k0,
                    (sys_pwrite (fd m) buf offset k0).1 = 8)) core_msrs ->
  exists k',
    main_reset info (Z.of_nat (length core_msrs)) core_msrs k
    = (concat (map (fun c => map (pmc_zero_write info core_msrs c) (seqZ 0 port_count))
                   (seqZ 0 (Z.of_nat (length core_msrs)))),
       k',
       Ret (replicate (length core_msrs) (replicate (Z.to_nat port_count) 0))).
Proof.
  intros Hn Hfit Hacc. unfold main_reset.
  set (n := length core_msrs).
  set (zeros := replicate (Z.to_nat port_count) 0).
  destruct (fold_each_step (seqZ 0 (Z.of_nat n))
              (fun core_id values =>
                 for_each (seqZ 0 port_count)
                   (fun i => reset_port info core_msrs core_id i) ;;
                 _ <- index values core_id ;;
                 ret (<[Z.to_nat core_id := zeros]> values))
              (fun c => map (pmc_zero_write info core_msrs c) (seqZ 0 port_count))
              (fun vs c => <[Z.to_nat c := zeros]> vs)
              (fun vs => length vs = n))
    with (s := replicate (Z.to_nat (Z.of_nat n)) ([] : list Z)) (k := k)
    as [k' Hrun].
  - intros c values k0 Hc Hlen. apply elem_of_seqZ in Hc.
    destruct (for_each_run (seqZ 0 port_count)
                (fun i => reset_port info core_msrs c i)
                (fun i => [pmc_zero_write info core_msrs c i])) with (k := k0)
      as [k1 Hinner].
    { intros i Hi k1. apply elem_of_seqZ in Hi.
      apply reset_port_run; auto; try (fold n; lia).
      apply core_fits; auto; fold n; lia. }
    rewrite concat_map_singleton in Hinner.
    destruct (lookup_lt_is_Some_2 values (Z.to_nat c) ltac:(lia)) as [row Hrow].
    exists k1. split; [|rewrite length_insert; exact Hlen].
    rewrite <- (app_nil_r (map _ _)).
    run_step ltac:(exact Hinner).
    run_step ltac:(apply index_run; [lia|exact Hrow]).
    reflexivity.
  - rewrite length_replicate. lia.
  - exists k'. rewrite Hrun. do 2 f_equal.
    rewrite fill_rows by (rewrite length_replicate; lia).
    rewrite drop_ge by (rewrite length_replicate; lia).
    apply app_nil_r.
Qed.

(** X14: reset zeroes, for every core and every event index i, once the
    counter register of slot [i mod n] on the logical processor at offset
    [i / n], in the order of configure: as many writes of eight zero bytes
    as there are cores times ports, and nothing else.  It leaves a row of
    [port_count] zeroes per core as the previous values. *)
Theorem reset_writes (info : pmc_info_t) (core_msrs : list (list msr_t))
    (k : K) :
  0 < num_pmc_per_thread info ->
  Forall (fun msrs => (port_count - 1) / num_pmc_per_thread info
                      < Z.of_nat (length msrs)) core_msrs ->
  Forall (Forall (fun m => forall buf offset k0,
                    (sys_pwrite (fd m) buf offset k0).1 = 8)) core_msrs ->
  let writes :=
    concat (map (fun c => map (pmc_zero_write info core_msrs c) (seqZ 0 port_count))
                (seqZ 0 (Z.of_nat (length core_msrs)))) in
  trace (main_reset info (Z.of_nat (length core_msrs)) core_msrs k) = writes
  /\ result (main_reset info (Z.of_nat (length core_msrs)) core_msrs k)
     = Ret (replicate (length core_msrs) (replicate (Z.to_nat port_count) 0))
  /\ Z.of_nat (length writes) = Z.of_nat (length core_msrs) * port_count
  /\ Forall (fun e => exists fildes offset,
                e = EvPwrite fildes (replicate 8 Byte.x00) offset 8
                /\ 0xc1 <= offset < 0xc1 + num_pmc_per_thread info) writes.
Proof.
  intros Hn Hfit Hacc writes.
  destruct (reset_writes_run info core_msrs k Hn Hfit Hacc) as [k' Hrun].
  rewrite Hrun. split; [reflexivity|]. split; [reflexivity|]. split.
  - unfold writes.
    rewrite (length_concat_uniform _ _ (Z.to_nat port_count)).
    + rewrite length_seqZ. unfold port_count. lia.
    + intros c. rewrite length_map, length_seqZ. reflexivity.
  - unfold writes. apply Forall_concat, Forall_map, Forall_forall.
    intros c _. apply Forall_map, Forall_forall. intros i _. simpl.
    eexists _, _. split; [reflexivity|].
    pose proof (Z.mod_pos_bound i (num_pmc_per_thread info) Hn). lia.
Qed.
End Startup.

(** * The whole of startup *)

Section Sequence.
Context {K : Type} `{Machine K}.

(** The loop that opens the register files, with what is known of every
    descriptor that [open] returns. *)
Lemma open_loop_descriptors (P : Z -> Prop) (cpus : list cpu_t.t) :
  (forall path k, P (sys_open path k).1) ->
  forall (acc : list (list msr_t)) (k : K),
  Forall (fun cpu => 0 <= cpu_t.core_id cpu < Z.of_nat (length acc)) cpus ->
  Forall (Forall (fun m => P (fd m))) acc ->
  exists fds k1 acc',
    length fds = length cpus
    /\ Forall P fds
    /\ fold_each cpus acc
         (fun cpu core_msrs =>
            _ <- index core_msrs (cpu_t.core_id cpu) ;;
            m <- open_msr cpu ;;
            ret (alter (fun v => v ++ [m]) (Z.to_nat (cpu_t.core_id cpu)) core_msrs))
         k
       = (zip_with open_event cpus fds, k1, Ret acc')
    /\ length acc' = length acc
    /\ Forall (Forall (fun m => P (fd m))) acc'
    /\ forall c, 0 <= c ->
         length (nth (Z.to_nat c) acc' [])
         = (length (nth (Z.to_nat c) acc []) + length (members cpus c))%nat.
Proof.
  intros HP. induction cpus as [|cpu cpus IH]; intros acc k Hall Hacc.
  - exists [], k, acc. repeat split; auto.
  - apply Forall_cons in Hall as [Hcpu Hall].
    set (path := "/dev/cpu/" +:+ pretty (cpu_t.id cpu) +:+ "/msr").
    set (r := sys_open path k).
    set (acc1 := alter (fun v => v ++ [mk_msr r.1]) (Z.to_nat (cpu_t.core_id cpu)) acc).
    assert (Hlen1 : length acc1 = length acc) by apply length_alter.
    assert (Hacc1 : Forall (Forall (fun m => P (fd m))) acc1).
    { unfold acc1. apply Forall_alter; [exact Hacc|].
      intros msrs _ Hmsrs. apply Forall_app. split; [exact Hmsrs|].
      repeat constructor. apply HP. }
    destruct (IH acc1 r.2 ltac:(rewrite Hlen1; exact Hall) Hacc1)
      as (fds & k1 & acc' & Hfds & HPfds & Hrun & Hlen & HPacc & Hcount).
    exists (r.1 :: fds), k1, acc'. split; [simpl; lia|].
    split; [constructor; [apply HP|exact HPfds]|]. split; [|split; [lia|split]].
    + cbn [fold_each].
      match goal with
      | |- bind ?m _ k = _ =>
          assert (Hbody : m k = ([open_event cpu r.1], r.2, Ret acc1))
      end.
      { run_step ltac:(apply index_run; [lia|apply (lookup_nth _ _ []); lia]).
        run_step ltac:(apply msr_open_run).
        reflexivity. }
      rewrite (bind_Ret _ _ _ _ _ _ Hbody), Hrun. reflexivity.
    + exact HPacc.
    + intros c Hc. rewrite (Hcount c Hc), members_cons.
      unfold acc1. rewrite !nth_lookup.
      destruct (decide (cpu_t.core_id cpu = c)) as [E|Hne].
      * rewrite E, list_lookup_alter. case_decide; [|congruence].
        destruct (lookup_lt_is_Some_2 acc (Z.to_nat c)) as [v Hv]; [lia|].
        rewrite Hv. simpl. rewrite length_app. simpl. lia.
      * rewrite list_lookup_alter_ne by lia. lia.
Qed.

(** [main_open] with what is known of the descriptors. *)
Lemma main_open_descriptors (P : Z -> Prop) (cpus : list cpu_t.t) (k : K) :
  (forall path k0, P (sys_open path k0).1) ->
  Forall (fun cpu => 0 <= cpu_t.core_id cpu) cpus ->
  exists fds k1 core_msrs,
    length fds = length cpus
    /\ Forall P fds
    /\ main_open (max_core_id cpus + 1) cpus k
       = (zip_with open_event cpus fds, k1, Ret core_msrs)
    /\ Z.of_nat (length core_msrs) = max_core_id cpus + 1
    /\ Forall (Forall (fun m => P (fd m))) core_msrs
    /\ forall c, 0 <= c ->
         length (nth (Z.to_nat c) core_msrs []) = length (members cpus c).
Proof.
  intros HP Hnn.
  pose proof (max_core_id_pos cpus) as Hpos.
  destruct (open_loop_descriptors P cpus HP
              (replicate (Z.to_nat (max_core_id cpus + 1)) []) k)
    as (fds & k1 & core_msrs & Hfds & HPfds & Hrun & Hlen & HPacc & Hcount).
  { rewrite length_replicate. apply Forall_forall. intros cpu Hin.
    rewrite Forall_forall in Hnn. specialize (Hnn cpu Hin).
    pose proof (max_core_id_bound cpus cpu Hin). lia. }
  { apply Forall_replicate. constructor. }
  rewrite length_replicate in Hlen.
  exists fds, k1, core_msrs.
  split; [exact Hfds|]. split; [exact HPfds|]. split; [exact Hrun|].
  split; [lia|]. split; [exact HPacc|].
  intros c Hc. rewrite (Hcount c Hc), nth_lookup.
  destruct (replicate _ _ !! Z.to_nat c) as [v|] eqn:E; [|reflexivity].
  apply lookup_replicate in E as [-> _]. reflexivity.
Qed.

Lemma main_startup_split (k : K) :
  main_startup k
  = (info <- main_probe ;;
     main_gate info ;;
     cpus <- main_topology ;;
     n_cores <- num_cores cpus ;;
     core_msrs <- main_open n_cores cpus ;;
     main_configure info n_cores core_msrs ;;
     values <- main_reset info n_cores core_msrs ;;
     tsc0 <- rdtsc ;;
     ret (info, n_cores, core_msrs, (tsc0, values))) k.
Proof. reflexivity. Qed.

(** X15: the order of startup when everything fits: the report, one [open]
    per logical processor, all the event-select writes, all the zeroing
    writes, and only then the first time stamp; the loop starts from a table
    of zeroes.  Every core needs a logical processor at each offset, every
    [open] has to give a descriptor and every write to be taken; the core
    ids are not negative and below [INT_MAX], so that line 302 does not
    overflow. *)
Theorem startup_sequence (k : K) (cpus : list cpu_t.t) (cpu0 : cpu_t.t) :
  supported ->
  proc_cpuinfo = Some cpus ->
  cpus !! 0%nat = Some cpu0 ->
  "constant_tsc" ∈ cpu_t.flags cpu0 ->
  Forall (fun cpu => 0 <= cpu_t.core_id cpu < INT_MAX) cpus ->
  0 < num_pmc_per_thread (pmcinfo (cpuid 0x0a)) ->
  (forall c, 0 <= c < max_core_id cpus + 1 ->
     (port_count - 1) / num_pmc_per_thread (pmcinfo (cpuid 0x0a))
     < Z.of_nat (length (members cpus c))) ->
  (forall path k0, 0 <= (sys_open path k0).1) ->
  (forall fildes buf offset k0,
     0 <= fildes -> (sys_pwrite fildes buf offset k0).1 = 8) ->
  let info := pmcinfo (cpuid 0x0a) in
  exists fds core_msrs k' eax edx,
    length fds = length cpus
    /\ main_startup k
       = (trace (main_probe k)
            ++ zip_with open_event cpus fds
            ++ concat (map (fun c => map (evtsel_write info core_msrs c)
                                         (seqZ 0 port_count))
                           (seqZ 0 (max_core_id cpus + 1)))
            ++ concat (map (fun c => map (pmc_zero_write info core_msrs c)
                                         (seqZ 0 port_count))
                           (seqZ 0 (max_core_id cpus + 1)))
            ++ [EvRdtsc eax edx],
          k',
          Ret (info, max_core_id cpus + 1, core_msrs,
               (Z.lor (wrap64 (Z.shiftl edx 32)) eax,
                replicate (Z.to_nat (max_core_id cpus + 1))
                          (replicate (Z.to_nat port_count) 0)))).
Proof.
  intros Hs Hinfo H0 Hflag Hall Hn Hfit Hopen Hwrite info.
  assert (Hnn : Forall (fun cpu => 0 <= cpu_t.core_id cpu) cpus)
    by (eapply Forall_impl; [exact Hall|]; simpl; lia).
  assert (Hmax : Forall (fun cpu => cpu_t.core_id cpu < INT_MAX) cpus)
    by (eapply Forall_impl; [exact Hall|]; simpl; lia).
  destruct (main_open_descriptors (fun r => 0 <= r) cpus k Hopen Hnn)
    as (fds & k1 & core_msrs & Hfds & _ & Hrun & Hlen & Hdesc & Hcount).
  assert (Hfit' : Forall (fun msrs => (port_count - 1) / num_pmc_per_thread info
                                      < Z.of_nat (length msrs)) core_msrs).
  { apply (Forall_nth _ []). intros c Hc.
    rewrite <- (Nat2Z.id c), Hcount by lia. apply Hfit. lia. }
  assert (Hacc : Forall (Forall (fun m => forall buf offset k0,
                   (sys_pwrite (fd m) buf offset k0).1 = 8)) core_msrs).
  { eapply Forall_impl; [exact Hdesc|]. intros msrs Hmsrs.
    eapply Forall_impl; [exact Hmsrs|]. intros m Hm buf offset k0.
    apply Hwrite, Hm. }
  destruct (main_configure_run info core_msrs k1 Hn Hfit' Hacc) as [k2 Hconf].
  destruct (reset_writes_run info core_msrs k2 Hn Hfit' Hacc) as [k3 Hreset].
  rewrite Hlen in Hconf, Hreset.
  destruct (insn_rdtsc k3) as [[eax edx] k4] eqn:Htsc.
  exists fds, core_msrs, k4, eax, edx. split; [exact Hfds|].
  rewrite main_startup_split.
  run_step ltac:(apply main_probe_run).
  run_step ltac:(apply main_gate_pass; exact Hs).
  run_step ltac:(eapply main_topology_pass; eassumption).
  run_step ltac:(apply num_cores_run; exact Hmax).
  run_step ltac:(exact Hrun).
  run_step ltac:(exact Hconf).
  run_step ltac:(exact Hreset).
  unfold bind, rdtsc. rewrite Htsc. simpl.
  rewrite <- Hlen, Nat2Z.id. reflexivity.
Qed.
End Sequence.

(** * Startup that goes wrong *)

Section Failures.
Context {K : Type} `{Machine K}.

Lemma bind_Throw {A B} (m : M K A) (f : A -> M K B) k t k1 w :
  m k = (t, k1, Throw w) -> bind m f k = (t, k1, Throw w).
Proof. intros Hm. unfold bind. rewrite Hm. reflexivity. Qed.

Lemma zip_open_constant (cpus : list cpu_t.t) (fds : list Z) (r : Z) :
  length fds = length cpus -> Forall (fun x => x = r) fds ->
  zip_with open_event cpus fds = map (fun cpu => open_event cpu r) cpus.
Proof.
  revert fds. induction cpus as [|cpu cpus IH]; intros [|x fds] Hlen Hall;
    try discriminate; [reflexivity|].
  apply Forall_cons in Hall as [-> Hall]. simpl. f_equal.
  apply IH; [simpl in Hlen; lia|exact Hall].
Qed.

(** X16: a register file that cannot be opened is not noticed when it is
    opened.  When every [open] fails, the program still goes through all of
    them and dies of the first event-select write on descriptor [-1] with
    "failed write".  For there to be a first write, the part has at least
    one counter and core 0 a logical processor; the core ids are not
    negative and below [INT_MAX], so that line 302 does not overflow. *)
Theorem unopened_fails_at_write (n : nat) (k : K) (cpus : list cpu_t.t)
    (cpu0 : cpu_t.t) :
  supported ->
  proc_cpuinfo = Some cpus ->
  cpus !! 0%nat = Some cpu0 ->
  "constant_tsc" ∈ cpu_t.flags cpu0 ->
  Forall (fun cpu => 0 <= cpu_t.core_id cpu < INT_MAX) cpus ->
  0 < num_pmc_per_thread (pmcinfo (cpuid 0x0a)) ->
  members cpus 0 <> [] ->
  (forall path k0, (sys_open path k0).1 = -1) ->
  (forall buf offset k0, (sys_pwrite (-1) buf offset k0).1 = -1) ->
  exists k',
    main n k
    = (trace (main_probe k)
         ++ map (fun cpu => open_event cpu (-1)) cpus
         ++ [EvPwrite (-1) (le_split 8 (evtsel_value 0xa1 0x01)) 0x186 (-1)],
       k', Throw "failed write").
Proof.
  intros Hs Hinfo H0 Hflag Hall Hn Hmem Hopen Hwrite.
  assert (Hnn : Forall (fun cpu => 0 <= cpu_t.core_id cpu) cpus)
    by (eapply Forall_impl; [exact Hall|]; simpl; lia).
  assert (Hmax : Forall (fun cpu => cpu_t.core_id cpu < INT_MAX) cpus)
    by (eapply Forall_impl; [exact Hall|]; simpl; lia).
  destruct (main_open_descriptors (fun r => r = -1) cpus k Hopen Hnn)
    as (fds & k1 & core_msrs & Hfds & HPfds & Hrun & Hlen & Hdesc & Hcount).
  rewrite (zip_open_constant cpus fds (-1) Hfds HPfds) in Hrun.
  pose proof (max_core_id_pos cpus) as Hpos.
  set (info := pmcinfo (cpuid 0x0a)) in *.
  assert (Hrow : (0 < length (nth 0 core_msrs []))%nat).
  { change 0%nat with (Z.to_nat 0). rewrite (Hcount 0 ltac:(lia)).
    destruct (members cpus 0); [congruence|simpl; lia]. }
  destruct (nth 0 core_msrs []) as [|m msrs] eqn:Erow; [simpl in Hrow; lia|].
  assert (Hm : fd m = -1).
  { rewrite (Forall_nth _ []) in Hdesc.
    specialize (Hdesc 0%nat ltac:(lia)). rewrite Erow in Hdesc.
    apply Forall_cons in Hdesc as [Hm _]. exact Hm. }
  assert (Hlook : core_msrs !! 0%nat = Some (m :: msrs)).
  { rewrite <- Erow. apply lookup_nth. lia. }
  assert (Hport : configure_port info core_msrs 0 0 k1
                  = ([EvPwrite (-1) (le_split 8 (evtsel_value 0xa1 0x01)) 0x186 (-1)],
                     (sys_pwrite (-1) (le_split 8 (evtsel_value 0xa1 0x01)) 0x186 k1).2,
                     Throw "failed write")).
  { unfold configure_port.
    run_step ltac:(apply udiv_run; lia).
    run_step ltac:(apply umod_run; lia).
    run_step ltac:(apply index_run; [lia|reflexivity]).
    run_step ltac:(apply index_run; [lia|exact Hlook]).
    rewrite Z.div_0_l, Z.mod_0_l by lia.
    run_step ltac:(apply index_run; [lia|reflexivity]).
    run_step ltac:(apply index_run; [lia|reflexivity]).
    rewrite wrmsr_run, Hm.
    rewrite (port_config_value (mk_pmc_event_type 161 1)).
    change (evtsel_value (Z.land (event (mk_pmc_event_type 161 1)) 255)
              (Z.land (umask (mk_pmc_event_type 161 1)) 255))
      with (evtsel_value 0xa1 0x01).
    rewrite Hwrite. reflexivity. }
  eexists. rewrite main_split.
  run_step ltac:(apply main_probe_run).
  run_step ltac:(apply main_gate_pass; exact Hs).
  run_step ltac:(eapply main_topology_pass; eassumption).
  run_step ltac:(apply num_cores_run; exact Hmax).
  run_step ltac:(exact Hrun).
  unfold after_open. do 2 apply bind_Throw. unfold main_configure.
  replace (seqZ 0 (max_core_id cpus + 1)) with (0 :: seqZ 1 ((max_core_id cpus + 1) - 1))
    by (rewrite (seqZ_cons 0) by lia; reflexivity).
  change (seqZ 0 port_count) with (0 :: seqZ 1 5).
  cbn [for_each]. do 2 apply bind_Throw. exact Hport.
Qed.

(** X17: a part that reports no general-purpose counter at all passes the
    gate, which looks at the version only, all register files are opened,
    and configure then divides by zero.  The core ids are not negative and
    below [INT_MAX], so that line 302 does not overflow. *)
Theorem zero_counters_divide (n : nat) (k : K) (cpus : list cpu_t.t)
    (cpu0 : cpu_t.t) :
  supported ->
  proc_cpuinfo = Some cpus ->
  cpus !! 0%nat = Some cpu0 ->
  "constant_tsc" ∈ cpu_t.flags cpu0 ->
  Forall (fun cpu => 0 <= cpu_t.core_id cpu < INT_MAX) cpus ->
  num_pmc_per_thread (pmcinfo (cpuid 0x0a)) = 0 ->
  exists fds k',
    length fds = length cpus
    /\ main n k
       = (trace (main_probe k) ++ zip_with open_event cpus fds, k', Undefined).
Proof.
  intros Hs Hinfo H0 Hflag Hall Hzero.
  assert (Hnn : Forall (fun cpu => 0 <= cpu_t.core_id cpu) cpus)
    by (eapply Forall_impl; [exact Hall|]; simpl; lia).
  assert (Hmax : Forall (fun cpu => cpu_t.core_id cpu < INT_MAX) cpus)
    by (eapply Forall_impl; [exact Hall|]; simpl; lia).
  destruct (core_table_open cpus k Hnn) as (fds & k1 & core_msrs & Hfds & Hrun).
  pose proof (max_core_id_pos cpus) as Hpos.
  exists fds, k1. split; [exact Hfds|].
  rewrite main_split.
  run_step ltac:(apply main_probe_run).
  run_step ltac:(apply main_gate_pass; exact Hs).
  run_step ltac:(eapply main_topology_pass; eassumption).
  run_step ltac:(apply num_cores_run; exact Hmax).
  eapply bind_step; [exact Hrun|rewrite app_nil_r; reflexivity|cbv beta].
  unfold after_open. do 2 apply bind_Undefined. unfold main_configure.
  replace (seqZ 0 (max_core_id cpus + 1)) with (0 :: seqZ 1 ((max_core_id cpus + 1) - 1))
    by (rewrite (seqZ_cons 0) by lia; reflexivity).
  change (seqZ 0 port_count) with (0 :: seqZ 1 5).
  cbn [for_each]. do 2 apply bind_Undefined.
  unfold configure_port. rewrite Hzero. reflexivity.
Qed.

(** X18: the [constant_tsc] check looks at the first logical processor only;
    when its flags lack the word, the program prints why and exits with
    [EXIT_FAILURE], before any register file is opened. *)
Theorem no_constant_tsc_exits (n : nat) (k : K) (cpus : list cpu_t.t)
    (cpu0 : cpu_t.t) :
  supported ->
  proc_cpuinfo = Some cpus ->
  cpus !! 0%nat = Some cpu0 ->
  "constant_tsc" ∉ cpu_t.flags cpu0 ->
  main n k
  = (trace (main_probe k) ++ [EvStderr no_constant_tsc_message], k,
     Exit EXIT_FAILURE)
  /\ forallb is_stderr (trace (main n k)) = true.
Proof.
  intros Hs Hinfo H0 Hflag.
  assert (Htopo : main_topology k
                  = ([EvStderr no_constant_tsc_message], k, Exit EXIT_FAILURE)).
  { unfold main_topology, cpuinfo. rewrite Hinfo.
    run_step ltac:(reflexivity).
    run_step ltac:(apply index_run; [lia|exact H0]).
    destruct (decide _); [contradiction|reflexivity]. }
  assert (Hrun : main n k
    = (trace (main_probe k) ++ [EvStderr no_constant_tsc_message], k,
       Exit EXIT_FAILURE)).
  { rewrite main_split.
    run_step ltac:(apply main_probe_run).
    run_step ltac:(apply main_gate_pass; exact Hs).
    apply bind_Exit. exact Htopo. }
  split; [exact Hrun|]. rewrite Hrun.
  change (forallb is_stderr
            (trace (main_probe k) ++ [EvStderr no_constant_tsc_message]) = true).
  rewrite forallb_app, main_probe_stderr. reflexivity.
Qed.

(** X19: a topology without any logical processor, which is what an empty or
    unreadable [/proc/cpuinfo] gives, is not checked for: after the report
    the program reads the flags of [cpus[0]], which is not there. *)
Theorem empty_topology_out_of_range (n : nat) (k : K) :
  supported ->
  proc_cpuinfo = Some [] ->
  main n k = (trace (main_probe k), k, Undefined).
Proof.
  intros Hs Hinfo.
  rewrite main_split.
  rewrite <- (app_nil_r (trace (main_probe k))).
  run_step ltac:(apply main_probe_run).
  run_step ltac:(apply main_gate_pass; exact Hs).
  apply bind_Undefined.
  unfold main_topology, cpuinfo. rewrite Hinfo.
  run_step ltac:(reflexivity).
  apply bind_Undefined. reflexivity.
Qed.
End Failures.

(** * The sampling loop *)

Section Sampling.
Context {K : Type} `{Machine K}.

(** A loop whose body keeps an invariant of the variable it updates and
    emits events of one kind only. *)
Lemma fold_each_inv {A S} (l : list A) (body : A -> S -> M K S)
    (Inv : S -> Prop) (E : io_event -> Prop) :
  (forall x s k, x ∈ l -> Inv s ->
     exists t s' k', body x s k = (t, k', Ret s') /\ Inv s' /\ Forall E t) ->
  forall s k, Inv s ->
    exists t s' k', fold_each l s body k = (t, k', Ret s') /\ Inv s' /\ Forall E t.
Proof.
  induction l as [|x l IH]; intros Hb s k Hs; simpl.
  - exists [], s, k. repeat split; auto.
  - destruct (Hb x s k ltac:(left) Hs) as (t1 & s1 & k1 & Hx & Hs1 & Ht1).
    destruct (IH (fun y s' k' Hy => Hb y s' k' ltac:(right; exact Hy)) s1 k1 Hs1)
      as (t2 & s2 & k2 & Hl & Hs2 & Ht2).
    exists (t1 ++ t2), s2, k2. split; [|split; [exact Hs2|apply Forall_app; auto]].
    rewrite (bind_Ret _ _ _ _ _ _ Hx), Hl. reflexivity.
Qed.

Lemma rdmsr_returns (m : msr_t) (reg : Z) (k : K) :
  pread_ret (sys_pread (fd m) 8 reg k).1 = 8 ->
  exists v,
    rdmsr m reg k
    = ([EvPread (fd m) 8 reg (sys_pread (fd m) 8 reg k).1],
       (sys_pread (fd m) 8 reg k).2, Ret v).
Proof. intros Hr. rewrite rdmsr_run, Hr. eexists. reflexivity. Qed.

Lemma values_shape_insert (n_cores : Z) (values : list (list Z)) (c i : nat)
    (row : list Z) (v : Z) :
  values_shape n_cores values -> values !! c = Some row ->
  values_shape n_cores (<[c := <[i := v]> row]> values).
Proof.
  intros [Hlen Hrows] Hrow. split; [rewrite length_insert; exact Hlen|].
  apply Forall_insert; [exact Hrows|]. rewrite length_insert.
  rewrite Forall_lookup in Hrows. apply (Hrows c row Hrow).
Qed.

Lemma tick_port_returns (info : pmc_info_t) (core_msrs : list (list msr_t))
    (hz c i : Z) (values : list (list Z)) (k : K) :
  0 < num_pmc_per_thread info ->
  Forall (fun msrs => (port_count - 1) / num_pmc_per_thread info
                      < Z.of_nat (length msrs)) core_msrs ->
  Forall (Forall (fun m => forall offset k0,
                    pread_ret (sys_pread (fd m) 8 offset k0).1 = 8)) core_msrs ->
  0 <= c < Z.of_nat (length core_msrs) -> 0 <= i < port_count ->
  values_shape (Z.of_nat (length core_msrs)) values ->
  exists t values' k',
    tick_port info core_msrs hz c i values k = (t, k', Ret values')
    /\ values_shape (Z.of_nat (length core_msrs)) values'
    /\ Forall (fun e => is_usleep e = false) t.
Proof.
  intros Hn Hfit Hread Hc Hi Hshape.
  set (n := num_pmc_per_thread info) in *.
  assert (Hdiv : 0 <= i / n) by (apply Z.div_pos; lia).
  assert (Hmod : 0 <= i mod n < n) by (apply Z.mod_pos_bound; lia).
  assert (Hmodi : i mod n <= i) by (apply Z.mod_le; lia).
  assert (Hpc : port_count = 6) by reflexivity.
  pose proof (core_fits info core_msrs c i Hn Hfit Hc Hi) as Hfits. fold n in Hfits.
  set (msrs := nth (Z.to_nat c) core_msrs []) in *.
  set (m := nth (Z.to_nat (i / n)) msrs (mk_msr (-1))).
  assert (Hm : pread_ret (sys_pread (fd m) 8 (0xc1 + i mod n) k).1 = 8).
  { rewrite (Forall_nth _ []) in Hread.
    specialize (Hread (Z.to_nat c) ltac:(lia)). fold msrs in Hread.
    rewrite (Forall_nth _ (mk_msr (-1))) in Hread.
    apply (Hread (Z.to_nat (i / n))). lia. }
  destruct (rdmsr_returns m (0xc1 + i mod n) k Hm) as [v Hv].
  destruct Hshape as [Hlen Hrows].
  destruct (lookup_lt_is_Some_2 values (Z.to_nat c) ltac:(lia)) as [row Hrow].
  assert (Hrowlen : Z.of_nat (length row) = port_count).
  { rewrite Forall_lookup in Hrows. apply (Hrows _ _ Hrow). }
  destruct (lookup_lt_is_Some_2 row (Z.to_nat i) ltac:(lia)) as [v0 Hv0].
  eexists _, _, _. split; [|split].
  - unfold tick_port. fold n.
    run_step ltac:(apply udiv_run; lia).
    run_step ltac:(apply umod_run; lia).
    run_step ltac:(apply index_run; [lia|apply (lookup_nth _ _ []); lia]).
    run_step ltac:(apply index_run; [lia|apply (lookup_nth _ _ (mk_msr (-1))); fold msrs; lia]).
    run_step ltac:(apply index_run; [lia|apply pmc_slot; lia]).
    run_step ltac:(exact Hv).
    run_step ltac:(apply index_run; [lia|exact Hrow]).
    run_step ltac:(apply index_run; [lia|exact Hv0]).
    reflexivity.
  - apply values_shape_insert; [split; assumption|exact Hrow].
  - repeat constructor.
Qed.

Lemma main_tick_returns (info : pmc_info_t) (core_msrs : list (list msr_t))
    (st : Z * list (list Z)) (k : K) :
  0 < num_pmc_per_thread info ->
  Forall (fun msrs => (port_count - 1) / num_pmc_per_thread info
                      < Z.of_nat (length msrs)) core_msrs ->
  Forall (Forall (fun m => forall offset k0,
                    pread_ret (sys_pread (fd m) 8 offset k0).1 = 8)) core_msrs ->
  values_shape (Z.of_nat (length core_msrs)) st.2 ->
  exists t st' k',
    main_tick info (Z.of_nat (length core_msrs)) core_msrs st k
    = (EvUsleep (1000 * 1000) :: t, k', Ret st')
    /\ values_shape (Z.of_nat (length core_msrs)) st'.2
    /\ Forall (fun e => is_usleep e = false) t.
Proof.
  intros Hn Hfit Hread Hshape.
  destruct (insn_rdtsc (sys_usleep (1000 * 1000) k)) as [[eax edx] k1] eqn:Htsc.
  set (tsc := Z.lor (wrap64 (Z.shiftl edx 32)) eax).
  destruct (fold_each_inv (seqZ 0 (Z.of_nat (length core_msrs)))
              (fun core_id values =>
                 fprintf_stderr "[" [] ;;
                 values' <- fold_each (seqZ 0 port_count) values
                              (fun i values0 =>
                                 tick_port info core_msrs (sub64 tsc st.1)
                                           core_id i values0) ;;
                 fprintf_stderr "] " [] ;;
                 ret values')
              (values_shape (Z.of_nat (length core_msrs)))
              (fun e => is_usleep e = false))
    with (s := st.2) (k := k1)
    as (t & values' & k2 & Hrun & Hshape' & Ht).
  - intros c values k0 Hc Hvalues. apply elem_of_seqZ in Hc.
    destruct (fold_each_inv (seqZ 0 port_count)
                (fun i values0 =>
                   tick_port info core_msrs (sub64 tsc st.1) c i values0)
                (values_shape (Z.of_nat (length core_msrs)))
                (fun e => is_usleep e = false))
      with (s := values) (k := k0)
      as (t & values' & k2 & Hrun & Hshape' & Ht).
    + intros i values0 k2 Hi Hvalues0. apply elem_of_seqZ in Hi.
      apply tick_port_returns; auto; lia.
    + exact Hvalues.
    + exists (EvFprintf "[" [] :: t ++ [EvFprintf "] " []]), values', k2.
      split; [|split; [exact Hshape'|]].
      * run_step ltac:(reflexivity).
        run_step ltac:(exact Hrun).
        reflexivity.
      * constructor; [reflexivity|]. apply Forall_app. split; [exact Ht|].
        repeat constructor.
  - exact Hshape.
  - exists (EvRdtsc eax edx :: t ++ [EvFprintf endl []]), (tsc, values'), k2.
    split; [|split; [exact Hshape'|]].
    + unfold main_tick.
      run_step ltac:(reflexivity).
      eapply bind_step;
        [unfold rdtsc; rewrite Htsc; reflexivity|reflexivity|cbv beta].
      fold tsc.
      run_step ltac:(exact Hrun).
      reflexivity.
    + constructor; [reflexivity|]. apply Forall_app. split; [exact Ht|].
      repeat constructor.
Qed.

Lemma filter_no_usleep (t : list io_event) :
  Forall (fun e => is_usleep e = false) t -> List.filter is_usleep t = [].
Proof.
  induction 1 as [|e t He _ IH]; simpl; [reflexivity|]. rewrite He. exact IH.
Qed.

(** X20: the sampling loop does not stop by itself: with a counter count of
    at least one, a logical processor at every offset needed, reads that
    deliver their 8 bytes and a table of previous values of the right shape,
    every turn sleeps once for a second and comes back with a table of the
    same shape, so that no turn throws, exits or leaves the range of a
    vector, however many there are. *)
Theorem sampling_never_stops (n : nat) (info : pmc_info_t)
    (core_msrs : list (list msr_t)) (st : Z * list (list Z)) (k : K) :
  0 < num_pmc_per_thread info ->
  Forall (fun msrs => (port_count - 1) / num_pmc_per_thread info
                      < Z.of_nat (length msrs)) core_msrs ->
  Forall (Forall (fun m => forall offset k0,
                    pread_ret (sys_pread (fd m) 8 offset k0).1 = 8)) core_msrs ->
  values_shape (Z.of_nat (length core_msrs)) st.2 ->
  exists t st' k',
    main_loop n info (Z.of_nat (length core_msrs)) core_msrs st k
    = (t, k', Ret st')
    /\ values_shape (Z.of_nat (length core_msrs)) st'.2
    /\ List.filter is_usleep t = replicate n (EvUsleep 1000000).
Proof.
  intros Hn Hfit Hread. revert st k.
  induction n as [|n IH]; intros st k Hshape.
  - exists [], st, k. repeat split; auto; apply Hshape.
  - destruct (main_tick_returns info core_msrs st k Hn Hfit Hread Hshape)
      as (t1 & st1 & k1 & Htick & Hshape1 & Ht1).
    destruct (IH st1 k1 Hshape1) as (t2 & st2 & k2 & Hloop & Hshape2 & Ht2).
    exists ((EvUsleep (1000 * 1000) :: t1) ++ t2), st2, k2.
    split; [|split; [exact Hshape2|]].
    + cbn [main_loop]. rewrite (bind_Ret _ _ _ _ _ _ Htick), Hloop. reflexivity.
    + rewrite List.filter_app. cbn [List.filter is_usleep].
      rewrite (filter_no_usleep t1 Ht1), Ht2. reflexivity.
Qed.
End Sampling.

(** * One turn of the sampling loop *)

Section Tick.
Context {K : Type} `{Machine K}.

Lemma fold_each_app {A S} (l1 l2 : list A) (body : A -> S -> M K S)
    (s : S) (k : K) :
  fold_each (l1 ++ l2) s body k
  = bind (fold_each l1 s body) (fun s' => fold_each l2 s' body) k.
Proof.
  revert s k. induction l1 as [|x l1 IH]; intros s k.
  - simpl. unfold bind, ret.
    destruct (fold_each l2 s body k) as [[t k'] o]. reflexivity.
  - cbn [app fold_each]. rewrite bind_assoc. apply bind_ext.
    intros s' k'. apply IH.
Qed.

(** A loop over one more element. *)
Lemma fold_each_snoc {A S} (l : list A) (x : A) (body : A -> S -> M K S)
    (s s1 s2 : S) (k k1 k2 : K) (t t2 : list io_event) :
  fold_each l s body k = (t, k1, Ret s1) ->
  body x s1 k1 = (t2, k2, Ret s2) ->
  fold_each (l ++ [x]) s body k = (t ++ t2, k2, Ret s2).
Proof.
  intros Hl Hx. rewrite fold_each_app, (bind_Ret _ _ _ _ _ _ Hl).
  cbn [fold_each]. rewrite (bind_Ret _ _ _ _ _ _ Hx).
  unfold trace, final, result, ret. simpl. rewrite app_nil_r. reflexivity.
Qed.

Lemma seqZ_snoc (n : Z) : 0 <= n -> seqZ 0 (n + 1) = seqZ 0 n ++ [n].
Proof.
  intros Hn. rewrite seqZ_app by lia. f_equal.
Qed.

(** The inner loop of a turn, up to event index [j]: the row of core [c]
    holds the values read so far, and beyond them the old ones. *)
Lemma tick_row_run (info : pmc_info_t) (core_msrs : list (list msr_t))
    (hz c : Z) (current : Z -> Z) (row : list Z) (k1 : K) :
  0 < num_pmc_per_thread info ->
  0 <= c < Z.of_nat (length core_msrs) ->
  (port_count - 1) / num_pmc_per_thread info
    < Z.of_nat (length (nth (Z.to_nat c) core_msrs [])) ->
  Z.of_nat (length row) = port_count ->
  (forall i, 0 <= i < port_count ->
     0 <= current i < 2 ^ 64
     /\ sys_pread
          (fd (nth (Z.to_nat (i / num_pmc_per_thread info))
                   (nth (Z.to_nat c) core_msrs []) (mk_msr (-1))))
          8 (0xc1 + i mod num_pmc_per_thread info) k1
        = (Some (le_split 8 (current i)), k1)) ->
  forall (j : nat) (values : list (list Z)),
    Z.of_nat j <= port_count ->
    values !! Z.to_nat c = Some row ->
    fold_each (seqZ 0 (Z.of_nat j)) values
      (fun i vs => tick_port info core_msrs hz c i vs) k1
    = (concat (map (fun i => tick_events info core_msrs hz c i (current i)
                               (nth (Z.to_nat i) row 0))
                   (seqZ 0 (Z.of_nat j))),
       k1,
       Ret (<[Z.to_nat c := map current (seqZ 0 (Z.of_nat j)) ++ drop j row]> values)).
Proof.
  intros Hn Hc Hfit Hlen Hread.
  set (n := num_pmc_per_thread info) in *.
  assert (Hpc : port_count = 6) by reflexivity.
  induction j as [|j IH]; intros values Hj Hrow.
  - change (seqZ 0 (Z.of_nat 0)) with (@nil Z). simpl. rewrite drop_0.
    rewrite list_insert_id by exact Hrow. reflexivity.
  - replace (Z.of_nat (S j)) with (Z.of_nat j + 1) by lia.
    rewrite seqZ_snoc by lia.
    set (rowj := map current (seqZ 0 (Z.of_nat j)) ++ drop j row).
    assert (Hlenj : length (map current (seqZ 0 (Z.of_nat j))) = j)
      by (rewrite length_map, length_seqZ; lia).
    destruct (lookup_lt_is_Some_2 row j ltac:(lia)) as [v0 Hv0].
    assert (Hstate :
      <[Z.to_nat c := map current (seqZ 0 (Z.of_nat j) ++ [Z.of_nat j]) ++ drop (S j) row]> values
      = <[Z.to_nat c := <[Z.to_nat (Z.of_nat j) := current (Z.of_nat j)]> rowj]>
          (<[Z.to_nat c := rowj]> values)).
    { rewrite list_insert_insert_eq. f_equal. unfold rowj.
      rewrite Nat2Z.id, insert_app_r_alt by lia.
      rewrite Hlenj, Nat.sub_diag, (drop_S _ _ _ Hv0). simpl.
      rewrite map_app, <- app_assoc. reflexivity. }
    rewrite Hstate, map_app, concat_app. cbn [map concat]. rewrite app_nil_r.
    eapply fold_each_snoc; [apply IH; [lia|exact Hrow]|].
    fold rowj. unfold tick_events. fold n.
    assert (Hi : 0 <= Z.of_nat j < port_count) by lia.
    destruct (Hread (Z.of_nat j) Hi) as [Hcur Hpread].
    assert (Hdiv : 0 <= Z.of_nat j / n) by (apply Z.div_pos; lia).
    assert (Hmod : 0 <= Z.of_nat j mod n < n) by (apply Z.mod_pos_bound; lia).
    assert (Hmodi : Z.of_nat j mod n <= Z.of_nat j) by (apply Z.mod_le; lia).
    assert (Hdivi : Z.of_nat j / n <= (port_count - 1) / n)
      by (apply Z.div_le_mono; lia).
    apply (tick_port_run info core_msrs hz c (Z.of_nat j) _ k1 k1
             (nth (Z.to_nat c) core_msrs []) _ _ rowj); try lia.
    + apply lookup_nth. lia.
    + apply lookup_nth. fold n. lia.
    + fold n. apply pmc_slot. lia.
    + apply list_lookup_insert_eq. apply lookup_lt_Some in Hrow. exact Hrow.
    + unfold rowj. rewrite Nat2Z.id, lookup_app_r by lia.
      rewrite Hlenj, Nat.sub_diag, lookup_drop, Nat.add_0_r.
      rewrite Hv0. f_equal. symmetry. apply nth_lookup_Some with (d := 0) in Hv0.
      exact Hv0.
    + exact Hpread.
Qed.

(** The outer loop of a turn, up to core [m]. *)
Lemma tick_rows_run (info : pmc_info_t) (core_msrs : list (list msr_t))
    (hz : Z) (current : Z -> Z -> Z) (previous : list (list Z)) (k1 : K) :
  0 < num_pmc_per_thread info ->
  Forall (fun msrs => (port_count - 1) / num_pmc_per_thread info
                      < Z.of_nat (length msrs)) core_msrs ->
  values_shape (Z.of_nat (length core_msrs)) previous ->
  (forall c i, 0 <= c < Z.of_nat (length core_msrs) -> 0 <= i < port_count ->
     0 <= current c i < 2 ^ 64
     /\ sys_pread
          (fd (nth (Z.to_nat (i / num_pmc_per_thread info))
                   (nth (Z.to_nat c) core_msrs []) (mk_msr (-1))))
          8 (0xc1 + i mod num_pmc_per_thread info) k1
        = (Some (le_split 8 (current c i)), k1)) ->
  forall m : nat, (m <= length core_msrs)%nat ->
    fold_each (seqZ 0 (Z.of_nat m)) previous
      (fun core_id values =>
         fprintf_stderr "[" [] ;;
         values' <- fold_each (seqZ 0 port_count) values
                      (fun i values0 =>
                         tick_port info core_msrs hz core_id i values0) ;;
         fprintf_stderr "] " [] ;;
         ret values') k1
    = (concat (map (tick_core_events info core_msrs hz current previous)
                   (seqZ 0 (Z.of_nat m))),
       k1,
       Ret (map (fun c => map (current c) (seqZ 0 port_count))
                (seqZ 0 (Z.of_nat m))
            ++ drop m previous)).
Proof.
  intros Hn Hfit [Hlen Hrows] Hread.
  induction m as [|m IH]; intros Hm.
  - change (seqZ 0 (Z.of_nat 0)) with (@nil Z). simpl. rewrite drop_0.
    reflexivity.
  - replace (Z.of_nat (S m)) with (Z.of_nat m + 1) by lia.
    rewrite seqZ_snoc by lia.
    set (done := map (fun c => map (current c) (seqZ 0 port_count))
                     (seqZ 0 (Z.of_nat m))).
    assert (Hdone : length done = m)
      by (unfold done; rewrite length_map, length_seqZ; lia).
    destruct (lookup_lt_is_Some_2 previous m ltac:(lia)) as [row Hrow].
    assert (Hrowlen : Z.of_nat (length row) = port_count).
    { rewrite Forall_lookup in Hrows. apply (Hrows _ _ Hrow). }
    assert (Hnth : nth (Z.to_nat (Z.of_nat m)) previous [] = row).
    { rewrite Nat2Z.id. apply nth_lookup_Some with (d := []) in Hrow. exact Hrow. }
    assert (Hat : (done ++ drop m previous) !! Z.to_nat (Z.of_nat m) = Some row).
    { rewrite Nat2Z.id, lookup_app_r by lia.
      rewrite Hdone, Nat.sub_diag, lookup_drop, Nat.add_0_r. exact Hrow. }
    assert (Hstate :
      map (fun c => map (current c) (seqZ 0 port_count))
          (seqZ 0 (Z.of_nat m) ++ [Z.of_nat m]) ++ drop (S m) previous
      = <[Z.to_nat (Z.of_nat m) :=
            map (current (Z.of_nat m)) (seqZ 0 (Z.of_nat 6)) ++ drop 6 row]>
          (done ++ drop m previous)).
    { assert (Hrow6 : (length row <= 6)%nat)
        by (unfold port_count in Hrowlen; simpl in Hrowlen; lia).
      rewrite (drop_ge row) by exact Hrow6.
      rewrite Nat2Z.id, insert_app_r_alt by lia.
      rewrite Hdone, Nat.sub_diag, (drop_S _ _ _ Hrow).
      cbn [list_insert insert]. 
      rewrite app_nil_r, map_app, <- app_assoc. reflexivity. }
    rewrite Hstate, map_app, concat_app. cbn [map concat]. rewrite app_nil_r.
    eapply fold_each_snoc; [apply IH; lia|].
    fold done. unfold tick_core_events. rewrite Hnth.
    run_step ltac:(reflexivity).
    eapply bind_step;
      [apply (tick_row_run info core_msrs hz (Z.of_nat m) (current (Z.of_nat m))
                row k1 Hn ltac:(lia)) with (j := 6%nat)
      |reflexivity|cbv beta].
    + rewrite (Forall_nth _ []) in Hfit. apply Hfit. lia.
    + exact Hrowlen.
    + intros i Hi. apply Hread; lia.
    + unfold port_count. simpl. lia.
    + exact Hat.
    + run_step ltac:(reflexivity). reflexivity.
Qed.

(** C2: in a turn of the loop the delta taken for a counter is
    [(current - previous) mod 2^64], a non-negative count; it is the number
    of events of the interval also when the counter went once round [2^64]
    and [current < previous]; and the figure printed for event index [i] of
    core [c] is that delta divided by the cycles elapsed since the turn
    before, [(tsc - tsc0) mod 2^64], times 100.  [current c i] is what the
    read of the counter delivers, [previous] the table kept from the turn
    before; the turn leaves the table of the values read and its own time
    stamp. *)
Theorem main_tick_delta (info : pmc_info_t) (core_msrs : list (list msr_t))
    (tsc0 : Z) (previous : list (list Z)) (current : Z -> Z -> Z)
    (k k1 : K) (eax edx : Z) :
  0 < num_pmc_per_thread info ->
  Forall (fun msrs => (port_count - 1) / num_pmc_per_thread info
                      < Z.of_nat (length msrs)) core_msrs ->
  values_shape (Z.of_nat (length core_msrs)) previous ->
  Forall (Forall (fun v => 0 <= v < 2 ^ 64)) previous ->
  insn_rdtsc (sys_usleep (1000 * 1000) k) = ((eax, edx), k1) ->
  (forall c i, 0 <= c < Z.of_nat (length core_msrs) -> 0 <= i < port_count ->
     0 <= current c i < 2 ^ 64
     /\ sys_pread
          (fd (nth (Z.to_nat (i / num_pmc_per_thread info))
                   (nth (Z.to_nat c) core_msrs []) (mk_msr (-1))))
          8 (0xc1 + i mod num_pmc_per_thread info) k1
        = (Some (le_split 8 (current c i)), k1)) ->
  let n := num_pmc_per_thread info in
  let n_cores := Z.of_nat (length core_msrs) in
  let tsc := Z.lor (wrap64 (Z.shiftl edx 32)) eax in
  let elapsed_cycles := (tsc - tsc0) mod 2 ^ 64 in
  let prev c i := nth (Z.to_nat i) (nth (Z.to_nat c) previous []) 0 in
  let delta c i := (current c i - prev c i) mod 2 ^ 64 in
  let percent c i :=
    PrimFloat.mul
      (PrimFloat.div (to_double (delta c i)) (to_double elapsed_cycles))
      (to_double 100) in
  main_tick info n_cores core_msrs (tsc0, previous) k
  = (EvUsleep 1000000 :: EvRdtsc eax edx
       :: concat (map (fun c =>
            EvFprintf "[" []
              :: concat (map (fun i =>
                   [EvPread
                      (fd (nth (Z.to_nat (i / n))
                               (nth (Z.to_nat c) core_msrs []) (mk_msr (-1))))
                      8 (0xc1 + i mod n) (Some (le_split 8 (current c i)));
                    EvFprintf "%6.2f%%" [percent c i]])
                   (seqZ 0 port_count))
              ++ [EvFprintf "] " []])
            (seqZ 0 n_cores))
       ++ [EvFprintf endl []],
     k1,
     Ret (tsc, map (fun c => map (current c) (seqZ 0 port_count))
                   (seqZ 0 n_cores)))
  /\ (forall c i, 0 <= delta c i < 2 ^ 64)
  /\ (forall c i, 0 <= c < n_cores -> 0 <= i < port_count ->
        current c i < prev c i ->
        delta c i = current c i + 2 ^ 64 - prev c i)
  /\ (forall c i count, 0 <= count < 2 ^ 64 ->
        current c i = (prev c i + count) mod 2 ^ 64 -> delta c i = count).
Proof.
  intros Hn Hfit Hshape Hprev Htsc Hread n n_cores tsc elapsed_cycles prev
         delta percent.
  split; [|split; [|split]].
  - pose proof (tick_rows_run info core_msrs elapsed_cycles current previous k1
                  Hn Hfit Hshape Hread (length core_msrs) ltac:(lia)) as Hrows.
    destruct Hshape as [Hlen _].
    rewrite drop_ge, app_nil_r in Hrows by lia.
    unfold main_tick.
    run_step ltac:(reflexivity).
    eapply bind_step;
      [unfold rdtsc; rewrite Htsc; reflexivity|reflexivity|cbv beta].
    eapply bind_step; [exact Hrows|reflexivity|cbv beta].
    reflexivity.
  - intros c i. apply delta_range.
  - intros c i Hc Hi Hlt. apply delta_wrapped; [|apply Hread; assumption|exact Hlt].
    unfold prev.
    destruct (decide (Z.to_nat c < length previous)%nat) as [Hc'|Hc'].
    + rewrite (Forall_nth _ []) in Hprev. specialize (Hprev _ Hc').
      destruct (decide (Z.to_nat i < length (nth (Z.to_nat c) previous []))%nat)
        as [Hi'|Hi'].
      * rewrite (Forall_nth _ 0) in Hprev. apply Hprev, Hi'.
      * rewrite nth_overflow by lia. lia.
    + rewrite (nth_overflow previous) by lia. destruct (Z.to_nat i); simpl; lia.
  - intros c i count Hcount Hcur. apply delta_count; assumption.
Qed.
End Tick.

Lemma main_tick_delta_witness :
  let run := @main_tick _ (sim_machine sim_two_threads)
               (pmcinfo four_counters_eax0a) 1 [[mk_msr 3; mk_msr 4]]
               (3000000, [[2 ^ 64 - 5000; 0; 0; 0; 0; 0]])
               (mk_sim 5 3000000 [(3, 0xc1, 2 ^ 64 - 5000)]) in
  result run = Ret (4000000, [[5000; 0; 0; 0; 0; 0]])
  /\ List.filter (fun e => match e with EvFprintf _ (_ :: _) => true | _ => false end)
       (trace run)
     = EvFprintf "%6.2f%%" [1%float] :: replicate 5 (EvFprintf "%6.2f%%" [0%float])
  /\ (5000 - (2 ^ 64 - 5000)) mod 2 ^ 64 = 10000.
Proof.
  intros run.
  destruct (@main_tick_delta _ (sim_machine sim_two_threads)
              (pmcinfo four_counters_eax0a) [[mk_msr 3; mk_msr 4]] 3000000
              [[2 ^ 64 - 5000; 0; 0; 0; 0; 0]]
              (fun c i => if i =? 0 then 5000 else 0)
              (mk_sim 5 3000000 [(3, 0xc1, 2 ^ 64 - 5000)])
              (mk_sim 5 4000000 [(3, 0xc1, 5000)]) 4000000 0)
    as (Hrun & _ & Hwrap & _).
  - vm_compute. reflexivity.
  - repeat constructor.
  - split; [reflexivity|]. repeat constructor.
  - repeat (apply Forall_cons; split); try apply Forall_nil; lia.
  - reflexivity.
  - intros c i Hc Hi.
    assert (c = 0) as -> by (simpl in Hc; lia).
    assert (Hi' : i = 0 \/ i = 1 \/ i = 2 \/ i = 3 \/ i = 4 \/ i = 5)
      by (unfold port_count in Hi; simpl in Hi; lia).
    repeat (destruct Hi' as [->|Hi']; [split; [simpl; lia|reflexivity]|]).
    subst i. split; [simpl; lia|reflexivity].
  - change (Z.of_nat (length [[mk_msr 3; mk_msr 4]])) with 1 in Hrun.
    unfold run. rewrite Hrun. split; [reflexivity|]. split; [reflexivity|].
    apply (Hwrap 0 0); [simpl; lia|unfold port_count; simpl; lia|simpl; lia].
Defined.

(** * Configure beyond the hardware *)

Section Beyond.
Context {K : Type} `{Machine K}.

(** A loop that goes wrong at one element stops there. *)
Lemma for_each_stops {A} (l1 : list A) (x : A) (l2 : list A)
    (body : A -> M K unit) (out : A -> list io_event) (tx : list io_event) :
  (forall y, y ∈ l1 -> forall k, exists k', body y k = (out y, k', Ret tt)) ->
  (forall k, exists k', body x k = (tx, k', Undefined)) ->
  forall k, exists k',
    for_each (l1 ++ x :: l2) body k = (concat (map out l1) ++ tx, k', Undefined).
Proof.
  induction l1 as [|y l1 IH]; intros Hb Hx k.
  - destruct (Hx k) as [k' Hk]. exists k'. simpl.
    apply bind_Undefined. exact Hk.
  - destruct (Hb y ltac:(left) k) as [k1 Hy].
    destruct (IH (fun z Hz => Hb z ltac:(right; exact Hz)) Hx k1) as [k2 Hl].
    exists k2. cbn [app for_each map concat].
    rewrite (bind_Ret _ _ _ _ _ _ Hy), Hl, <- app_assoc. reflexivity.
Qed.

Lemma seqZ_split (j n : Z) :
  0 <= j < n -> seqZ 0 n = seqZ 0 j ++ j :: seqZ (j + 1) (n - j - 1).
Proof.
  intros Hj. replace n with (j + (n - j)) at 1 by lia.
  rewrite seqZ_app by lia. f_equal. rewrite Z.add_0_l.
  rewrite seqZ_cons by lia. do 2 f_equal; lia.
Qed.

Lemma configure_port_beyond (info : pmc_info_t) (core_msrs : list (list msr_t))
    (c i : Z) (k : K) :
  0 < num_pmc_per_thread info ->
  0 <= c < Z.of_nat (length core_msrs) ->
  0 <= i < port_count ->
  Z.of_nat (length (nth (Z.to_nat c) core_msrs []))
    <= i / num_pmc_per_thread info ->
  configure_port info core_msrs c i k = ([], k, Undefined).
Proof.
  intros Hn Hc Hi Hbeyond.
  assert (Hpc : port_count = 6) by reflexivity.
  unfold configure_port.
  run_step ltac:(apply udiv_run; lia).
  run_step ltac:(apply umod_run; lia).
  run_step ltac:(apply index_run; [lia|apply (lookup_nth _ _ (mk_pmc_event_type 0 0));
                                      change (length UOPS_DISPATCHED_PORT) with 6%nat; lia]).
  run_step ltac:(apply index_run; [lia|apply (lookup_nth _ _ []); lia]).
  apply bind_Undefined. apply index_out_of_range. exact Hbeyond.
Qed.

(** X21: nothing in configure compares the event list with the hardware.  At
    the first core that has no logical processor at a needed offset, the
    registers of the offsets it has are written, and the next event index
    reads its register file off the end of the vector of that core; for a
    core id that no logical processor has, this is event index 0. *)
Theorem configure_out_of_range (info : pmc_info_t)
    (core_msrs : list (list msr_t)) (c : Z) (k : K) :
  0 < num_pmc_per_thread info ->
  0 <= c < Z.of_nat (length core_msrs) ->
  (forall c', 0 <= c' < c ->
     (port_count - 1) / num_pmc_per_thread info
     < Z.of_nat (length (nth (Z.to_nat c') core_msrs []))) ->
  Z.of_nat (length (nth (Z.to_nat c) core_msrs [])) * num_pmc_per_thread info
    < port_count ->
  Forall (Forall (fun m => forall buf offset k0,
                    (sys_pwrite (fd m) buf offset k0).1 = 8)) core_msrs ->
  exists k',
    main_configure info (Z.of_nat (length core_msrs)) core_msrs k
    = (concat (map (fun c' => map (evtsel_write info core_msrs c')
                                  (seqZ 0 port_count))
                   (seqZ 0 c))
         ++ map (evtsel_write info core_msrs c)
                (seqZ 0 (Z.of_nat (length (nth (Z.to_nat c) core_msrs []))
                         * num_pmc_per_thread info)),
       k', Undefined).
Proof.
  intros Hn Hc Hbefore Hshort Hacc.
  set (n := num_pmc_per_thread info) in *.
  set (m := Z.of_nat (length (nth (Z.to_nat c) core_msrs []))) in *.
  assert (Hm : 0 <= m) by (unfold m; lia).
  assert (Hmn : 0 <= m * n) by nia.
  unfold main_configure.
  replace (seqZ 0 (Z.of_nat (length core_msrs)))
    with (seqZ 0 c ++ c :: seqZ (c + 1) (Z.of_nat (length core_msrs) - c - 1)).
  2:{ symmetry. apply seqZ_split. lia. }
  apply for_each_stops.
  - intros c' Hc' k0. apply elem_of_seqZ in Hc'.
    rewrite <- concat_map_singleton.
    apply for_each_run. intros i Hi k1. apply elem_of_seqZ in Hi.
    apply configure_port_run; auto; try lia.
    specialize (Hbefore c' ltac:(lia)).
    assert (i / n <= (port_count - 1) / n) by (apply Z.div_le_mono; lia).
    fold n. lia.
  - intros k0.
    replace (seqZ 0 port_count)
      with (seqZ 0 (m * n) ++ m * n :: seqZ (m * n + 1) (port_count - m * n - 1)).
    2:{ symmetry. apply seqZ_split. lia. }
    rewrite <- (app_nil_r (map _ (seqZ 0 (m * n)))).
    rewrite <- concat_map_singleton.
    apply for_each_stops.
    + intros i Hi k1. apply elem_of_seqZ in Hi.
      apply configure_port_run; auto; try lia.
      fold n m. apply Z.div_lt_upper_bound; lia.
    + intros k1. exists k1. apply configure_port_beyond; auto; try lia.
      fold n m. rewrite Z.div_mul by lia. lia.
Qed.
End Beyond.

(** * The range of [int] and the width of the counters *)

Section Widths.
Context {K : Type} `{Machine K}.

(** X22: the number of cores is taken on [int].  With a core id of
    [INT_MAX] in the topology the sum of line 302 overflows: the program
    gets past the report, the gate and the [constant_tsc] check and then
    leaves what C++ defines, before any register file is opened. *)
Theorem core_id_overflow (n : nat) (k : K) (cpus : list cpu_t.t)
    (cpu0 : cpu_t.t) :
  supported ->
  proc_cpuinfo = Some cpus ->
  cpus !! 0%nat = Some cpu0 ->
  "constant_tsc" ∈ cpu_t.flags cpu0 ->
  Exists (fun cpu => cpu_t.core_id cpu = INT_MAX) cpus ->
  main n k = (trace (main_probe k), k, Undefined)
  /\ existsb is_open (trace (main n k)) = false.
Proof.
  intros Hs Hinfo H0 Hflag Hmax.
  assert (Hrun : main n k = (trace (main_probe k), k, Undefined)).
  { rewrite main_split.
    rewrite <- (app_nil_r (trace (main_probe k))).
    run_step ltac:(apply main_probe_run).
    run_step ltac:(apply main_gate_pass; exact Hs).
    run_step ltac:(eapply main_topology_pass; eassumption).
    apply bind_Undefined. apply num_cores_overflow.
    eapply Exists_impl; [exact Hmax|]. simpl. intros cpu ->. lia. }
  split; [exact Hrun|]. rewrite Hrun. reflexivity.
Qed.

(** X23: the width of the counters that [pmcinfo] reports is printed and
    never used.  When a counter of [w < 64] bits goes once round [2^w]
    while [count] events happen, the value read is below the previous one,
    and the delta that the loop divides by the cycles is
    [count + (2^64 - 2^w)]: the subtraction wraps at 64 bits, the counter
    at [w]. *)
Theorem narrow_counter_wrap (info : pmc_info_t) (core_msrs : list (list msr_t))
    (hz core_id i : Z) (values : list (list Z)) (k k' : K)
    (msrs : list msr_t) (msr : msr_t) (reg : Z) (row : list Z)
    (previous count : Z) :
  0 < num_pmc_per_thread info -> 0 <= core_id -> 0 <= i ->
  core_msrs !! Z.to_nat core_id = Some msrs ->
  msrs !! Z.to_nat (i / num_pmc_per_thread info) = Some msr ->
  IA32_PMC !! Z.to_nat (i mod num_pmc_per_thread info) = Some reg ->
  values !! Z.to_nat core_id = Some row ->
  row !! Z.to_nat i = Some previous ->
  let w := pmc_bitwidth info in
  let current := (previous + count) mod 2 ^ w in
  0 < w < 64 ->
  0 <= previous < 2 ^ w -> 0 <= count < 2 ^ w -> 2 ^ w <= previous + count ->
  sys_pread (fd msr) 8 reg k = (Some (le_split 8 current), k') ->
  current < previous
  /\ tick_port info core_msrs hz core_id i values k
     = ([EvPread (fd msr) 8 reg (Some (le_split 8 current));
         EvFprintf "%6.2f%%"
           [PrimFloat.mul
              (PrimFloat.div (to_double (count + (2 ^ 64 - 2 ^ w)))
                             (to_double hz))
              (to_double 100)]],
        k',
        Ret (<[Z.to_nat core_id := <[Z.to_nat i := current]> row]> values))
  /\ count < count + (2 ^ 64 - 2 ^ w).
Proof.
  intros Hn Hc Hi Hmsrs Hmsr Hreg Hrow Hprev w current Hw Hp Hcount Hround Hread.
  assert (Hpow : 0 < 2 ^ w <= 2 ^ 63).
  { split; [apply Z.pow_pos_nonneg; lia|apply Z.pow_le_mono_r; lia]. }
  assert (Hcur : current = previous + count - 2 ^ w).
  { unfold current.
    replace (previous + count) with ((previous + count - 2 ^ w) + 1 * 2 ^ w) at 1 by lia.
    rewrite Z.mod_add by lia. apply Z.mod_small. lia. }
  assert (Hdelta : (current - previous) mod 2 ^ 64 = count + (2 ^ 64 - 2 ^ w)).
  { rewrite Hcur.
    replace (previous + count - 2 ^ w - previous)
      with ((count + (2 ^ 64 - 2 ^ w)) + (-1) * 2 ^ 64) by lia.
    rewrite Z.mod_add by lia. apply Z.mod_small. lia. }
  split; [lia|]. split; [|lia].
  rewrite <- Hdelta.
  apply (tick_port_run info core_msrs hz core_id i values k k' msrs msr reg row);
    auto. lia.
Qed.
End Widths.

(** * Text, parser and startup on concrete inputs *)

Lemma trim_strips_witness :
  trim (text "  " ++ text "core id" ++ [tab]) = Ret (text "core id").
Proof.
  apply (trim_strips (text "  ") (text "core id") [tab]).
  - simpl. lia.
  - repeat constructor.
  - repeat constructor.
  - intros c Hc. injection Hc as <-. reflexivity.
  - intros c Hc. injection Hc as <-. reflexivity.
Defined.

Lemma trim_result_witness :
  exists pre t post,
    trim (text " 42 ") = Ret t
    /\ text " 42 " = pre ++ t ++ post
    /\ Forall (fun c => is_blank c = true) pre
    /\ Forall (fun c => is_blank c = true) post
    /\ (forall c, head t = Some c -> is_blank c = false)
    /\ (forall c, last t = Some c -> is_blank c = false).
Proof. apply (trim_result (text " 42 ")). simpl. lia. Defined.

Lemma trim_idempotent_witness : trim (text "42") = Ret (text "42").
Proof.
  apply (trim_idempotent (text " 42 ") (text "42")).
  - simpl. lia.
  - reflexivity.
Defined.

Lemma trim_empty_iff_witness :
  trim [space; tab; space] = Ret []
  <-> Forall (fun c => is_blank c = true) [space; tab; space].
Proof. apply (trim_empty_iff [space; tab; space]). simpl. lia. Defined.

Lemma split_tokens_witness :
  split (text "fpu" ++ space :: text "vme") space
  = text "fpu" :: split (text "vme") space
  /\ split (text "fpu") space
     = (if decide (text "fpu" = []) then [] else [text "fpu"])
  /\ split (text "fpu" ++ [space]) space = [text "fpu"].
Proof.
  apply (split_tokens (text "fpu") (text "vme") space).
  intros Hin.
  repeat (apply elem_of_cons in Hin as [Hin|Hin]; [discriminate|]).
  inversion Hin.
Defined.

Lemma cpuinfo_records_witness :
  exists cpus,
    cpuinfo_parse stoi_digits sample_cpuinfo 7 7 7 7 = Ret cpus
    /\ length cpus = 2%nat
    /\ (cpu_t.id <$> cpus) = [0; 1]
    /\ (cpu_t.core_id <$> cpus) = [0; 0].
Proof.
  destruct (cpuinfo_parse stoi_digits sample_cpuinfo 7 7 7 7) as [cpus| | |] eqn:E;
    try (vm_compute in E; discriminate).
  exists cpus. split; [reflexivity|].
  destruct (cpuinfo_records stoi_digits sample_cpuinfo 7 7 7 7 cpus E) as [Hlen _].
  split; [exact Hlen|].
  vm_compute in E. injection E as <-. split; reflexivity.
Defined.

Lemma cpuinfo_missing_colon_witness :
  cpuinfo_parse stoi_digits broken_cpuinfo 7 7 7 7
  = Throw "can't parse /proc/cpuinfo".
Proof.
  eapply (cpuinfo_missing_colon stoi_digits broken_cpuinfo 7 7 7 7
            [attribute_line "processor" "0"] (text "garbage") [[]]).
  - vm_compute. reflexivity.
  - vm_compute. reflexivity.
  - discriminate.
  - intros Hin.
    repeat (apply elem_of_cons in Hin as [Hin|Hin]; [discriminate|]).
    inversion Hin.
Defined.

Lemma cpuinfo_line_flags_witness :
  exists flags,
    cpuinfo_line stoi_digits
      ((text "flags" ++ [tab; tab]) ++ colon :: text " fpu constant_tsc")
      [] cpu_t_zero
    = Ret ([], cpu_t.mk 0 0 0 0 flags)
    /\ ("constant_tsc" ∈ flags
        <-> "constant_tsc" ∈ cpu_t.flags cpu_t_zero
            \/ exists word, word ∈ split (text "fpu constant_tsc") space
                 /\ "constant_tsc" = String.string_of_list_ascii word).
Proof.
  apply (cpuinfo_line_flags stoi_digits (text "flags" ++ [tab; tab])
           (text " fpu constant_tsc") (text "fpu constant_tsc") [] cpu_t_zero
           "constant_tsc").
  - intros Hin.
    repeat (apply elem_of_cons in Hin as [Hin|Hin]; [discriminate|]).
    inversion Hin.
  - vm_compute. reflexivity.
  - reflexivity.
  - reflexivity.
Defined.

Lemma cpuinfo_line_core_id_witness :
  cpuinfo_line stoi_digits
    ((text "core id" ++ [tab; tab]) ++ colon :: text " 3") [] cpu_t_zero
  = Ret ([], cpu_t.mk 0 0 0 3 ∅).
Proof.
  apply (cpuinfo_line_core_id stoi_digits (text "core id" ++ [tab; tab])
           (text " 3") (text "3") [] cpu_t_zero).
  - intros Hin.
    repeat (apply elem_of_cons in Hin as [Hin|Hin]; [discriminate|]).
    inversion Hin.
  - vm_compute. reflexivity.
  - reflexivity.
  - reflexivity.
Defined.

Lemma rdtsc_combines_witness :
  @rdtsc _ (sim_machine sim_one_thread) (mk_sim 3 (256 * 2 ^ 32 + 5) [])
  = ([EvRdtsc 5 256], mk_sim 3 (256 * 2 ^ 32 + 5) [], Ret (256 * 2 ^ 32 + 5)).
Proof.
  apply (@rdtsc_combines _ (sim_machine sim_one_thread)
           (mk_sim 3 (256 * 2 ^ 32 + 5) []) (mk_sim 3 (256 * 2 ^ 32 + 5) []) 5 256).
  - reflexivity.
  - lia.
  - lia.
Defined.

Lemma reset_writes_witness :
  let info := pmcinfo four_counters_eax0a in
  let core_msrs := [[mk_msr 3; mk_msr 4]] in
  let k := mk_sim 5 0 [] in
  trace (@main_reset _ (sim_machine sim_two_threads) info 1 core_msrs k)
  = map (pmc_zero_write info core_msrs 0) [0; 1; 2; 3; 4; 5]
  /\ result (@main_reset _ (sim_machine sim_two_threads) info 1 core_msrs k)
     = Ret [[0; 0; 0; 0; 0; 0]].
Proof.
  intros info core_msrs k.
  destruct (@reset_writes _ (sim_machine sim_two_threads) info core_msrs k)
    as (Htrace & Hresult & _).
  - vm_compute. reflexivity.
  - repeat constructor.
  - repeat constructor; intros; reflexivity.
  - split; [exact Htrace|exact Hresult].
Defined.

Lemma startup_sequence_witness :
  exists fds core_msrs k' eax edx,
    length fds = 2%nat
    /\ @main_startup _ const_two_threads tt
       = (trace (@main_probe _ const_two_threads tt)
            ++ zip_with open_event [sim_cpu 0 0; sim_cpu 1 0] fds
            ++ concat (map (fun c => map (evtsel_write (pmcinfo four_counters_eax0a) core_msrs c)
                                         (seqZ 0 port_count))
                           (seqZ 0 1))
            ++ concat (map (fun c => map (pmc_zero_write (pmcinfo four_counters_eax0a) core_msrs c)
                                         (seqZ 0 port_count))
                           (seqZ 0 1))
            ++ [EvRdtsc eax edx],
          k',
          Ret (pmcinfo four_counters_eax0a, 1, core_msrs,
               (Z.lor (wrap64 (Z.shiftl edx 32)) eax,
                replicate (Z.to_nat 1) (replicate (Z.to_nat port_count) 0)))).
Proof.
  apply (@startup_sequence _ const_two_threads tt
           [sim_cpu 0 0; sim_cpu 1 0] (sim_cpu 0 0)).
  - repeat split; vm_compute; congruence.
  - reflexivity.
  - reflexivity.
  - vm_compute. set_solver.
  - repeat constructor; simpl; unfold INT_MAX; lia.
  - vm_compute. reflexivity.
  - intros c Hc. change (max_core_id _ + 1) with 1 in Hc.
    assert (c = 0) as -> by lia. vm_compute. reflexivity.
  - intros path k0. simpl. lia.
  - intros fildes buf offset k0 _. reflexivity.
Defined.

Lemma unopened_fails_at_write_witness :
  exists k',
    @main _ (sim_machine sim_locked) 1 sim_boot
    = (trace (@main_probe _ (sim_machine sim_locked) sim_boot)
         ++ map (fun cpu => open_event cpu (-1)) [sim_cpu 0 0; sim_cpu 1 0]
         ++ [EvPwrite (-1) (le_split 8 (evtsel_value 0xa1 0x01)) 0x186 (-1)],
       k', Throw "failed write").
Proof.
  apply (@unopened_fails_at_write _ (sim_machine sim_locked) 1%nat sim_boot
           [sim_cpu 0 0; sim_cpu 1 0] (sim_cpu 0 0)).
  - repeat split; vm_compute; congruence.
  - reflexivity.
  - reflexivity.
  - vm_compute. set_solver.
  - repeat constructor; simpl; unfold INT_MAX; lia.
  - vm_compute. reflexivity.
  - discriminate.
  - intros path k0. reflexivity.
  - intros buf offset k0. reflexivity.
Defined.

Lemma zero_counters_divide_witness :
  exists fds k',
    length fds = 1%nat
    /\ @main _ (sim_machine sim_zero_counters) 1 sim_boot
       = (trace (@main_probe _ (sim_machine sim_zero_counters) sim_boot)
            ++ zip_with open_event [sim_cpu 0 0] fds, k', Undefined).
Proof.
  apply (@zero_counters_divide _ (sim_machine sim_zero_counters) 1%nat sim_boot
           [sim_cpu 0 0] (sim_cpu 0 0)).
  - repeat split; vm_compute; congruence.
  - reflexivity.
  - reflexivity.
  - vm_compute. set_solver.
  - repeat constructor; simpl; unfold INT_MAX; lia.
  - reflexivity.
Defined.

Lemma no_constant_tsc_exits_witness :
  @main _ (sim_machine sim_no_constant_tsc) 1 sim_boot
  = (trace (@main_probe _ (sim_machine sim_no_constant_tsc) sim_boot)
       ++ [EvStderr no_constant_tsc_message], sim_boot, Exit EXIT_FAILURE)
  /\ forallb is_stderr (trace (@main _ (sim_machine sim_no_constant_tsc) 1 sim_boot))
     = true.
Proof.
  apply (@no_constant_tsc_exits _ (sim_machine sim_no_constant_tsc) 1%nat sim_boot
           [cpu_t.mk 0 6 42 0 {[ "fpu" ]}; sim_cpu 1 0] (cpu_t.mk 0 6 42 0 {[ "fpu" ]})).
  - repeat split; vm_compute; congruence.
  - reflexivity.
  - reflexivity.
  - vm_compute. set_solver.
Defined.

Lemma empty_topology_out_of_range_witness :
  @main _ (sim_machine sim_empty_topology) 1 sim_boot
  = (trace (@main_probe _ (sim_machine sim_empty_topology) sim_boot),
     sim_boot, Undefined).
Proof.
  apply (@empty_topology_out_of_range _ (sim_machine sim_empty_topology) 1%nat sim_boot).
  - repeat split; vm_compute; congruence.
  - reflexivity.
Defined.

Lemma sampling_never_stops_witness :
  exists t st' k',
    @main_loop _ (sim_machine sim_two_threads) 2 (pmcinfo four_counters_eax0a)
      1 [[mk_msr 3; mk_msr 4]] (0, [[0; 0; 0; 0; 0; 0]]) (mk_sim 5 0 [])
    = (t, k', Ret st')
    /\ values_shape 1 st'.2
    /\ List.filter is_usleep t = [EvUsleep 1000000; EvUsleep 1000000].
Proof.
  apply (@sampling_never_stops _ (sim_machine sim_two_threads) 2%nat
           (pmcinfo four_counters_eax0a) [[mk_msr 3; mk_msr 4]]
           (0, [[0; 0; 0; 0; 0; 0]]) (mk_sim 5 0 [])).
  - vm_compute. reflexivity.
  - repeat constructor.
  - repeat constructor; intros; reflexivity.
  - split; [reflexivity|]. repeat constructor.
Defined.

Lemma configure_out_of_range_witness :
  exists k',
    @main_configure _ (sim_machine sim_one_thread) (pmcinfo four_counters_eax0a)
      1 [[mk_msr 3]] (mk_sim 4 0 [])
    = (map (evtsel_write (pmcinfo four_counters_eax0a) [[mk_msr 3]] 0) [0; 1; 2; 3],
       k', Undefined).
Proof.
  apply (@configure_out_of_range _ (sim_machine sim_one_thread)
           (pmcinfo four_counters_eax0a) [[mk_msr 3]] 0 (mk_sim 4 0 [])).
  - vm_compute. reflexivity.
  - simpl. lia.
  - intros c' Hc'. lia.
  - vm_compute. reflexivity.
  - repeat constructor; intros; reflexivity.
Defined.

Lemma core_id_overflow_witness :
  @main _ (sim_machine sim_last_core_id) 1 sim_boot
  = (trace (@main_probe _ (sim_machine sim_last_core_id) sim_boot), sim_boot,
     Undefined)
  /\ existsb is_open (trace (@main _ (sim_machine sim_last_core_id) 1 sim_boot))
     = false.
Proof.
  apply (@core_id_overflow _ (sim_machine sim_last_core_id) 1%nat sim_boot
           [sim_cpu 0 INT_MAX] (sim_cpu 0 INT_MAX)).
  - repeat split; vm_compute; congruence.
  - reflexivity.
  - reflexivity.
  - vm_compute. set_solver.
  - constructor. reflexivity.
Defined.

Lemma narrow_counter_wrap_witness :
  5000 < 2 ^ 48 - 5000
  /\ @tick_port _ (sim_machine sim_one_thread) (pmcinfo four_counters_eax0a)
       [[mk_msr 3]] 1000000 0 0 [[2 ^ 48 - 5000; 0; 0; 0; 0; 0]]
       (mk_sim 4 0 [(3, 0xc1, 5000)])
     = ([EvPread 3 8 0xc1 (Some (le_split 8 5000));
         EvFprintf "%6.2f%%"
           [PrimFloat.mul
              (PrimFloat.div (to_double (10000 + (2 ^ 64 - 2 ^ 48)))
                             (to_double 1000000))
              (to_double 100)]],
        mk_sim 4 0 [(3, 0xc1, 5000)],
        Ret [[5000; 0; 0; 0; 0; 0]])
  /\ 10000 < 10000 + (2 ^ 64 - 2 ^ 48).
Proof.
  apply (@narrow_counter_wrap _ (sim_machine sim_one_thread)
           (pmcinfo four_counters_eax0a) [[mk_msr 3]] 1000000 0 0
           [[2 ^ 48 - 5000; 0; 0; 0; 0; 0]]
           (mk_sim 4 0 [(3, 0xc1, 5000)]) (mk_sim 4 0 [(3, 0xc1, 5000)])
           [mk_msr 3] (mk_msr 3) 0xc1 [2 ^ 48 - 5000; 0; 0; 0; 0; 0]
           (2 ^ 48 - 5000) 10000).
  - vm_compute. reflexivity.
  - lia.
  - lia.
  - reflexivity.
  - reflexivity.
  - reflexivity.
  - reflexivity.
  - reflexivity.
  - vm_compute. split; reflexivity.
  - change (pmc_bitwidth (pmcinfo four_counters_eax0a)) with 48. lia.
  - change (pmc_bitwidth (pmcinfo four_counters_eax0a)) with 48. lia.
  - change (pmc_bitwidth (pmcinfo four_counters_eax0a)) with 48. lia.
  - reflexivity.
Defined.
